(** * libiui headless test harness: DSL parser, compliance checks, PNG reader,
      image comparison and result readers of [scripts/headless-test.py]

    The development embeds the functions of the script that compute,
    [parse_dsl], [generate_md3_checks], [read_png] and [compare_images],
    the parts of [run_test], [run_md3_tests], [run_md3_runtime_tests],
    [run_shm_test] and [run_visual_test] that turn the output of a test
    program into a verdict, and the pieces of the Python runtime they rely
    on ([str.split], [str.strip], [re.match], [float], [int],
    [struct.unpack]), and proves properties of them.

    Conventions.
    - A Python [str] is a [string] whose characters are code points; the
      model covers the code points U+0000 to U+00FF, one [ascii] each (so
      the plus-minus sign U+00B1 is the single character 177).
    - A Python [float] is a binary64 primitive [float].
    - A Python [int] is a [Z].
    - A raised exception is the [Raise] constructor of [result]. *)

From Stdlib Require Import ZArith List String Ascii Bool Lia Floats.
From Stdlib Require Import Strings.Byte.
Import ListNotations.

Local Open Scope string_scope.
Local Open Scope Z_scope.

(** ** Exceptions *)

Inductive exn : Type :=
| ValueError
| TypeError
| IndexError
| OverflowError
| StructError   (* struct.error *)
| ZlibError.    (* zlib.error *)

Inductive result (A : Type) : Type :=
| Ok (a : A)
| Raise (e : exn).

Arguments Ok {A} a.
Arguments Raise {A} e.

Definition bind {A B : Type} (r : result A) (k : A -> result B) : result B :=
  match r with
  | Ok a => k a
  | Raise e => Raise e
  end.

Notation "x <- r ;; k" := (bind r (fun x => k))
  (at level 61, r at next level, right associativity).

(** ** Text: the [str] methods used by the parser *)

Module PyStr.

Definition code (c : ascii) : N := N_of_ascii c.

(** [str.isspace] on U+0000..U+00FF: TAB..CR, FS..US, SPACE, NEL, NBSP. *)
Definition is_space (c : ascii) : bool :=
  let n := code c in
  ((9 <=? n) && (n <=? 13) || (28 <=? n) && (n <=? 32)
   || (n =? 133) || (n =? 160))%N.

(** Decimal digits (category Nd) on U+0000..U+00FF: only 0..9. *)
Definition is_digit (c : ascii) : bool :=
  let n := code c in ((48 <=? n) && (n <=? 57))%N.

(** [str.isalnum] on U+0000..U+00FF. *)
Definition is_alnum (c : ascii) : bool :=
  let n := code c in
  ((48 <=? n) && (n <=? 57) || (65 <=? n) && (n <=? 90)
   || (97 <=? n) && (n <=? 122)
   || (n =? 170) || (n =? 178) || (n =? 179) || (n =? 181)
   || (n =? 185) || (n =? 186) || (188 <=? n) && (n <=? 190)
   || (192 <=? n) && (n <=? 214) || (216 <=? n) && (n <=? 246)
   || (248 <=? n) && (n <=? 255))%N.

Definition is_word (c : ascii) : bool :=
  is_alnum c || (code c =? 95)%N.

Fixpoint drop (n : nat) (s : string) : string :=
  match n, s with
  | O, _ => s
  | S _, EmptyString => EmptyString
  | S k, String _ s' => drop k s'
  end.

Fixpoint take (n : nat) (s : string) : string :=
  match n, s with
  | O, _ => EmptyString
  | S _, EmptyString => EmptyString
  | S k, String c s' => String c (take k s')
  end.

(** [strip_prefix p s] is [Some r] when [s = p ++ r]. *)
Fixpoint strip_prefix (p s : string) : option string :=
  match p, s with
  | EmptyString, _ => Some s
  | String _ _, EmptyString => None
  | String a p', String b s' =>
      if Ascii.eqb a b then strip_prefix p' s' else None
  end.

Definition startswith (s p : string) : bool :=
  match strip_prefix p s with Some _ => true | None => false end.

Fixpoint lstrip (s : string) : string :=
  match s with
  | EmptyString => EmptyString
  | String c s' => if is_space c then lstrip s' else s
  end.

Fixpoint rstrip (s : string) : string :=
  match s with
  | EmptyString => EmptyString
  | String c s' =>
      match rstrip s' with
      | EmptyString => if is_space c then EmptyString else String c EmptyString
      | r => String c r
      end
  end.

(** [s.strip()] *)
Definition strip (s : string) : string := rstrip (lstrip s).

(** [s.split("\n")]: never empty, one more piece than there are newlines. *)
Fixpoint split_lines (s : string) : list string :=
  match s with
  | EmptyString => [EmptyString]
  | String c s' =>
      if Ascii.eqb c "010" then EmptyString :: split_lines s'
      else match split_lines s' with
           | l :: ls => String c l :: ls
           | [] => [String c EmptyString]
           end
  end.

(** [sep.join(parts)] *)
Fixpoint join (sep : string) (parts : list string) : string :=
  match parts with
  | [] => EmptyString
  | [p] => p
  | p :: ps => p ++ sep ++ join sep ps
  end.

(** [s.replace(old, new)] for a non-empty [old]: occurrences are replaced
    left to right, without overlap.  [skip] counts the characters of an
    occurrence that is being stepped over. *)
Fixpoint replace_from (old new : string) (skip : nat) (s : string) : string :=
  match s with
  | EmptyString => EmptyString
  | String c s' =>
      match skip with
      | S k => replace_from old new k s'
      | O =>
          if startswith s old
          then new ++ replace_from old new (String.length old - 1) s'
          else String c (replace_from old new 0 s')
      end
  end.

Definition replace (s old new : string) : string := replace_from old new 0 s.

Fixpoint all_chars (p : ascii -> bool) (s : string) : bool :=
  match s with
  | EmptyString => true
  | String c s' => p c && all_chars p s'
  end.

End PyStr.

(** ** Regular expressions: the fragment of [re] the patterns use

    [re.match] is a backtracking matcher anchored at the start of the
    subject.  [run] lists every way a pattern can match a prefix of the
    subject, in the order the backtracking search tries them; [re.match]
    returns the first. *)

Module Re.

Inductive cls : Type := Space | Digit | Word.   (* \s  \d  \w *)

Definition in_cls (k : cls) : ascii -> bool :=
  match k with
  | Space => PyStr.is_space
  | Digit => PyStr.is_digit
  | Word => PyStr.is_word
  end.

Inductive regex : Type :=
| Lit (s : string)            (* literal text *)
| Plus (k : cls)              (* k+  greedy *)
| Star (k : cls)              (* k*  greedy *)
| Seq (r1 r2 : regex)         (* r1 r2 *)
| Alt (r1 r2 : regex)         (* r1|r2 *)
| Opt (r : regex)             (* (?:r)?  greedy *)
| Group (i : nat) (r : regex) (* capturing group number i *).

(** Captured groups, most recently closed first. *)
Definition captures : Type := list (nat * string).

(** Length of the longest prefix of [s] made of characters in [p]. *)
Fixpoint span (p : ascii -> bool) (s : string) : nat :=
  match s with
  | EmptyString => O
  | String c s' => if p c then S (span p s') else O
  end.

(** [n + lo - 1, ..., lo + 1, lo] *)
Fixpoint countdown (n lo : nat) : list nat :=
  match n with
  | O => []
  | S k => (k + lo)%nat :: countdown k lo
  end.

Fixpoint run (r : regex) (caps : captures) (s : string)
  : list (captures * string) :=
  match r with
  | Lit l =>
      match PyStr.strip_prefix l s with
      | Some s' => [(caps, s')]
      | None => []
      end
  | Plus k =>
      map (fun n => (caps, PyStr.drop n s)) (countdown (span (in_cls k) s) 1)
  | Star k =>
      map (fun n => (caps, PyStr.drop n s))
          (countdown (S (span (in_cls k) s)) 0)
  | Seq r1 r2 =>
      flat_map (fun st => run r2 (fst st) (snd st)) (run r1 caps s)
  | Alt r1 r2 => run r1 caps s ++ run r2 caps s
  | Opt r1 => run r1 caps s ++ [(caps, s)]
  | Group i r1 =>
      map (fun st =>
             ((i, PyStr.take (String.length s - String.length (snd st)) s)
                :: fst st, snd st))
          (run r1 caps s)
  end.

(** The match object: the captures of the first successful alternative. *)
Definition re_match (r : regex) (s : string) : option captures :=
  match run r [] s with
  | st :: _ => Some (fst st)
  | [] => None
  end.

(** [m.group(i)], [None] when group [i] did not take part in the match. *)
Fixpoint group (m : captures) (i : nat) : option string :=
  match m with
  | [] => None
  | (j, s) :: m' => if Nat.eqb i j then Some s else group m' i
  end.

(** [m.lastindex] *)
Definition lastindex (m : captures) : option nat :=
  match m with
  | [] => None
  | (j, _) :: _ => Some j
  end.

(** [\d+(?:\.\d+)?], the number shape every numeric pattern captures. *)
Definition NUMBER : regex :=
  Seq (Plus Digit) (Opt (Seq (Lit ".") (Plus Digit))).

End Re.

(** ** Numbers: [int(str)], [float(str)] and [float(int)] *)

Module PyNum.

Definition digit_val (c : ascii) : Z := Z.of_N (PyStr.code c) - 48.

(** Value of a run of decimal digits, most significant first. *)
Fixpoint digits_to_Z (acc : Z) (s : string) : Z :=
  match s with
  | EmptyString => acc
  | String c s' => digits_to_Z (10 * acc + digit_val c) s'
  end.

Definition nonempty (s : string) : bool :=
  match s with EmptyString => false | String _ _ => true end.

Definition is_digits (s : string) : bool :=
  nonempty s && PyStr.all_chars PyStr.is_digit s.

(** [sys.int_info.default_max_str_digits]: CPython (3.11, and the
    security releases of 3.7 to 3.10) refuses to convert a decimal
    string of more digits with [ValueError]. *)
Definition int_max_str_digits : nat := 4300.

(** [int(s)] for a [str].  Exact on non-empty runs of digits, the only
    strings the patterns of this file hand to it; the other spellings
    [int] accepts (sign, padding, underscores) are not modelled and are
    reported as [ValueError]. *)
Definition int_of_str (s : string) : result Z :=
  if is_digits s then
    if (int_max_str_digits <? String.length s)%nat then Raise ValueError
    else Ok (digits_to_Z 0 s)
  else Raise ValueError.

(** The binary64 number nearest to [n / 10^k] (ties to even), infinite
    past the largest finite value as [float(str)] has it. *)
Definition float_of_decimal (n : Z) (k : nat) : float :=
  match n with
  | Zpos p =>
      SF2Prim (SFdiv prec emax (S754_finite false p 0)
                 (S754_finite false (Z.to_pos (10 ^ Z.of_nat k)) 0))
  | _ => PrimFloat.zero
  end.

(** Splits at the first ["."]. *)
Fixpoint split_dot (s : string) : string * option string :=
  match s with
  | EmptyString => (EmptyString, None)
  | String c s' =>
      if Ascii.eqb c "." then (EmptyString, Some s')
      else let (a, b) := split_dot s' in (String c a, b)
  end.

(** [float(s)] for a [str].  Exact on plain decimal literals
    ([12], [12.5], [12.], [.5]); the other spellings [float] accepts
    (sign, exponent, padding, [inf], [nan], underscores), which no pattern
    of this file captures, are not modelled and are reported as
    [ValueError]. *)
Definition float_of_str (s : string) : result float :=
  match split_dot s with
  | (ip, None) =>
      if is_digits ip then Ok (float_of_decimal (digits_to_Z 0 ip) 0)
      else Raise ValueError
  | (ip, Some fp) =>
      if PyStr.all_chars PyStr.is_digit ip
         && PyStr.all_chars PyStr.is_digit fp
         && (nonempty ip || nonempty fp)
      then Ok (float_of_decimal (digits_to_Z 0 (ip ++ fp)) (String.length fp))
      else Raise ValueError
  end.

(** First integer that no longer rounds to a finite binary64. *)
Definition float_int_limit : Z := 2 ^ 1024 - 2 ^ 970.

(** [float(z)] for an [int], also the implicit conversion of an [int]
    operand in mixed arithmetic: nearest binary64, [OverflowError] when
    that would be infinite. *)
Definition float_of_int (z : Z) : result float :=
  if Z.abs z <? float_int_limit
  then Ok (SF2Prim (binary_normalize prec emax z 0 false))
  else Raise OverflowError.

(** [float(x)] where [x] is a group of a match object, [None] when the
    group took no part: [float(None)] raises [TypeError]. *)
Definition py_float (x : option string) : result float :=
  match x with
  | Some s => float_of_str s
  | None => Raise TypeError
  end.

(** [str(x)] for the same kind of [x]. *)
Definition py_str (x : option string) : string :=
  match x with
  | Some s => s
  | None => "None"
  end.

(** [int(x or 0)]: a missing or empty group counts as [0]. *)
Definition py_int_or_0 (x : option string) : result Z :=
  match x with
  | Some (String c s) => int_of_str (String c s)
  | _ => Ok 0
  end.

End PyNum.

(** ** The MD3 DSL parser *)

Import Re PyNum.

Infix ">>" := Seq (at level 60, right associativity).

(** A [dict] with [str] keys: insertion-ordered, one entry per key.
    Assigning to a key that is present keeps its position. *)
Definition dict (V : Type) : Type := list (string * V).

Fixpoint dict_get {V : Type} (d : dict V) (k : string) : option V :=
  match d with
  | [] => None
  | (k', v) :: d' => if String.eqb k' k then Some v else dict_get d' k
  end.

Fixpoint dict_set {V : Type} (d : dict V) (k : string) (v : V) : dict V :=
  match d with
  | [] => [(k, v)]
  | (k', v') :: d' =>
      if String.eqb k' k then (k, v) :: d' else (k', v') :: dict_set d' k v
  end.

Definition dict_keys {V : Type} (d : dict V) : list string := map fst d.

(** [class Component] *)
Record Component : Type := mkComponent {
  name : string;
  height_min : option float;
  height_exact : option float;
  height_tolerance : Z;
  size_exact : option float;
  size_tolerance : Z;
  touch_target : option float;
  corner_radius : option float;
  corner_radius_token : option string;
  track_height : option float;
  track_width : option float;
  thumb_size : option float;
  icon_size : option float;
  padding_h : option float
}.

(** [Component(name=n)]: every other field at its default. *)
Definition new_Component (n : string) : Component :=
  mkComponent n None None 0 None 0 None None None None None None None None.

(** [class Spec] *)
Record Spec : Type := mkSpec {
  components : dict Component;
  grid_unit : float
}.

(** [Spec()] *)
Definition new_Spec : Spec := mkSpec [] 4%float.

(** [setattr(c, attr, v)], by the type of [v].  The attribute names that
    reach it are those of [COMPONENT_PROPS] and the two tolerance names, all
    fields of the class; another name leaves the record as it is. *)
Definition setattr_float (c : Component) (attr : string) (v : float)
  : Component :=
  let upd (field : string) (old : option float) :=
    if String.eqb attr field then Some v else old in
  mkComponent (name c)
    (upd "height_min" (height_min c))
    (upd "height_exact" (height_exact c))
    (height_tolerance c)
    (upd "size_exact" (size_exact c))
    (size_tolerance c)
    (upd "touch_target" (touch_target c))
    (upd "corner_radius" (corner_radius c))
    (corner_radius_token c)
    (upd "track_height" (track_height c))
    (upd "track_width" (track_width c))
    (upd "thumb_size" (thumb_size c))
    (upd "icon_size" (icon_size c))
    (upd "padding_h" (padding_h c)).

Definition setattr_str (c : Component) (attr : string) (v : string)
  : Component :=
  mkComponent
    (if String.eqb attr "name" then v else name c)
    (height_min c) (height_exact c) (height_tolerance c)
    (size_exact c) (size_tolerance c) (touch_target c) (corner_radius c)
    (if String.eqb attr "corner_radius_token" then Some v
     else corner_radius_token c)
    (track_height c) (track_width c) (thumb_size c) (icon_size c)
    (padding_h c).

Definition setattr_int (c : Component) (attr : string) (v : Z) : Component :=
  mkComponent (name c) (height_min c) (height_exact c)
    (if String.eqb attr "height_tolerance" then v else height_tolerance c)
    (size_exact c)
    (if String.eqb attr "size_tolerance" then v else size_tolerance c)
    (touch_target c) (corner_radius c) (corner_radius_token c)
    (track_height c) (track_width c) (thumb_size c) (icon_size c)
    (padding_h c).

(** The third column of [COMPONENT_PROPS]: [float] or [str]. *)
Inductive conv : Type := conv_float | conv_str.

(** The plus-minus sign, U+00B1. *)
Definition PLUS_MINUS : string := String "177" EmptyString.

(** [<keyword>\s+(\d+(?:\.\d+)?)] *)
Definition keyword_number (kw : string) : regex :=
  Lit kw >> Plus Space >> Group 1 NUMBER.

(** [<word>\s+EXACT\s+(\d+(?:\.\d+)?)\s*(?:±(\d+))?] *)
Definition exact_with_tolerance (w : string) : regex :=
  Lit w >> Plus Space >> Lit "EXACT" >> Plus Space >> Group 1 NUMBER
    >> Star Space >> Opt (Lit PLUS_MINUS >> Group 2 (Plus Digit)).

Definition HEIGHT_MIN_RE : regex :=
  Lit "height" >> Plus Space >> Lit "MIN" >> Plus Space >> Group 1 NUMBER.

(** [corner_radius\s+@shape\.(\w+)] *)
Definition CORNER_TOKEN_RE : regex :=
  Lit "corner_radius" >> Plus Space >> Lit "@shape." >> Group 1 (Plus Word).

Definition CORNER_RADIUS_RE : regex := keyword_number "corner_radius".

Definition COMPONENT_PROPS : list (regex * string * conv) :=
  [ (HEIGHT_MIN_RE, "height_min", conv_float);
    (exact_with_tolerance "height", "height_exact", conv_float);
    (exact_with_tolerance "size", "size_exact", conv_float);
    (keyword_number "touch_target", "touch_target", conv_float);
    (CORNER_TOKEN_RE, "corner_radius_token", conv_str);
    (CORNER_RADIUS_RE, "corner_radius", conv_float);
    (keyword_number "track_height", "track_height", conv_float);
    (keyword_number "track_width", "track_width", conv_float);
    (keyword_number "thumb_size", "thumb_size", conv_float);
    (keyword_number "icon_size", "icon_size", conv_float);
    (keyword_number "padding_h", "padding_h", conv_float) ].

(** [COMPONENT\s+(\w+)\s*\{] *)
Definition COMPONENT_RE : regex :=
  Lit "COMPONENT" >> Plus Space >> Group 1 (Plus Word) >> Star Space
    >> Lit "{".

(** [GLOBAL\s+grid_unit\s+(\d+(?:\.\d+)?)] *)
Definition GRID_UNIT_RE : regex :=
  Lit "GLOBAL" >> Plus Space >> Lit "grid_unit" >> Plus Space
    >> Group 1 NUMBER.

(** [GLOBAL\s+(state_layer|shape|typography)\s*\{] *)
Definition SKIP_BLOCK_RE : regex :=
  Lit "GLOBAL" >> Plus Space
    >> Group 1 (Alt (Lit "state_layer") (Alt (Lit "shape") (Lit "typography")))
    >> Star Space >> Lit "{".

(** What the loop over [COMPONENT_PROPS] does with the match object [m] of
    the pattern that matched: the converted group 1 goes to [attr] and, for
    the two [_exact] attributes, a tolerance group goes to the paired
    tolerance attribute. *)
Definition apply_match (c : Component) (attr : string) (cv : conv)
  (m : captures) : result Component :=
  c1 <- match cv with
        | conv_float =>
            v <- py_float (group m 1) ;; Ok (setattr_float c attr v)
        | conv_str => Ok (setattr_str c attr (py_str (group m 1)))
        end ;;
  if String.eqb attr "height_exact" || String.eqb attr "size_exact"
  then
    match lastindex m with
    | None => Raise TypeError       (* None >= 2 *)
    | Some li =>
        if (2 <=? li)%nat then
          let tol_attr := PyStr.replace attr "_exact" "_tolerance" in
          t <- py_int_or_0 (group m 2) ;;
          Ok (setattr_int c1 tol_attr t)
        else Ok c1
    end
  else Ok c1.

(** The [for pattern, attr, conv in COMPONENT_PROPS] loop: the first
    pattern that matches is applied and ends the loop. *)
Fixpoint apply_props (props : list (regex * string * conv))
  (c : Component) (line : string) : result Component :=
  match props with
  | [] => Ok c
  | (pattern, attr, cv) :: rest =>
      match re_match pattern line with
      | Some m => apply_match c attr cv m
      | None => apply_props rest c line
      end
  end.

(** The local variables of [parse_dsl].  [current_component] refers to the
    object stored in [spec.components] under its own name, so the model
    keeps that name and updates the entry in place. *)
Record pstate : Type := mkState {
  st_spec : Spec;
  current_component : option string;
  current_block : option string
}.

Definition with_components (st : pstate) (d : dict Component) : pstate :=
  mkState (mkSpec d (grid_unit (st_spec st)))
    (current_component st) (current_block st).

(** Truth value of [current_block]. *)
Definition block_open (st : pstate) : bool :=
  match current_block st with
  | Some b => nonempty b
  | None => false
  end.

(** [current_block == "skip"] *)
Definition in_skip (st : pstate) : bool :=
  match current_block st with
  | Some b => String.eqb b "skip"
  | None => false
  end.

(** One turn of the [for line in content.split("\n")] loop. *)
Definition parse_line (st : pstate) (raw : string) : result pstate :=
  let line := PyStr.strip raw in
  if negb (nonempty line) || PyStr.startswith line "#" then Ok st
  else
    match re_match COMPONENT_RE line with
    | Some m =>
        match group m 1 with
        | Some n =>
            Ok (mkState
                  (mkSpec (dict_set (components (st_spec st)) n
                             (new_Component n))
                     (grid_unit (st_spec st)))
                  (Some n) (current_block st))
        | None => Raise TypeError  (* group 1 is part of every match *)
        end
    | None =>
    match re_match GRID_UNIT_RE line with
    | Some m =>
        g <- py_float (group m 1) ;;
        Ok (mkState (mkSpec (components (st_spec st)) g)
              (current_component st) (current_block st))
    | None =>
    match re_match SKIP_BLOCK_RE line with
    | Some _ => Ok (mkState (st_spec st) (current_component st) (Some "skip"))
    | None =>
    if String.eqb line "}" then
      if block_open st
      then Ok (mkState (st_spec st) (current_component st) None)
      else Ok (mkState (st_spec st) None (current_block st))
    else if in_skip st then Ok st
    else
      match current_component st with
      | Some key =>
          match dict_get (components (st_spec st)) key with
          | Some c =>
              c' <- apply_props COMPONENT_PROPS c line ;;
              Ok (with_components st
                    (dict_set (components (st_spec st)) key c'))
          | None => Ok st  (* the current component is always stored *)
          end
      | None => Ok st
      end
    end end end.

Fixpoint parse_lines (st : pstate) (lines : list string) : result pstate :=
  match lines with
  | [] => Ok st
  | l :: ls => st' <- parse_line st l ;; parse_lines st' ls
  end.

Definition initial_state : pstate := mkState new_Spec None None.

Definition parse_dsl (content : string) : result Spec :=
  st <- parse_lines initial_state (PyStr.split_lines content) ;;
  Ok (st_spec st).

(** ** MD3 compliance checks *)

From Stdlib Require DecimalString.

(** A value read back with [getattr]. *)
Inductive pyval : Type :=
| PyFloat (f : float)
| PyInt (z : Z)
| PyStr (s : string).

(** [getattr(comp, attr, None)]: [None] when the class has no such
    attribute or when the attribute holds [None]. *)
Definition getattr (c : Component) (attr : string) : option pyval :=
  let named (field : string) := String.eqb attr field in
  if named "name" then Some (PyStr (name c))
  else if named "height_min" then option_map PyFloat (height_min c)
  else if named "height_exact" then option_map PyFloat (height_exact c)
  else if named "height_tolerance" then Some (PyInt (height_tolerance c))
  else if named "size_exact" then option_map PyFloat (size_exact c)
  else if named "size_tolerance" then Some (PyInt (size_tolerance c))
  else if named "touch_target" then option_map PyFloat (touch_target c)
  else if named "corner_radius" then option_map PyFloat (corner_radius c)
  else if named "corner_radius_token" then option_map PyStr (corner_radius_token c)
  else if named "track_height" then option_map PyFloat (track_height c)
  else if named "track_width" then option_map PyFloat (track_width c)
  else if named "thumb_size" then option_map PyFloat (thumb_size c)
  else if named "icon_size" then option_map PyFloat (icon_size c)
  else if named "padding_h" then option_map PyFloat (padding_h c)
  else None.

Definition SPEC_CONST_MAP : dict (dict (string * Z)) :=
  [ ("button", [("height_min", ("IUI_BUTTON_HEIGHT", 40))]);
    ("textfield", [("height_min", ("IUI_TEXTFIELD_HEIGHT", 56))]);
    ("switch", [("track_width", ("IUI_SWITCH_TRACK_WIDTH", 52));
                ("track_height", ("IUI_SWITCH_TRACK_HEIGHT", 32))]);
    ("chip", [("height_min", ("IUI_CHIP_HEIGHT", 32))]);
    ("fab", [("size_exact", ("IUI_FAB_SIZE", 56))]);
    ("segmented", [("height_exact", ("IUI_SEGMENTED_HEIGHT", 40));
                   ("icon_size", ("IUI_SEGMENTED_ICON_SIZE", 18))]);
    ("slider", [("track_height", ("IUI_SLIDER_TRACK_HEIGHT", 4))]);
    ("tab", [("height_min", ("IUI_TAB_HEIGHT", 48))]);
    ("search_bar", [("height_min", ("IUI_SEARCH_BAR_HEIGHT", 56));
                    ("corner_radius", ("IUI_SEARCH_BAR_CORNER_RADIUS", 28))]);
    ("dialog", [("min_width", ("IUI_DIALOG_MIN_WIDTH", 280))]);
    ("nav_bar", [("height_exact", ("IUI_NAV_BAR_HEIGHT", 80))]);
    ("nav_rail", [("width_exact", ("IUI_NAV_RAIL_WIDTH", 80));
                  ("item_height", ("IUI_NAV_RAIL_ITEM_HEIGHT", 56))]);
    ("nav_drawer", [("width_exact", ("IUI_NAV_DRAWER_WIDTH", 280));
                    ("item_height", ("IUI_NAV_DRAWER_ITEM_HEIGHT", 56))]);
    ("appbar_small", [("height_exact", ("IUI_APPBAR_SMALL_HEIGHT", 64))]);
    ("appbar_medium", [("height_exact", ("IUI_APPBAR_MEDIUM_HEIGHT", 112))]);
    ("appbar_large", [("height_exact", ("IUI_APPBAR_LARGE_HEIGHT", 152))]);
    ("list_item_one_line", [("height_exact", ("IUI_LIST_ONE_LINE_HEIGHT", 56))]);
    ("list_item_two_line", [("height_exact", ("IUI_LIST_TWO_LINE_HEIGHT", 72))]);
    ("list_item_three_line",
      [("height_exact", ("IUI_LIST_THREE_LINE_HEIGHT", 88))]) ].

(** The literal [0.1]: the binary64 number nearest to one tenth. *)
Definition THRESHOLD : float := 0x1.999999999999ap-4%float.

(** [abs(val - expected) < 0.1] for an [int] [expected].  A [float] minus an
    [int] converts the [int]; between two [int]s the difference is an
    [int], below [0.1] only when it is [0]; a [str] operand raises. *)
Definition near (val : pyval) (expected : Z) : result bool :=
  match val with
  | PyFloat f =>
      e <- float_of_int expected ;;
      Ok (PrimFloat.ltb (PrimFloat.abs (PrimFloat.sub f e)) THRESHOLD)
  | PyInt z => Ok (Z.abs (z - expected) <? 1)
  | PyStr _ => Raise TypeError
  end.

(** One emitted check: the placeholders of the f-string. *)
Record check_item : Type := mkCheck {
  chk_component : string;
  chk_attr : string;
  chk_const : string;
  chk_expected : Z
}.

Definition DQUOTE : string := String "034" EmptyString.

(** [str(int(expected))] *)
Definition str_of_int (z : Z) : string :=
  DecimalString.NilZero.string_of_int (Z.to_int z).

(** The f-string of [generate_md3_checks]. *)
Definition render_check (k : check_item) : string :=
  "    check(" ++ DQUOTE ++ chk_component k ++ "_" ++ chk_attr k ++ DQUOTE
    ++ ", (int)" ++ chk_const k ++ " == " ++ str_of_int (chk_expected k)
    ++ " ? 0 : 1);".

(** The loop [for attr, (const_name, expected) in mapping.items()]. *)
Fixpoint checks_of_mapping (cname : string) (comp : Component)
  (mapping : dict (string * Z)) (checks : list check_item)
  : result (list check_item) :=
  match mapping with
  | [] => Ok checks
  | (attr, (const_name, expected)) :: rest =>
      match getattr comp attr with
      | None => checks_of_mapping cname comp rest checks
      | Some val =>
          ok <- near val expected ;;
          checks_of_mapping cname comp rest
            (if ok then (checks ++ [mkCheck cname attr const_name expected])%list
             else checks)
      end
  end.

(** [SPEC_CONST_MAP.get(name, {})] *)
Definition mapping_of (table : dict (dict (string * Z))) (cname : string)
  : dict (string * Z) :=
  match dict_get table cname with
  | Some m => m
  | None => []
  end.

(** The loop [for name, comp in spec.components.items()]; an empty mapping
    contributes nothing, as the [continue] has it. *)
Fixpoint checks_of_components (table : dict (dict (string * Z)))
  (comps : dict Component) (checks : list check_item)
  : result (list check_item) :=
  match comps with
  | [] => Ok checks
  | (cname, comp) :: rest =>
      checks' <- checks_of_mapping cname comp (mapping_of table cname) checks ;;
      checks_of_components table rest checks'
  end.

(** The list [checks] at the end of [generate_md3_checks]. *)
Definition md3_check_items (spec : Spec) : result (list check_item) :=
  checks_of_components SPEC_CONST_MAP (components spec) [].

Definition generate_md3_checks (spec : Spec) : result string :=
  checks <- md3_check_items spec ;;
  Ok (PyStr.join (String "010" EmptyString) (map render_check checks)).

(** ** PNG reader and image comparison *)

Definition bytes : Type := list byte.

Definition byte_val (b : byte) : Z := Z.of_N (Byte.to_N b).

(** [f.read(n)] on the unread part of the file: the bytes read and what is
    left; fewer than [n] bytes at the end of the file. *)
Fixpoint read (n : Z) (f : bytes) : bytes * bytes :=
  match f with
  | [] => ([], [])
  | b :: f' =>
      if n <=? 0 then ([], f)
      else let (d, r) := read (n - 1) f' in (b :: d, r)
  end.

(** [struct.unpack(">I", bs)[0]] *)
Definition unpack_u32 (bs : bytes) : result Z :=
  match bs with
  | [b3; b2; b1; b0] =>
      Ok (((byte_val b3 * 256 + byte_val b2) * 256 + byte_val b1) * 256
          + byte_val b0)
  | _ => Raise StructError
  end.

(** [bs[i]] for [0 <= i]. *)
Fixpoint index (bs : bytes) (i : Z) : result Z :=
  match bs with
  | [] => Raise IndexError
  | b :: bs' => if i =? 0 then Ok (byte_val b) else index bs' (i - 1)
  end.

(** [bs[i:j]] for [0 <= i <= j]. *)
Definition slice (bs : bytes) (i j : Z) : bytes :=
  fst (read (j - i) (snd (read i bs))).

Definition bytes_eqb (a b : bytes) : bool :=
  if list_eq_dec Byte.byte_eq_dec a b then true else false.

Definition PNG_SIGNATURE : bytes :=
  ["137"; "P"; "N"; "G"; "013"; "010"; "026"; "010"]%byte.
Definition IHDR : bytes := ["I"; "H"; "D"; "R"]%byte.
Definition IDAT : bytes := ["I"; "D"; "A"; "T"]%byte.
Definition IEND : bytes := ["I"; "E"; "N"; "D"]%byte.

(** The [IHDR] branch: width and height, or the exception it raises. *)
Definition parse_ihdr (chunk_data : bytes) : result (Z * Z) :=
  width <- unpack_u32 (slice chunk_data 0 4) ;;
  height <- unpack_u32 (slice chunk_data 4 8) ;;
  bit_depth <- index chunk_data 8 ;;
  color_type <- index chunk_data 9 ;;
  if negb (bit_depth =? 8) || negb (color_type =? 6)
  then Raise ValueError
  else Ok (width, height).

(** The four reads at the head of each turn of the loop: the chunk type,
    its data and the file after the CRC; [struct.error] when fewer than four
    bytes are left for the length. *)
Definition read_chunk (f : bytes) : result (bytes * bytes * bytes) :=
  let (len_bytes, f1) := read 4 f in
  chunk_len <- unpack_u32 len_bytes ;;
  let (chunk_type, f2) := read 4 f1 in
  let (chunk_data, f3) := read chunk_len f2 in
  let (_, f4) := read 4 f3 in
  Ok (chunk_type, chunk_data, f4).

(** The [while True] loop over the chunks.  [fuel] bounds the number of
    turns; [None] means the bound was reached. *)
Fixpoint scan_chunks (fuel : nat) (f : bytes) (width height : Z)
  (compressed : bytes) : option (result (Z * Z * bytes)) :=
  match fuel with
  | O => None
  | S fuel' =>
      match read_chunk f with
      | Raise e => Some (Raise e)
      | Ok (chunk_type, chunk_data, f') =>
          if bytes_eqb chunk_type IHDR then
            match parse_ihdr chunk_data with
            | Raise e => Some (Raise e)
            | Ok (w, h) => scan_chunks fuel' f' w h compressed
            end
          else if bytes_eqb chunk_type IDAT then
            scan_chunks fuel' f' width height (compressed ++ chunk_data)%list
          else if bytes_eqb chunk_type IEND then
            Some (Ok (width, height, compressed))
          else scan_chunks fuel' f' width height compressed
      end
  end.

(** [for i in range(n): s = body(i, s)], starting at [i = start]. *)
Fixpoint for_range {S : Type} (start : Z) (n : nat)
  (body : Z -> S -> result S) (s : S) : result S :=
  match n with
  | O => Ok s
  | S n' => s' <- body start s ;; for_range (start + 1) n' body s'
  end.

(** A pixel: the tuple of its channels. *)
Definition pixel : Type := list Z.

(** [(raw[idx], raw[idx + 1], raw[idx + 2], raw[idx + 3])] *)
Definition pixel_at (raw : bytes) (idx : Z) : result pixel :=
  r <- index raw idx ;;
  g <- index raw (idx + 1) ;;
  b <- index raw (idx + 2) ;;
  a <- index raw (idx + 3) ;;
  Ok [r; g; b; a].

(** The two nested loops that fill [pixels]. *)
Definition decode_pixels (raw : bytes) (width height : Z)
  : result (list pixel) :=
  let row_bytes := 1 + width * 4 in
  for_range 0 (Z.to_nat height)
    (fun y pixels =>
       let row_start := y * row_bytes + 1 in
       for_range 0 (Z.to_nat width)
         (fun x pixels =>
            let idx := row_start + x * 4 in
            p <- pixel_at raw idx ;;
            Ok (pixels ++ [p])%list)
         pixels)
    [].

(** [(width, height, pixels)] *)
Definition raster : Type := (Z * Z * list pixel)%type.

Section ReadPng.

(** [zlib.decompress], [None] when it raises [zlib.error]. *)
Variable zlib_decompress : bytes -> option bytes.

(** [read_png] on the content of the file at [path]. *)
Definition read_png (data : bytes) : option (result raster) :=
  let (sig, f) := read 8 data in
  if negb (bytes_eqb sig PNG_SIGNATURE) then Some (Raise ValueError)
  else
    match scan_chunks (S (List.length data)) f 0 0 [] with
    | None => None
    | Some (Raise e) => Some (Raise e)
    | Some (Ok (width, height, compressed)) =>
        match zlib_decompress compressed with
        | None => Some (Raise ZlibError)
        | Some raw =>
            Some (pixels <- decode_pixels raw width height ;;
                  Ok (width, height, pixels))
        end
    end.

End ReadPng.

(** [abs(c1 - c2) > tolerance] *)
Definition channel_differs (tolerance : Z) (cc : Z * Z) : bool :=
  Z.abs (fst cc - snd cc) >? tolerance.

(** [any(abs(c1 - c2) > tolerance for c1, c2 in zip(p1, p2))] *)
Definition pixel_differs (tolerance : Z) (pp : pixel * pixel) : bool :=
  existsb (channel_differs tolerance) (combine (fst pp) (snd pp)).

(** The counting loop over [zip(px1, px2)]. *)
Definition count_diff (tolerance : Z) (px1 px2 : list pixel) : Z :=
  fold_left (fun diff_count pp =>
               if pixel_differs tolerance pp then diff_count + 1
               else diff_count)
    (combine px1 px2) 0.

(** [100.0 * (total - diff_count) / total if total > 0 else 0.0] *)
Definition similarity_of (total diff_count : Z) : result float :=
  if total >? 0 then
    a <- float_of_int (total - diff_count) ;;
    b <- float_of_int total ;;
    Ok (PrimFloat.div (PrimFloat.mul 100%float a) b)
  else Ok 0%float.

Definition compare_images (img1 img2 : raster) (tolerance : Z)
  : result (bool * float * Z) :=
  let '(w1, h1, px1) := img1 in
  let '(w2, h2, px2) := img2 in
  if negb (w1 =? w2) || negb (h1 =? h2) then Ok (false, 0%float, w1 * h1)
  else
    let diff_count := count_diff tolerance px1 px2 in
    let total := w1 * h1 in
    similarity <- similarity_of total diff_count ;;
    Ok (diff_count =? 0, similarity, diff_count).

(** ** A decompressor for the worked examples

    [zlib_stored] inflates the zlib streams whose blocks are all stored
    (what [zlib.compress(data, 0)] writes); it reports any other stream as
    an error.  The theorems about [read_png] hold for every decompressor;
    this one only runs the examples. *)

Definition adler32 (data : bytes) : Z :=
  let ab := fold_left
              (fun ab x =>
                 let a := (fst ab + byte_val x) mod 65521 in
                 (a, (snd ab + a) mod 65521))
              data (1, 0) in
  snd ab * 65536 + fst ab.

Fixpoint stored_blocks (fuel : nat) (s out : bytes) : option (bytes * bytes) :=
  match fuel, s with
  | S fuel', hdr :: l0 :: l1 :: n0 :: n1 :: rest =>
      let len := byte_val l0 + 256 * byte_val l1 in
      let nlen := byte_val n0 + 256 * byte_val n1 in
      if (Z.land (Z.shiftr (byte_val hdr) 1) 3 =? 0) && (len + nlen =? 65535)
      then
        let (d, rest') := read len rest in
        if Z.of_nat (List.length d) =? len then
          if Z.odd (byte_val hdr) then Some ((out ++ d)%list, rest')
          else stored_blocks fuel' rest' (out ++ d)%list
        else None
      else None
  | _, _ => None
  end.

Definition zlib_stored (s : bytes) : option bytes :=
  match s with
  | cmf :: flg :: body =>
      if (Z.land (byte_val cmf) 15 =? 8) && (Z.shiftr (byte_val cmf) 4 <=? 7)
         && ((byte_val cmf * 256 + byte_val flg) mod 31 =? 0)
         && (Z.land (byte_val flg) 32 =? 0)
      then
        match stored_blocks (List.length body) body [] with
        | Some (out, a3 :: a2 :: a1 :: a0 :: _) =>
            match unpack_u32 [a3; a2; a1; a0] with
            | Ok sum => if sum =? adler32 out then Some out else None
            | Raise _ => None
            end
        | _ => None
        end
      else None
  | _ => None
  end.

(** ** Specification-side notions *)

(** Two pixels differ at tolerance [t]: at some channel position both have
    a value and the values are more than [t] apart. *)
Definition differs (t : Z) (p1 p2 : pixel) : Prop :=
  exists (i : nat) (c1 c2 : Z),
    nth_error p1 i = Some c1 /\ nth_error p2 i = Some c2
    /\ Z.abs (c1 - c2) > t.

(** A decoded raster: 32-bit dimensions and one pixel per position. *)
Definition valid_raster (img : raster) : Prop :=
  let '(w, h, px) := img in
  0 <= w < 2 ^ 32 /\ 0 <= h < 2 ^ 32 /\ Z.of_nat (List.length px) = w * h.

(** An 8-bit RGBA pixel. *)
Definition rgba8 (p : pixel) : Prop :=
  exists r g b a : Z,
    p = [r; g; b; a]
    /\ 0 <= r < 256 /\ 0 <= g < 256 /\ 0 <= b < 256 /\ 0 <= a < 256.

(** The header chunk [chunk_data] reports a bit depth other than 8 or a
    colour type other than 6. *)
Definition unsupported_header (chunk_data : bytes) : Prop :=
  exists bit_depth color_type : Z,
    index chunk_data 8 = Ok bit_depth /\ index chunk_data 9 = Ok color_type
    /\ (bit_depth <> 8 \/ color_type <> 6).

(** The chunk scan, started on [f], comes to an [IHDR] chunk with an
    unsupported header: every chunk before it is complete enough to be
    read, is not [IEND], and is not itself a header that stops the scan. *)
Inductive reaches_unsupported_header : bytes -> Prop :=
| ruh_here : forall f chunk_data f',
    read_chunk f = Ok (IHDR, chunk_data, f') ->
    unsupported_header chunk_data ->
    reaches_unsupported_header f
| ruh_after_header : forall f chunk_data f' w h,
    read_chunk f = Ok (IHDR, chunk_data, f') ->
    parse_ihdr chunk_data = Ok (w, h) ->
    reaches_unsupported_header f' ->
    reaches_unsupported_header f
| ruh_after_other : forall f chunk_type chunk_data f',
    read_chunk f = Ok (chunk_type, chunk_data, f') ->
    chunk_type <> IHDR -> chunk_type <> IEND ->
    reaches_unsupported_header f' ->
    reaches_unsupported_header f.

(** Every component of a document satisfies [P]. *)
Definition all_components (P : Component -> Prop) (d : dict Component) : Prop :=
  forall k c, In (k, c) d -> P c.

(** The line, once stripped, is a [COMPONENT] header for the name [n]. *)
Definition declares (n : string) (raw : string) : Prop :=
  exists m, re_match COMPONENT_RE (PyStr.strip raw) = Some m
            /\ group m 1 = Some n.

(** ** Inputs of the worked examples *)

Definition NL : string := String "010" EmptyString.

(** The text whose lines are [ls]. *)
Definition text (ls : list string) : string := PyStr.join NL ls.

Fixpoint repeat_char (c : ascii) (n : nat) : string :=
  match n with
  | O => EmptyString
  | S k => String c (repeat_char c k)
  end.

Definition byte_of (n : N) : byte :=
  match Byte.of_N n with
  | Some b => b
  | None => "000"%byte
  end.

(** A 2x2 RGBA image: [IHDR], the zlib stream split over two [IDAT]
    chunks, [IEND]. *)
Definition png_2x2 : bytes :=
  map byte_of [137; 80; 78; 71; 13; 10; 26; 10;
         0; 0; 0; 13; 73; 72; 68; 82; 0; 0; 0; 2; 0; 0; 0; 2; 8; 6; 0; 0; 0;
         114; 182; 13; 36;
         0; 0; 0; 7; 73; 68; 65; 84; 120; 1; 1; 18; 0; 237; 255;
         92; 47; 66; 69;
         0; 0; 0; 22; 73; 68; 65; 84; 0; 10; 20; 30; 255; 40; 50; 60; 255;
         0; 70; 80; 90; 128; 100; 110; 120; 0; 47; 96; 5; 139;
         251; 65; 121; 133;
         0; 0; 0; 0; 73; 69; 78; 68; 174; 66; 96; 130]%N.

(** Signature, an [IDAT] chunk holding the zlib stream of the empty
    string, [IEND]: pixel data with no [IHDR] before it. *)
Definition png_without_header : bytes :=
  map byte_of [137; 80; 78; 71; 13; 10; 26; 10;
         0; 0; 0; 11; 73; 68; 65; 84;
         120; 1; 1; 0; 0; 255; 255; 0; 0; 0; 1;
         137; 214; 174; 95;
         0; 0; 0; 0; 73; 69; 78; 68; 174; 66; 96; 130]%N.

(** Signature and an [IHDR] chunk of a 1x1 image that declares 16 bits per
    channel. *)
Definition png_16bit : bytes :=
  map byte_of [137; 80; 78; 71; 13; 10; 26; 10;
         0; 0; 0; 13; 73; 72; 68; 82; 0; 0; 0; 1; 0; 0; 0; 1; 16; 6; 0; 0; 0;
         0; 0; 0; 0]%N.

(** ** Notions used in the statements and proofs *)

(** The text of a block for the component [cname] with the single property
    [line]. *)
Definition block (cname line : string) : string :=
  text ["COMPONENT " ++ cname ++ " {"; "    " ++ line; "}"].

(** The texts a pattern can consume. *)
Fixpoint lang (r : regex) (p : string) : Prop :=
  match r with
  | Lit l => p = l
  | Plus k => nonempty p = true /\ PyStr.all_chars (in_cls k) p = true
  | Star k => PyStr.all_chars (in_cls k) p = true
  | Seq r1 r2 => exists p1 p2, p = p1 ++ p2 /\ lang r1 p1 /\ lang r2 p2
  | Alt r1 r2 => lang r1 p \/ lang r2 p
  | Opt r1 => p = "" \/ lang r1 p
  | Group _ r1 => lang r1 p
  end.

(** Every capture of the list has an index and a text that [Q] accepts and
    is at most [n] characters long. *)
Definition caps_ok (Q : nat -> string -> Prop) (n : nat) (caps : captures)
  : Prop :=
  forall i v, In (i, v) caps -> Q i v /\ (String.length v <= n)%nat.

(** Whatever a group of [r] consumes, [Q] accepts under the group's index. *)
Fixpoint groups_ok (Q : nat -> string -> Prop) (r : regex) : Prop :=
  match r with
  | Lit _ | Plus _ | Star _ => True
  | Seq r1 r2 | Alt r1 r2 => groups_ok Q r1 /\ groups_ok Q r2
  | Opt r1 => groups_ok Q r1
  | Group i r1 => groups_ok Q r1 /\ forall p, lang r1 p -> Q i p
  end.

(** Group [i] takes part in every match of [r]. *)
Fixpoint binds (i : nat) (r : regex) : bool :=
  match r with
  | Lit _ | Plus _ | Star _ | Opt _ => false
  | Seq r1 r2 => binds i r1 || binds i r2
  | Alt r1 r2 => binds i r1 && binds i r2
  | Group j r1 => Nat.eqb i j || binds i r1
  end.

Definition is_decimal (v : string) : Prop := exists f, float_of_str v = Ok f.

(** What the groups of a number pattern hold. *)
Definition number_groups (i : nat) (v : string) : Prop :=
  (i = 1%nat /\ is_decimal v) \/ (i = 2%nat /\ is_digits v = true).

Definition is_exact (attr : string) : bool :=
  String.eqb attr "height_exact" || String.eqb attr "size_exact".

(** An entry of the property table whose conversion cannot fail on what
    its pattern captures. *)
Definition good_entry (e : regex * string * conv) : Prop :=
  match e with
  | (p, attr, conv_str) => is_exact attr = false
  | (p, attr, conv_float) => groups_ok number_groups p /\ binds 1 p = true
  end.

(** A line that, stripped, is neither the closing brace nor one of the two
    statements that are read before the skip test. *)
Definition skippable (raw : string) : Prop :=
  PyStr.strip raw <> "}"
  /\ re_match COMPONENT_RE (PyStr.strip raw) = None
  /\ re_match GRID_UNIT_RE (PyStr.strip raw) = None.

(** The block [COMPONENT x { height MIN <v> }], one statement per line. *)
Definition block_x (v : string) : list string :=
  ["COMPONENT x {"; "height MIN " ++ v; "}"].

(** [x] as the block with [height MIN 20] alone leaves it. *)
Definition x_with_min_20 : Component :=
  setattr_float (new_Component "x") "height_min" 20%float.

(** Number of entries of the document under the key [k]. *)
Definition entries_named (k : string) (d : dict Component) : nat :=
  List.length (filter (fun kv => String.eqb (fst kv) k) d).

(** The entry of a sub-table passes for [comp]: the attribute is set and
    within the threshold of the expected value. *)
Definition passes (comp : Component) (e : string * (string * Z)) : bool :=
  match getattr comp (fst e) with
  | Some val =>
      match near val (snd (snd e)) with
      | Ok b => b
      | Raise _ => false
      end
  | None => false
  end.

Definition item_of (cname : string) (e : string * (string * Z)) : check_item :=
  mkCheck cname (fst e) (fst (snd e)) (snd (snd e)).

(** The comparison cannot raise on the entries of [mapping]. *)
Definition mapping_ok (mapping : dict (string * Z)) : Prop :=
  forall attr const expected comp val,
    In (attr, (const, expected)) mapping ->
    getattr comp attr = Some val -> exists b, near val expected = Ok b.

(** The attributes of [Component] that do not hold a [float]. *)
Definition non_float_attr (attr : string) : bool :=
  String.eqb attr "name" || String.eqb attr "height_tolerance"
  || String.eqb attr "size_tolerance"
  || String.eqb attr "corner_radius_token".

Definition entry_ok (e : string * (string * Z)) : bool :=
  negb (non_float_attr (fst e)) && (Z.abs (snd (snd e)) <? 2 ^ 64).

(** The pixels of the rows [0 .. y-1] of [raw], in row-major order. *)
Definition rows_decoded (raw : bytes) (w y : Z) (px : list pixel) : Prop :=
  Z.of_nat (List.length px) = y * w
  /\ Forall rgba8 px
  /\ forall y' x',
       0 <= y' < y -> 0 <= x' < w ->
       exists p,
         pixel_at raw (y' * (1 + w * 4) + 1 + x' * 4) = Ok p
         /\ nth_error px (Z.to_nat (y' * w + x')) = Some p.

(** One row appended to [px0]: the pixels [0 .. x-1] of the row that
    starts at [row_start]. *)
Definition row_decoded (raw : bytes) (row_start : Z) (px0 : list pixel)
  (x : Z) (px : list pixel) : Prop :=
  exists row,
    px = (px0 ++ row)%list /\ Z.of_nat (List.length row) = x
    /\ Forall rgba8 row
    /\ forall x',
         0 <= x' < x ->
         exists p,
           pixel_at raw (row_start + x' * 4) = Ok p
           /\ nth_error row (Z.to_nat x') = Some p.

(** ** Notions used in the further properties of the parser *)

(** The lines of [content] the parser acts on: stripped, neither blank nor
    a comment. *)
Definition significant_lines (content : string) : list string :=
  filter (fun l => nonempty l && negb (PyStr.startswith l "#"))
    (map PyStr.strip (PyStr.split_lines content)).

(** The name a line declares when, once stripped, it is a [COMPONENT]
    header. *)
Definition declared_name (raw : string) : option string :=
  match re_match COMPONENT_RE (PyStr.strip raw) with
  | Some m => group m 1
  | None => None
  end.

Definition declared_names (lines : list string) : list string :=
  flat_map (fun l => match declared_name l with
                     | Some n => [n]
                     | None => []
                     end) lines.

(** [ks] with [n] added at the end unless it is there already. *)
Definition add_name (ks : list string) (n : string) : list string :=
  if existsb (String.eqb n) ks then ks else (ks ++ [n])%list.

(** The names of [ns], each once, in the order of their first occurrence. *)
Definition first_occurrences (ns : list string) : list string :=
  fold_left add_name ns [].

(** The line, once stripped, is no [GLOBAL grid_unit] statement. *)
Definition no_grid_unit (raw : string) : Prop :=
  re_match GRID_UNIT_RE (PyStr.strip raw) = None.

(** ** Notions used in the further properties of the checks *)

(** The fields of a component that [SPEC_CONST_MAP] names. *)
Definition checked_fields (c : Component) :=
  (height_min c, height_exact c, size_exact c, corner_radius c,
   track_height c, track_width c, icon_size c).

(** Two entries of a document under the same key whose components agree on
    the checked fields. *)
Definition same_checked (a b : string * Component) : Prop :=
  fst a = fst b /\ checked_fields (snd a) = checked_fields (snd b).

(** The checks [SPEC_CONST_MAP] could give rise to, one per entry of a
    sub-table. *)
Definition table_items : list check_item :=
  flat_map (fun km => map (item_of (fst km)) (snd km)) SPEC_CONST_MAP.

(** The attribute names of [SPEC_CONST_MAP] that are fields of
    [Component]. *)
Definition CHECKED_ATTRS : list string :=
  ["height_min"; "height_exact"; "size_exact"; "corner_radius";
   "track_height"; "track_width"; "icon_size"].

Definition no_newline (s : string) : bool :=
  PyStr.all_chars (fun c => negb (Ascii.eqb c "010")) s.

(** ** Notions used in the further properties of the PNG reader *)

(** [struct.pack(">I", n)] for [0 <= n < 2^32]. *)
Definition pack_u32 (n : Z) : bytes :=
  [byte_of (Z.to_N (n / 16777216)); byte_of (Z.to_N (n / 65536 mod 256));
   byte_of (Z.to_N (n / 256 mod 256)); byte_of (Z.to_N (n mod 256))].

(** A chunk as it stands in a file: its type, its data and its four CRC
    bytes; the length field is that of the data. *)
Definition chunk : Type := (bytes * bytes * bytes)%type.

Definition chunk_bytes (c : chunk) : bytes :=
  let '(ty, data, crc) := c in
  (pack_u32 (Z.of_nat (List.length data)) ++ ty ++ data ++ crc)%list.

Definition well_formed (c : chunk) : Prop :=
  let '(ty, data, crc) := c in
  List.length ty = 4%nat /\ List.length crc = 4%nat
  /\ Z.of_nat (List.length data) < 2 ^ 32.

(** The file made of the signature and the chunks [cs]. *)
Definition png_file (cs : list chunk) : bytes :=
  (PNG_SIGNATURE ++ List.concat (map chunk_bytes cs))%list.

(** How the chunk loop leaves a list of chunks: stopped, by [IEND] or by an
    exception, or still running at the end of the list. *)
Inductive scan_end : Type :=
| Stopped (r : result (Z * Z * bytes))
| Running (width height : Z) (compressed : bytes).

(** The chunk loop of [read_png] on the types and data of a list of
    chunks. *)
Fixpoint scan_list (cs : list (bytes * bytes)) (width height : Z)
  (compressed : bytes) : scan_end :=
  match cs with
  | [] => Running width height compressed
  | (chunk_type, chunk_data) :: cs' =>
      if bytes_eqb chunk_type IHDR then
        match parse_ihdr chunk_data with
        | Raise e => Stopped (Raise e)
        | Ok (w, h) => scan_list cs' w h compressed
        end
      else if bytes_eqb chunk_type IDAT then
        scan_list cs' width height (compressed ++ chunk_data)%list
      else if bytes_eqb chunk_type IEND then
        Stopped (Ok (width, height, compressed))
      else scan_list cs' width height compressed
  end.

(** What [read_png] returns once the chunk loop has ended; running off the
    end of the file is the [struct.error] of the next length field. *)
Definition after_scan (zlib_decompress : bytes -> option bytes)
  (s : scan_end) : result raster :=
  match s with
  | Stopped (Raise e) => Raise e
  | Stopped (Ok (width, height, compressed)) =>
      match zlib_decompress compressed with
      | None => Raise ZlibError
      | Some raw =>
          pixels <- decode_pixels raw width height ;;
          Ok (width, height, pixels)
      end
  | Running _ _ _ => Raise StructError
  end.

(** The bytes of an 8-bit RGBA raster before compression: per row a filter
    byte, then four bytes per pixel. *)
Definition pixel_bytes (p : pixel) : bytes :=
  map (fun c => byte_of (Z.to_N c)) p.

Fixpoint raw_rows (width : nat) (filters : list byte) (px : list pixel)
  : bytes :=
  match filters with
  | [] => []
  | f :: filters' =>
      (f :: List.concat (map pixel_bytes (firstn width px))
         ++ raw_rows width filters' (skipn width px))%list
  end.

(** The data of the [IHDR] chunk of an 8-bit RGBA image. *)
Definition ihdr_data (width height : Z) : bytes :=
  (pack_u32 width ++ pack_u32 height
     ++ map byte_of [8; 6; 0; 0; 0]%N)%list.

(** ** Text and numbers: the further [str] methods and [int] of the harness *)

Module PyText.

(** [sub in s] *)
Fixpoint contains (s sub : string) : bool :=
  PyStr.startswith s sub
  || match s with
     | EmptyString => false
     | String _ s' => contains s' sub
     end.

(** [s.split(sep)] for a one-character [sep]: never empty, one more piece
    than there are separators. *)
Fixpoint split_on (sep : ascii) (s : string) : list string :=
  match s with
  | EmptyString => [EmptyString]
  | String c s' =>
      if Ascii.eqb c sep then EmptyString :: split_on sep s'
      else match split_on sep s' with
           | l :: ls => String c l :: ls
           | [] => [String c EmptyString]
           end
  end.

(** [s.split(sep, 1)]: cut at the first separator only. *)
Fixpoint split_once (sep : ascii) (s : string) : list string :=
  match s with
  | EmptyString => [EmptyString]
  | String c s' =>
      if Ascii.eqb c sep then [EmptyString; s']
      else match split_once sep s' with
           | l :: ls => String c l :: ls
           | [] => [String c EmptyString]
           end
  end.

(** [s.split()]: the maximal runs of characters that are not white space. *)
Fixpoint words (s : string) : list string :=
  match s with
  | EmptyString => []
  | String c s' =>
      if PyStr.is_space c then words s'
      else match s' with
           | EmptyString => [String c EmptyString]
           | String c' _ =>
               if PyStr.is_space c' then String c EmptyString :: words s'
               else match words s' with
                    | w :: ws => String c w :: ws
                    | [] => [String c EmptyString]
                    end
           end
  end.

(** The white space [int] skips at both ends of a [str], on U+0000..U+00FF:
    TAB..CR, SPACE, NEL, NBSP.  (The separators FS..US, which [str.strip]
    removes, are not skipped by [int].) *)
Definition is_int_space (c : ascii) : bool :=
  let n := PyStr.code c in
  ((9 <=? n) && (n <=? 13) || (n =? 32) || (n =? 133) || (n =? 160))%N.

Fixpoint lstrip_by (p : ascii -> bool) (s : string) : string :=
  match s with
  | EmptyString => EmptyString
  | String c s' => if p c then lstrip_by p s' else s
  end.

Fixpoint rstrip_by (p : ascii -> bool) (s : string) : string :=
  match s with
  | EmptyString => EmptyString
  | String c s' =>
      match rstrip_by p s' with
      | EmptyString => if p c then EmptyString else String c EmptyString
      | r => String c r
      end
  end.

(** The digits of a decimal literal, single underscores allowed between
    digits: the value and the number of digits, [None] when the text is
    not of that shape.  [after_digit] tells that the previous character was
    a digit. *)
Fixpoint int_digits (s : string) (after_digit : bool) (acc : Z) (n : nat)
  : option (Z * nat) :=
  match s with
  | EmptyString => if after_digit then Some (acc, n) else None
  | String c s' =>
      if PyStr.is_digit c
      then int_digits s' true (10 * acc + digit_val c) (S n)
      else if Ascii.eqb c "_"
           then if after_digit then int_digits s' false acc n else None
           else None
  end.

(** [int(s)] for any [str]: padding, an optional sign, decimal digits with
    optional single underscores; [ValueError] for anything else and for
    more than [int_max_str_digits] digits. *)
Definition int_of_text (s : string) : result Z :=
  let t := rstrip_by is_int_space (lstrip_by is_int_space s) in
  let '(negative, body) :=
    match t with
    | String "+" r => (false, r)
    | String "-" r => (true, r)
    | _ => (false, t)
    end in
  match int_digits body false 0 0 with
  | Some (v, n) =>
      if (int_max_str_digits <? n)%nat then Raise ValueError
      else Ok (if negative then - v else v)
  | None => Raise ValueError
  end.

End PyText.

(** ** Reading the output of the test programs *)

(** [for x in xs: s = step(s, x)]; an exception ends the loop. *)
Fixpoint for_each {St A : Type} (step : St -> A -> result St) (s : St)
  (xs : list A) : result St :=
  match xs with
  | [] => Ok s
  | x :: xs' => s' <- step s x ;; for_each step s' xs'
  end.

(** [k in d] *)
Definition has_key {V : Type} (d : dict V) (k : string) : bool :=
  match dict_get d k with
  | Some _ => true
  | None => false
  end.

(** [xs[1]] *)
Definition item_1 (xs : list string) : result string :=
  match xs with
  | _ :: x :: _ => Ok x
  | _ => Raise IndexError
  end.

(** [dict] display of integer counts. *)
Definition int_items (info : dict Z) : dict pyval :=
  map (fun kv => (fst kv, PyInt (snd kv))) info.

(** [{"error": msg, **info}] *)
Definition error_with (msg : string) (info : dict Z) : dict pyval :=
  fold_left (fun d kv => dict_set d (fst kv) (PyInt (snd kv))) info
    [("error", PyStr msg)].

(** *** [run_test]: from the output of the test program to the verdict *)

(** [info = {"frames": 0, "box": 0, "passed": 0}] *)
Definition INFO_0 : dict Z := [("frames", 0); ("box", 0); ("passed", 0)].

(** [info[k]] for a key of [INFO_0]: the keys of [info] stay those of
    [INFO_0], so the lookup never fails. *)
Definition info_at (info : dict Z) (k : string) : Z :=
  match dict_get info k with
  | Some v => v
  | None => 0
  end.

(** One turn of the loop over [out.stdout.split("\n")]; the second
    component collects what [print] writes. *)
Definition scan_test_line (verbose : bool) (st : dict Z * list string)
  (line : string) : result (dict Z * list string) :=
  let (info, printed) := st in
  info' <-
    (if PyText.contains line ":" then
       match PyText.split_once ":" line with
       | [k; v] =>
           if has_key info k then
             match PyText.int_of_text (PyStr.strip v) with
             | Ok n => Ok (dict_set info k n)
             | Raise ValueError => Ok info      (* except ValueError: pass *)
             | Raise e => Raise e
             end
           else Ok info
       | _ => Raise ValueError                  (* k, v = ... *)
       end
     else Ok info) ;;
  Ok (info',
      if verbose && nonempty (PyStr.strip line)
      then (printed ++ [("    " ++ line)%string])%list
      else printed).

(** The end of [run_test], once the test program has run: its output, its
    exit status and [tc.min_box_calls] give the verdict, the [dict] and the
    lines printed. *)
Definition run_test_result (verbose : bool) (min_box_calls : Z)
  (stdout : string) (returncode : Z)
  : result (bool * dict pyval * list string) :=
  st <- for_each (scan_test_line verbose) (INFO_0, [])
          (PyStr.split_lines stdout) ;;
  let (info, printed) := st in
  if negb (returncode =? 0)
  then Ok (false, error_with "validation failed" info, printed)
  else if info_at info "box" <? min_box_calls
  then Ok (false,
           error_with ("box calls " ++ str_of_int (info_at info "box")
                         ++ " < " ++ str_of_int min_box_calls) info,
           printed)
  else Ok (info_at info "passed" =? 1, int_items info, printed).

(** *** [run_md3_tests]: counting the checks *)

Definition scan_md3_line (verbose : bool) (st : Z * Z * list string)
  (line : string) : result (Z * Z * list string) :=
  let '(ok_count, fail_count, printed) := st in
  if PyStr.startswith line "OK:" then
    Ok (ok_count + 1, fail_count,
        if verbose then (printed ++ [("  " ++ line)%string])%list else printed)
  else if PyStr.startswith line "FAIL:" then
    Ok (ok_count, fail_count + 1, (printed ++ [("  " ++ line)%string])%list)
  else if PyStr.startswith line "violations:" then
    field <- item_1 (PyText.split_on ":" line) ;;
    n <- PyText.int_of_text field ;;
    Ok (ok_count, n, printed)
  else Ok st.

(** The end of [run_md3_tests], from the output of the test program. *)
Definition md3_tests_result (verbose : bool) (stdout : string)
  : result (bool * dict pyval * list string) :=
  st <- for_each (scan_md3_line verbose) (0, 0, [])
          (PyStr.split_lines stdout) ;;
  let '(ok_count, fail_count, printed) := st in
  Ok (fail_count =? 0, [("ok", PyInt ok_count); ("fail", PyInt fail_count)],
      printed).

(** *** [run_md3_runtime_tests]: tracked widgets and violations *)

Definition scan_runtime_line (verbose : bool)
  (st : Z * Z * list string * list string) (line : string)
  : result (Z * Z * list string * list string) :=
  let '(tracked, violations, violation_lines, printed) := st in
  let printed' :=
    if verbose && nonempty (PyStr.strip line)
    then (printed ++ [("  " ++ line)%string])%list
    else printed in
  if PyStr.startswith line "tracked:" then
    field <- item_1 (PyText.split_on ":" line) ;;
    n <- PyText.int_of_text field ;;
    Ok (n, violations, violation_lines, printed')
  else if PyStr.startswith line "violations:" then
    field <- item_1 (PyText.split_on ":" line) ;;
    n <- PyText.int_of_text field ;;
    Ok (tracked, n, violation_lines, printed')
  else if PyText.contains line "VIOLATION:" then
    Ok (tracked, violations, (violation_lines ++ [PyStr.strip line])%list,
        printed')
  else Ok (tracked, violations, violation_lines, printed').

(** The end of [run_md3_runtime_tests], from the output of the test
    program. *)
Definition md3_runtime_result (verbose : bool) (stdout : string)
  : result (bool * dict pyval * list string) :=
  st <- for_each (scan_runtime_line verbose) (0, 0, [], [])
          (PyStr.split_lines stdout) ;;
  let '(tracked, violations, violation_lines, printed) := st in
  Ok (true,
      [("tracked", PyInt tracked); ("violations", PyInt violations)],
      if (violations >? 0)
         && negb (Nat.eqb (List.length violation_lines) 0)
      then (printed ++ map (fun v => ("    " ++ v)%string) violation_lines)%list
      else printed).

(** *** [run_shm_test]: the self-test report *)

(** [s.strip().split()[0]] *)
Definition first_word (s : string) : result string :=
  match PyText.words (PyStr.strip s) with
  | w :: _ => Ok w
  | [] => Raise IndexError
  end.

Definition scan_shm_line (tests : list (string * bool)) (line : string)
  : result (list (string * bool)) :=
  if PyStr.startswith line "PASS:" then
    name <- first_word (PyStr.drop 5 line) ;;
    Ok (tests ++ [(name, true)])%list
  else if PyStr.startswith line "FAIL:" then
    name <- first_word (PyStr.drop 5 line) ;;
    Ok (tests ++ [(name, false)])%list
  else Ok tests.

(** The [dict] [run_shm_test] returns with its verdict. *)
Inductive shm_info : Type :=
| ShmCounts (passed total : Z) (tests : list (string * bool))
| ShmError (error : string).

(** The end of [run_shm_test], from the decoded output and the exit status
    of the self-test program; the [IndexError] of a report line without a
    name is caught by [except Exception]. *)
Definition shm_test_result (stdout : string) (returncode : Z)
  : bool * shm_info :=
  match for_each scan_shm_line [] (PyStr.split_lines stdout) with
  | Ok tests =>
      let passed_count := Z.of_nat (List.length (filter snd tests)) in
      let total := Z.of_nat (List.length tests) in
      ((returncode =? 0) && (passed_count =? total),
       ShmCounts passed_count total tests)
  | Raise _ => (false, ShmError "Test error: list index out of range")
  end.

(** *** [run_visual_test]: comparing a screenshot with its golden image *)

(** The [dict] of the comparison; a failure carries the exception whose
    text the message quotes. *)
Inductive visual_info : Type :=
| Compared (similarity : float) (diff_pixels : Z)
| CompareFailed (e : exn).

Section VisualTest.

Variable zlib_decompress : bytes -> option bytes.

(** The [try] block of [run_visual_test] ([verbose] off) on the contents of
    the two files: every exception of the readers and of the comparison is
    caught and becomes a failed test. *)
Definition compare_files (current golden : bytes) (tolerance : Z)
  : option (bool * visual_info) :=
  match read_png zlib_decompress current with
  | None => None
  | Some (Raise e) => Some (false, CompareFailed e)
  | Some (Ok cur) =>
      match read_png zlib_decompress golden with
      | None => None
      | Some (Raise e) => Some (false, CompareFailed e)
      | Some (Ok gold) =>
          match compare_images cur gold tolerance with
          | Ok (m, similarity, diff_count) =>
              Some (m, Compared similarity diff_count)
          | Raise e => Some (false, CompareFailed e)
          end
      end
  end.

End VisualTest.

(** ** Notions used in the properties of the output readers *)

(** The counts of [run_test] under the three keys of [INFO_0], in their
    order. *)
Definition info_shape (info : dict Z) : Prop :=
  exists a b c, info = [("frames", a); ("box", b); ("passed", c)].

(** The line reports the integer [n] for the key [k]: it reads [k:v] with
    [int(v.strip()) == n]. *)
Definition reports (k : string) (n : Z) (line : string) : Prop :=
  exists v,
    PyText.split_once ":" line = [k; v]
    /\ PyText.int_of_text (PyStr.strip v) = Ok n.

Definition silent_on (k : string) (line : string) : Prop :=
  forall n, ~ reports k n line.

(** The second [:]-separated field of the line is an integer literal. *)
Definition count_field_ok (line : string) : bool :=
  match item_1 (PyText.split_on ":" line) with
  | Ok field =>
      match PyText.int_of_text field with
      | Ok _ => true
      | Raise _ => false
      end
  | Raise _ => false
  end.

(** The integer of the second field, [0] when there is none. *)
Definition count_field_value (line : string) : Z :=
  match item_1 (PyText.split_on ":" line) with
  | Ok field =>
      match PyText.int_of_text field with
      | Ok n => n
      | Raise _ => 0
      end
  | Raise _ => 0
  end.

(** A [PASS:] or [FAIL:] line with nothing but white space after the
    colon. *)
Definition nameless (line : string) : bool :=
  (PyStr.startswith line "PASS:" || PyStr.startswith line "FAIL:")
  && match PyText.words (PyStr.strip (PyStr.drop 5 line)) with
     | [] => true
     | _ :: _ => false
     end.

(** ** Notions used in the statements on skip blocks *)

(** The stripped line opens a skip block: [GLOBAL], white space, one of the
    three block kinds, white space or none, an opening brace, and then
    anything. *)
Definition skip_opener (line : string) : Prop :=
  exists sp kw sp' rest,
    line = "GLOBAL" ++ sp ++ kw ++ sp' ++ "{" ++ rest
    /\ nonempty sp = true /\ PyStr.all_chars PyStr.is_space sp = true
    /\ (kw = "state_layer" \/ kw = "shape" \/ kw = "typography")
    /\ PyStr.all_chars PyStr.is_space sp' = true.

(** ** Notions used in the statements on the lines a component takes *)

(** The line [l] of [lines] is read as a property line of the component
    [k] as the parsed document has it: when the loop comes to [l] the
    current component is [k] and no skip block is open, and no later line
    declares [k] again. *)
Definition applied_to (k : string) (lines : list string) (l : string)
  : Prop :=
  exists pre post st,
    lines = (pre ++ l :: post)%list
    /\ parse_lines initial_state pre = Ok st
    /\ current_component st = Some k /\ in_skip st = false
    /\ Forall (fun l' => ~ declares k l') post.

(** The line matches the [<w> EXACT] pattern with its tolerance group. *)
Definition has_tolerance (w line : string) : bool :=
  match re_match (exact_with_tolerance w) line with
  | Some m => match group m 2 with Some _ => true | None => false end
  | None => false
  end.

Definition matches (r : regex) (line : string) : bool :=
  match re_match r line with Some _ => true | None => false end.

(** The group numbers a match of [r] can close, most recent first. *)
Fixpoint group_seqs (r : regex) : list (list nat) :=
  match r with
  | Lit _ | Plus _ | Star _ => [[]]
  | Seq r1 r2 =>
      flat_map (fun a => map (fun b => (b ++ a)%list) (group_seqs r2))
        (group_seqs r1)
  | Alt r1 r2 => (group_seqs r1 ++ group_seqs r2)%list
  | Opt r1 => (group_seqs r1 ++ [[]])%list
  | Group i r1 => map (cons i) (group_seqs r1)
  end.

(** The stripped line gets as far as the loop over [COMPONENT_PROPS] when a
    component is open outside a skip block. *)
Definition property_line (line : string) : Prop :=
  negb (nonempty line) || PyStr.startswith line "#" = false
  /\ re_match COMPONENT_RE line = None
  /\ re_match GRID_UNIT_RE line = None
  /\ re_match SKIP_BLOCK_RE line = None
  /\ String.eqb line "}" = false.

(** ** Notions used in the statement on the pixels of a raster *)

(** The data of the [IDAT] chunks of [cs], concatenated in file order. *)
Definition idat_data (cs : list chunk) : bytes :=
  List.concat
    (map (fun c => snd (fst c))
       (filter (fun c => bytes_eqb (fst (fst c)) IDAT) cs)).

(** * Properties *)

(** ** Basic facts *)

Lemma bind_ok {A B : Type} (r : result A) (k : A -> result B) (b : B) :
  bind r k = Ok b -> exists a, r = Ok a /\ k a = Ok b.
Proof.
  destruct r as [a|e]; simpl; intros H; [eauto | discriminate].
Qed.

Lemma bind_raise {A B : Type} (r : result A) (k : A -> result B) (e : exn) :
  bind r k = Raise e ->
  r = Raise e \/ exists a, r = Ok a /\ k a = Raise e.
Proof.
  destruct r as [a|e']; simpl; intros H; [right; eauto | left; congruence].
Qed.

(** *** Dictionaries *)

Lemma dict_get_set_same {V : Type} (d : dict V) (k : string) (v : V) :
  dict_get (dict_set d k v) k = Some v.
Proof.
  induction d as [|[k' v'] d IH]; simpl.
  - rewrite String.eqb_refl. reflexivity.
  - destruct (String.eqb k' k) eqn:E; simpl.
    + rewrite String.eqb_refl. reflexivity.
    + rewrite E. exact IH.
Qed.

Lemma dict_get_set_other {V : Type} (d : dict V) (k k0 : string) (v : V) :
  k0 <> k -> dict_get (dict_set d k v) k0 = dict_get d k0.
Proof.
  intros Hne. induction d as [|[k' v'] d IH]; simpl.
  - destruct (String.eqb k k0) eqn:E; [|reflexivity].
    apply String.eqb_eq in E. congruence.
  - destruct (String.eqb k' k) eqn:E; simpl.
    + apply String.eqb_eq in E. subst k'.
      destruct (String.eqb k k0) eqn:E0; [|reflexivity].
      apply String.eqb_eq in E0. congruence.
    + destruct (String.eqb k' k0); [reflexivity | exact IH].
Qed.

Lemma dict_set_in {V : Type} (d : dict V) (k k0 : string) (v v0 : V) :
  In (k0, v0) (dict_set d k v) -> (k0 = k /\ v0 = v) \/ In (k0, v0) d.
Proof.
  induction d as [|[k' v'] d IH]; simpl.
  - intros [H|[]]. inversion H. auto.
  - destruct (String.eqb k' k) eqn:E; simpl.
    + intros [H|H]; [inversion H; auto | auto].
    + intros [H|H]; [auto | destruct (IH H); auto].
Qed.

Lemma dict_keys_set {V : Type} (d : dict V) (k : string) (v : V) :
  dict_keys (dict_set d k v) = dict_keys d
  \/ (~ In k (dict_keys d) /\ dict_keys (dict_set d k v) = (dict_keys d ++ [k])%list).
Proof.
  induction d as [|[k' v'] d IH]; simpl.
  - right. split; [tauto | reflexivity].
  - destruct (String.eqb k' k) eqn:E; simpl.
    + apply String.eqb_eq in E. subst. left. reflexivity.
    + destruct IH as [IH|[Hn IH]].
      * left. unfold dict_keys in *. simpl. now rewrite IH.
      * right. split.
        -- intros [H|H]; [subst; rewrite String.eqb_refl in E; discriminate | tauto].
        -- unfold dict_keys in *. simpl. now rewrite IH.
Qed.

Lemma dict_set_nodup {V : Type} (d : dict V) (k : string) (v : V) :
  NoDup (dict_keys d) -> NoDup (dict_keys (dict_set d k v)).
Proof.
  intros Hnd. destruct (dict_keys_set d k v) as [H|[Hn H]]; rewrite H.
  - exact Hnd.
  - apply NoDup_app; [exact Hnd | constructor; [simpl; tauto | constructor] | ].
    intros x Hx [Hk|[]]. subst. tauto.
Qed.

Lemma dict_get_in {V : Type} (d : dict V) (k : string) (v : V) :
  dict_get d k = Some v -> In (k, v) d.
Proof.
  induction d as [|[k' v'] d IH]; simpl; [discriminate|].
  destruct (String.eqb k' k) eqn:E.
  - apply String.eqb_eq in E. intros H. inversion H. subst. auto.
  - auto.
Qed.

Lemma dict_in_get {V : Type} (d : dict V) (k : string) (v : V) :
  NoDup (dict_keys d) -> In (k, v) d -> dict_get d k = Some v.
Proof.
  induction d as [|[k' v'] d IH]; simpl; [tauto|].
  intros Hnd [H|H].
  - inversion H. subst. now rewrite String.eqb_refl.
  - inversion Hnd as [|? ? Hn Hnd']. subst.
    destruct (String.eqb k' k) eqn:E.
    + apply String.eqb_eq in E. subst. exfalso. apply Hn.
      change (In (fst (k, v)) (map fst d)). now apply in_map.
    + now apply IH.
Qed.

(** ** The parser on concrete documents *)

(** C1, evaluated: a tolerance of 4301 digits makes [int] raise, and
    [parse_dsl] lets the [ValueError] out instead of returning a document. *)
Theorem parse_dsl_raises_on_long_tolerance :
  parse_dsl
    (block "x" ("height EXACT 1 " ++ PLUS_MINUS ++ repeat_char "1" 4301))
  = Raise ValueError.
Proof. vm_compute. reflexivity. Qed.

(** With one digit fewer the same document parses. *)
Lemma parse_dsl_accepts_4300_digits :
  exists spec,
    parse_dsl
      (block "x" ("height EXACT 1 " ++ PLUS_MINUS ++ repeat_char "1" 4300))
    = Ok spec.
Proof. eexists. vm_compute. reflexivity. Qed.

(** C6, counterexample: a block with a numeric and a token corner radius has
    both fields populated. *)
Lemma corner_radius_both_populated :
  exists c,
    parse_dsl
      (text ["COMPONENT x {"; "corner_radius 12";
             "corner_radius @shape.full"; "}"])
    = Ok (mkSpec [("x", c)] 4%float)
    /\ corner_radius c = Some 12%float
    /\ corner_radius_token c = Some "full".
Proof. eexists. vm_compute. repeat split. Qed.

(** C9, counterexample: the two blocks of the claim followed by a third
    declaration of [x]; the document has no [height_min] for [x]. *)
Lemma third_declaration_wins :
  exists c,
    parse_dsl
      (text ["COMPONENT x {"; "height MIN 10"; "}";
             "COMPONENT x {"; "height MIN 20"; "}";
             "COMPONENT x {"; "}"])
    = Ok (mkSpec [("x", c)] 4%float)
    /\ height_min c = None.
Proof. eexists. vm_compute. split; reflexivity. Qed.

(** The second block read inside a skip block that was left open: the
    header declares [x], the property line is skipped. *)
Lemma second_block_in_skip_mode :
  parse_dsl
    (text ["COMPONENT x {"; "height MIN 10"; "}";
           "GLOBAL shape {";
           "COMPONENT x {"; "height MIN 20"; "}"])
  = Ok (mkSpec [("x", new_Component "x")] 4%float).
Proof. vm_compute. reflexivity. Qed.

(** ** The PNG reader on concrete files *)

Example read_png_2x2 :
  read_png zlib_stored png_2x2
  = Some (Ok (2, 2, [[10; 20; 30; 255]; [40; 50; 60; 255];
                     [70; 80; 90; 128]; [100; 110; 120; 0]])).
Proof. vm_compute. reflexivity. Qed.

Example read_png_16bit :
  read_png zlib_stored png_16bit = Some (Raise ValueError).
Proof. vm_compute. reflexivity. Qed.

(** C5, counterexample: pixel data with no header before it is decoded,
    as the empty 0x0 image, instead of being refused. *)
Lemma missing_header_not_refused :
  fst (read 8 png_without_header) = PNG_SIGNATURE
  /\ (exists chunk_data f',
        read_chunk (snd (read 8 png_without_header))
        = Ok (IDAT, chunk_data, f'))
  /\ read_png zlib_stored png_without_header = Some (Ok (0, 0, [])).
Proof.
  split; [reflexivity|]. split; [|vm_compute; reflexivity].
  eexists. eexists. vm_compute. reflexivity.
Qed.

(** C10: on the eight signature bytes alone the first chunk-length read is
    short and [struct.unpack] raises [struct.error], which is neither the
    [ValueError] of the reader nor a raster, whatever the decompressor. *)
Theorem read_png_signature_only :
  forall zlib_decompress : bytes -> option bytes,
    read_png zlib_decompress PNG_SIGNATURE = Some (Raise StructError)
    /\ read_png zlib_decompress PNG_SIGNATURE <> Some (Raise ValueError)
    /\ (forall img, read_png zlib_decompress PNG_SIGNATURE <> Some (Ok img)).
Proof.
  intros dec. split; [reflexivity|]. split; [discriminate|].
  intros img. discriminate.
Qed.

(** ** Strings *)

Lemma app_assoc_s (a b c : string) : (a ++ b) ++ c = a ++ (b ++ c).
Proof. induction a; simpl; [reflexivity | now rewrite IHa]. Qed.

Lemma app_nil_r_s (a : string) : a ++ "" = a.
Proof. induction a; simpl; [reflexivity | now rewrite IHa]. Qed.

Lemma length_app_s (a b : string) :
  String.length (a ++ b) = (String.length a + String.length b)%nat.
Proof. induction a; simpl; [reflexivity | now rewrite IHa]. Qed.

Lemma take_drop (n : nat) (s : string) : PyStr.take n s ++ PyStr.drop n s = s.
Proof.
  revert s. induction n as [|n IH]; intros [|c s]; simpl; try reflexivity.
  now rewrite IH.
Qed.

Lemma take_app_exact (pre s' : string) :
  PyStr.take (String.length (pre ++ s') - String.length s') (pre ++ s') = pre.
Proof.
  rewrite length_app_s.
  replace (String.length pre + String.length s' - String.length s')%nat
    with (String.length pre) by lia.
  induction pre as [|c pre IH]; simpl.
  - destruct s'; reflexivity.
  - now rewrite IH.
Qed.

Lemma strip_prefix_some (p s r : string) :
  PyStr.strip_prefix p s = Some r -> s = p ++ r.
Proof.
  revert s. induction p as [|a p IH]; intros s; simpl.
  - intros H. now inversion H.
  - destruct s as [|b s]; [discriminate|].
    destruct (Ascii.eqb a b) eqn:E; [|discriminate].
    apply Ascii.eqb_eq in E. subst b. intros H. now rewrite (IH _ H).
Qed.

Lemma span_take (P : ascii -> bool) (n : nat) (s : string) :
  (n <= span P s)%nat -> PyStr.all_chars P (PyStr.take n s) = true.
Proof.
  revert s. induction n as [|n IH]; intros s Hn; [reflexivity|].
  destruct s as [|c s]; simpl in *; [reflexivity|].
  destruct (P c); [|lia]. simpl. apply IH. lia.
Qed.

Lemma countdown_in (k lo n : nat) :
  In n (countdown k lo) <-> (lo <= n < k + lo)%nat.
Proof.
  induction k as [|k IH]; simpl; [lia|].
  rewrite IH. lia.
Qed.

(** ** Regular expressions: what a match consumes and captures *)

Lemma run_sound (r : regex) :
  forall caps s caps' s',
    In (caps', s') (run r caps s) ->
    exists pre, s = pre ++ s' /\ lang r pre.
Proof.
  induction r as [l|k|k|r1 IH1 r2 IH2|r1 IH1 r2 IH2|r1 IH1|i r1 IH1];
    intros caps s caps' s' Hin; cbn [run] in Hin.
  - destruct (PyStr.strip_prefix l s) as [s1|] eqn:E; [|contradiction].
    destruct Hin as [H|[]]. inversion H. subst.
    exists l. split; [now apply strip_prefix_some | reflexivity].
  - apply in_map_iff in Hin. destruct Hin as [n [H Hn]].
    inversion H. subst. apply countdown_in in Hn.
    exists (PyStr.take n s). split; [now rewrite take_drop|].
    simpl. split.
    + destruct s as [|c s]; simpl in Hn; [lia|].
      destruct n; [lia | reflexivity].
    + apply span_take. lia.
  - apply in_map_iff in Hin. destruct Hin as [n [H Hn]].
    inversion H. subst. apply countdown_in in Hn.
    exists (PyStr.take n s). split; [now rewrite take_drop|].
    simpl. apply span_take. lia.
  - apply in_flat_map in Hin. destruct Hin as [[c1 s1] [H1 H2]].
    simpl in H2.
    destruct (IH1 _ _ _ _ H1) as [p1 [E1 L1]].
    destruct (IH2 _ _ _ _ H2) as [p2 [E2 L2]].
    exists (p1 ++ p2). split.
    + rewrite app_assoc_s. now rewrite <- E2.
    + simpl. eauto.
  - apply in_app_or in Hin. destruct Hin as [H|H].
    + destruct (IH1 _ _ _ _ H) as [p [E L]]. exists p. simpl. auto.
    + destruct (IH2 _ _ _ _ H) as [p [E L]]. exists p. simpl. auto.
  - apply in_app_or in Hin. destruct Hin as [H|[H|[]]].
    + destruct (IH1 _ _ _ _ H) as [p [E L]]. exists p. simpl. auto.
    + inversion H. subst. exists "". simpl. auto.
  - apply in_map_iff in Hin. destruct Hin as [[c1 s1] [H H1]].
    simpl in H. inversion H. subst.
    destruct (IH1 _ _ _ _ H1) as [p [E L]]. exists p. simpl. auto.
Qed.

Lemma run_caps_ok (Q : nat -> string -> Prop) (n : nat) (r : regex) :
  groups_ok Q r ->
  forall caps s caps' s',
    (String.length s <= n)%nat -> caps_ok Q n caps ->
    In (caps', s') (run r caps s) ->
    caps_ok Q n caps' /\ (String.length s' <= n)%nat.
Proof.
  induction r as [l|k|k|r1 IH1 r2 IH2|r1 IH1 r2 IH2|r1 IH1|i r1 IH1];
    intros G caps s caps' s' Hlen Hok Hin;
    pose proof (run_sound _ _ _ _ _ Hin) as [pre [Es Lpre]];
    assert (Hs' : (String.length s' <= n)%nat)
      by (rewrite Es, length_app_s in Hlen; lia);
    (split; [|exact Hs']); cbn [run] in Hin.
  - destruct (PyStr.strip_prefix l s); [|contradiction].
    destruct Hin as [H|[]]. now inversion H; subst.
  - apply in_map_iff in Hin. destruct Hin as [m [H _]]. now inversion H; subst.
  - apply in_map_iff in Hin. destruct Hin as [m [H _]]. now inversion H; subst.
  - apply in_flat_map in Hin. destruct Hin as [[c1 s1] [H1 H2]].
    simpl in H2. destruct G as [G1 G2].
    destruct (IH1 G1 _ _ _ _ Hlen Hok H1) as [Hok1 Hl1].
    exact (proj1 (IH2 G2 _ _ _ _ Hl1 Hok1 H2)).
  - destruct G as [G1 G2]. apply in_app_or in Hin. destruct Hin as [H|H].
    + exact (proj1 (IH1 G1 _ _ _ _ Hlen Hok H)).
    + exact (proj1 (IH2 G2 _ _ _ _ Hlen Hok H)).
  - apply in_app_or in Hin. destruct Hin as [H|[H|[]]].
    + exact (proj1 (IH1 G _ _ _ _ Hlen Hok H)).
    + now inversion H; subst.
  - apply in_map_iff in Hin. destruct Hin as [[c1 s1] [H H1]].
    simpl in H. inversion H. subst. destruct G as [G1 GQ].
    destruct (IH1 G1 _ _ _ _ Hlen Hok H1) as [Hok1 _].
    intros j v [Hj|Hj].
    + inversion Hj. subst j v. rewrite take_app_exact.
      split; [apply GQ; exact Lpre|].
      rewrite length_app_s in Hlen. lia.
    + now apply Hok1.
Qed.

(** Captures are only added in front. *)
Lemma run_extends (r : regex) :
  forall caps s caps' s',
    In (caps', s') (run r caps s) -> exists new, caps' = (new ++ caps)%list.
Proof.
  induction r as [l|k|k|r1 IH1 r2 IH2|r1 IH1 r2 IH2|r1 IH1|i r1 IH1];
    intros caps s caps' s' Hin; cbn [run] in Hin.
  - destruct (PyStr.strip_prefix l s); [|contradiction].
    destruct Hin as [H|[]]. inversion H. now exists [].
  - apply in_map_iff in Hin. destruct Hin as [m [H _]]. inversion H. now exists [].
  - apply in_map_iff in Hin. destruct Hin as [m [H _]]. inversion H. now exists [].
  - apply in_flat_map in Hin. destruct Hin as [[c1 s1] [H1 H2]]. simpl in H2.
    destruct (IH1 _ _ _ _ H1) as [n1 E1]. destruct (IH2 _ _ _ _ H2) as [n2 E2].
    exists (n2 ++ n1)%list. subst. now rewrite app_assoc.
  - apply in_app_or in Hin. destruct Hin as [H|H]; eauto.
  - apply in_app_or in Hin. destruct Hin as [H|[H|[]]]; eauto.
    inversion H. now exists [].
  - apply in_map_iff in Hin. destruct Hin as [[c1 s1] [H H1]].
    simpl in H. inversion H. subst.
    destruct (IH1 _ _ _ _ H1) as [n1 E1]. exists ((i, PyStr.take (String.length s - String.length s') s) :: n1).
    subst. reflexivity.
Qed.

Lemma group_app_bound (new caps : captures) (i : nat) :
  group caps i <> None -> group (new ++ caps)%list i <> None.
Proof.
  induction new as [|[j v] new IH]; simpl; [auto|].
  destruct (Nat.eqb i j); [discriminate | auto].
Qed.

Lemma group_in (caps : captures) (i : nat) (v : string) :
  group caps i = Some v -> In (i, v) caps.
Proof.
  induction caps as [|[j w] caps IH]; simpl; [discriminate|].
  destruct (Nat.eqb i j) eqn:E.
  - apply Nat.eqb_eq in E. subst. intros H. inversion H. auto.
  - auto.
Qed.

Lemma run_binds (i : nat) (r : regex) :
  binds i r = true ->
  forall caps s caps' s',
    In (caps', s') (run r caps s) -> group caps' i <> None.
Proof.
  induction r as [l|k|k|r1 IH1 r2 IH2|r1 IH1 r2 IH2|r1 IH1|j r1 IH1];
    cbn [binds run]; intros Hb caps s caps' s' Hin; try discriminate.
  - apply in_flat_map in Hin. destruct Hin as [[c1 s1] [H1 H2]]. simpl in H2.
    apply orb_true_iff in Hb. destruct Hb as [Hb|Hb].
    + destruct (run_extends _ _ _ _ _ H2) as [new E]. subst.
      apply group_app_bound. eapply IH1; eauto.
    + eapply IH2; eauto.
  - apply andb_true_iff in Hb. destruct Hb as [Hb1 Hb2].
    apply in_app_or in Hin. destruct Hin as [H|H]; eauto.
  - apply in_map_iff in Hin. destruct Hin as [[c1 s1] [H H1]].
    simpl in H. inversion H. subst. simpl.
    destruct (Nat.eqb i j) eqn:E; [discriminate|].
    simpl in Hb. eapply IH1; eauto.
Qed.

(** The match object of a pattern whose groups are [Q]-sound. *)
Lemma re_match_caps_ok (Q : nat -> string -> Prop) (r : regex) (s : string)
  (m : captures) :
  groups_ok Q r -> re_match r s = Some m -> caps_ok Q (String.length s) m.
Proof.
  unfold re_match. intros G H.
  destruct (run r [] s) as [|[c1 s1] rest] eqn:E; [discriminate|].
  simpl in H. injection H as Hm. subst m.
  refine (proj1 (run_caps_ok Q _ r G [] s c1 s1 (le_n _) _ _)).
  - intros i v [].
  - rewrite E. now left.
Qed.

Lemma re_match_binds (i : nat) (r : regex) (s : string) (m : captures) :
  binds i r = true -> re_match r s = Some m -> exists v, group m i = Some v.
Proof.
  unfold re_match. intros Hb H.
  destruct (run r [] s) as [|[c1 s1] rest] eqn:E; [discriminate|].
  simpl in H. injection H as Hm. subst m.
  assert (Hg : group c1 i <> None).
  { eapply run_binds; eauto. rewrite E. now left. }
  destruct (group c1 i); [eauto | congruence].
Qed.

(** ** The numbers the patterns capture *)

Lemma split_dot_digits (a rest : string) :
  PyStr.all_chars PyStr.is_digit a = true ->
  split_dot (a ++ rest)
  = (a ++ fst (split_dot rest), snd (split_dot rest)).
Proof.
  induction a as [|c a IH]; simpl; intros H.
  - now destruct (split_dot rest).
  - apply andb_true_iff in H. destruct H as [Hc Ha].
    destruct (Ascii.eqb c ".") eqn:E.
    + apply Ascii.eqb_eq in E. subst c. discriminate.
    + rewrite (IH Ha). reflexivity.
Qed.

Lemma lang_number_decimal (p : string) : lang NUMBER p -> is_decimal p.
Proof.
  simpl. intros [p1 [p2 [E [[N1 D1] H2]]]]. subst p.
  unfold is_decimal, float_of_str.
  rewrite (split_dot_digits _ _ D1).
  destruct H2 as [H2|[q1 [q2 [E2 [Eq [N2 D2]]]]]].
  - subst p2. simpl. rewrite app_nil_r_s. unfold is_digits.
    rewrite N1, D1. simpl. eauto.
  - subst p2 q1. simpl. rewrite app_nil_r_s. rewrite D1, D2, N1.
    simpl. eauto.
Qed.

Lemma lang_digits (p : string) : lang (Plus Digit) p -> is_digits p = true.
Proof.
  simpl. intros [N D]. unfold is_digits. now rewrite N, D.
Qed.

Lemma int_of_str_digits (v : string) :
  is_digits v = true -> (String.length v <= int_max_str_digits)%nat ->
  exists z, int_of_str v = Ok z.
Proof.
  intros D L. unfold int_of_str. rewrite D.
  destruct (Nat.ltb_spec int_max_str_digits (String.length v)); [lia | eauto].
Qed.

Lemma groups_ok_keyword_number (kw : string) :
  groups_ok number_groups (keyword_number kw).
Proof.
  simpl. repeat split. intros p L. left. split; [reflexivity|].
  now apply lang_number_decimal.
Qed.

Lemma groups_ok_height_min : groups_ok number_groups HEIGHT_MIN_RE.
Proof.
  simpl. repeat split. intros p L. left. split; [reflexivity|].
  now apply lang_number_decimal.
Qed.

Lemma groups_ok_grid_unit : groups_ok number_groups GRID_UNIT_RE.
Proof.
  simpl. repeat split. intros p L. left. split; [reflexivity|].
  now apply lang_number_decimal.
Qed.

Lemma groups_ok_exact (w : string) :
  groups_ok number_groups (exact_with_tolerance w).
Proof.
  simpl. repeat split.
  - intros p L. left. split; [reflexivity|]. now apply lang_number_decimal.
  - intros p L. right. split; [reflexivity|]. now apply lang_digits.
Qed.

(** Group 1 of a number pattern converts with [float]. *)
Lemma number_group_1 (r : regex) (line : string) (m : captures) :
  groups_ok number_groups r -> binds 1 r = true ->
  re_match r line = Some m ->
  exists v f, group m 1 = Some v /\ float_of_str v = Ok f.
Proof.
  intros G Bd Hm.
  destruct (re_match_binds 1 r line m Bd Hm) as [v Hv].
  destruct (re_match_caps_ok _ _ _ _ G Hm 1%nat v (group_in _ _ _ Hv))
    as [[[_ [f Hf]]|[Habs _]] _]; [eauto | discriminate].
Qed.

(** The tolerance group of an [_exact] pattern: when [lastindex] is 2 or
    more, group 2 holds digits, no more of them than the line has
    characters. *)
Lemma exact_group_2 (r : regex) (line : string) (m : captures) :
  groups_ok number_groups r -> binds 1 r = true ->
  re_match r line = Some m ->
  exists li, lastindex m = Some li
    /\ ((2 <=? li)%nat = true ->
        exists t, group m 2 = Some t /\ is_digits t = true
                  /\ (String.length t <= String.length line)%nat).
Proof.
  intros G Bd Hm.
  destruct (re_match_binds 1 r line m Bd Hm) as [v Hv].
  pose proof (re_match_caps_ok _ _ _ _ G Hm) as Hok.
  destruct m as [|[li t] m']; [discriminate|].
  exists li. split; [reflexivity|]. intros Hli.
  apply Nat.leb_le in Hli.
  destruct (Hok li t (or_introl eq_refl)) as [[[E _]|[E D]] L]; [lia|].
  subst li. exists t. simpl. auto.
Qed.

(** ** The parser returns on documents with lines of ordinary length *)

Lemma COMPONENT_PROPS_good : Forall good_entry COMPONENT_PROPS.
Proof.
  unfold COMPONENT_PROPS.
  repeat (apply Forall_cons || apply Forall_nil);
    try (split; [first [ apply groups_ok_height_min
                       | apply groups_ok_exact
                       | apply groups_ok_keyword_number ]
                | reflexivity ]).
  reflexivity.
Qed.

Lemma apply_match_total (c : Component) (p : regex) (attr : string)
  (cv : conv) (line : string) (m : captures) :
  good_entry (p, attr, cv) ->
  re_match p line = Some m ->
  (String.length line <= int_max_str_digits)%nat ->
  exists c', apply_match c attr cv m = Ok c'.
Proof.
  intros Hg Hm Hlen. unfold apply_match. fold (is_exact attr).
  destruct cv; simpl in Hg.
  - destruct Hg as [G Bd].
    destruct (number_group_1 _ _ _ G Bd Hm) as [v [f [Hv Hf]]].
    unfold py_float. rewrite Hv, Hf. cbn [bind].
    destruct (is_exact attr); [|eauto].
    destruct (exact_group_2 _ _ _ G Bd Hm) as [li [Hli H2]].
    rewrite Hli. destruct (2 <=? li)%nat; [|eauto].
    destruct (H2 eq_refl) as [t [Ht [Dt Lt]]]. rewrite Ht.
    destruct (int_of_str_digits t Dt) as [z Hz]; [lia|].
    unfold py_int_or_0. destruct t as [|a t]; [discriminate|].
    rewrite Hz. cbn [bind]. eauto.
  - simpl. rewrite Hg. eauto.
Qed.

Lemma apply_props_total (props : list (regex * string * conv))
  (c : Component) (line : string) :
  Forall good_entry props ->
  (String.length line <= int_max_str_digits)%nat ->
  exists c', apply_props props c line = Ok c'.
Proof.
  intros Hg Hlen. induction Hg as [|[[p attr] cv] props Hp Hg IH]; simpl.
  - eauto.
  - destruct (re_match p line) as [m|] eqn:Hm; [|exact IH].
    eapply apply_match_total; eauto.
Qed.

Lemma length_lstrip (s : string) :
  (String.length (PyStr.lstrip s) <= String.length s)%nat.
Proof.
  induction s as [|c s IH]; simpl; [lia|].
  destruct (PyStr.is_space c); simpl; lia.
Qed.

Lemma length_rstrip (s : string) :
  (String.length (PyStr.rstrip s) <= String.length s)%nat.
Proof.
  induction s as [|c s IH]; simpl; [lia|].
  destruct (PyStr.rstrip s); [destruct (PyStr.is_space c)|]; simpl in *; lia.
Qed.

Lemma length_strip (s : string) :
  (String.length (PyStr.strip s) <= String.length s)%nat.
Proof.
  unfold PyStr.strip.
  pose proof (length_rstrip (PyStr.lstrip s)). pose proof (length_lstrip s).
  lia.
Qed.

Lemma parse_line_total (st : pstate) (raw : string) :
  (String.length raw <= int_max_str_digits)%nat ->
  exists st', parse_line st raw = Ok st'.
Proof.
  intros Hlen. pose proof (length_strip raw) as Hs.
  unfold parse_line.
  destruct (negb (nonempty (PyStr.strip raw))
            || PyStr.startswith (PyStr.strip raw) "#"); [eauto|].
  destruct (re_match COMPONENT_RE (PyStr.strip raw)) as [m|] eqn:Hc.
  { destruct (re_match_binds 1 COMPONENT_RE _ _ eq_refl Hc) as [n Hn].
    rewrite Hn. eauto. }
  destruct (re_match GRID_UNIT_RE (PyStr.strip raw)) as [m|] eqn:Hg.
  { destruct (number_group_1 GRID_UNIT_RE _ _ groups_ok_grid_unit eq_refl Hg)
      as [v [f [Hv Hf]]].
    unfold py_float. rewrite Hv, Hf. cbn [bind]. eauto. }
  destruct (re_match SKIP_BLOCK_RE (PyStr.strip raw)); [eauto|].
  destruct (String.eqb (PyStr.strip raw) "}").
  { destruct (block_open st); eauto. }
  destruct (in_skip st); [eauto|].
  destruct (current_component st) as [key|]; [|eauto].
  destruct (dict_get (components (st_spec st)) key) as [c|]; [|eauto].
  destruct (apply_props_total COMPONENT_PROPS c (PyStr.strip raw)
              COMPONENT_PROPS_good) as [c' Hc']; [lia|].
  rewrite Hc'. simpl. eauto.
Qed.

Lemma parse_lines_total (lines : list string) :
  forall st,
    Forall (fun l => (String.length l <= int_max_str_digits)%nat) lines ->
    exists st', parse_lines st lines = Ok st'.
Proof.
  induction lines as [|l ls IH]; intros st H; simpl; [eauto|].
  inversion H as [|? ? Hl Hls]. subst.
  destruct (parse_line_total st l Hl) as [st1 H1]. rewrite H1. simpl.
  now apply IH.
Qed.

(** The parser is total on every document none of whose lines is longer
    than the digit limit of [int]: such a document cannot hold a tolerance
    of more than 4300 digits, the one thing that makes [parse_dsl] raise. *)
Lemma parse_dsl_total_on_short_lines (content : string) :
  Forall (fun l => (String.length l <= int_max_str_digits)%nat)
    (PyStr.split_lines content) ->
  exists spec, parse_dsl content = Ok spec.
Proof.
  intros H. unfold parse_dsl.
  destruct (parse_lines_total _ initial_state H) as [st Hst].
  rewrite Hst. simpl. eauto.
Qed.

(** ** One property line at a time *)

Lemma apply_match_inv (c : Component) (attr : string) (cv : conv)
  (m : captures) (c' : Component) :
  apply_match c attr cv m = Ok c' ->
  exists c1,
    (c1 = setattr_str c attr (py_str (group m 1))
     \/ exists v, py_float (group m 1) = Ok v /\ c1 = setattr_float c attr v)
    /\ (c' = c1
        \/ exists t, is_exact attr = true
                     /\ py_int_or_0 (group m 2) = Ok t
                     /\ c' = setattr_int c1
                               (PyStr.replace attr "_exact" "_tolerance") t).
Proof.
  unfold apply_match. fold (is_exact attr). intros H.
  apply bind_ok in H. destruct H as [c1 [H1 H2]]. exists c1. split.
  - destruct cv.
    + apply bind_ok in H1. destruct H1 as [v [Hv H1]].
      injection H1 as H1. right. eauto.
    + injection H1 as H1. left. auto.
  - destruct (is_exact attr) eqn:Ex.
    + destruct (lastindex m) as [li|]; [|discriminate].
      destruct (2 <=? li)%nat.
      * apply bind_ok in H2. destruct H2 as [t [Ht H2]].
        injection H2 as H2. right. eauto.
      * injection H2 as H2. left. auto.
    + injection H2 as H2. left. auto.
Qed.

Lemma apply_match_corner_radius (c : Component) (attr : string) (cv : conv)
  (m : captures) (c' : Component) :
  String.eqb attr "corner_radius" = false ->
  apply_match c attr cv m = Ok c' -> corner_radius c' = corner_radius c.
Proof.
  intros Hne H. apply apply_match_inv in H.
  destruct H as [c1 [[H1|[v [_ H1]]] [H2|[t [_ [_ H2]]]]]]; subst;
    simpl; rewrite ?Hne; reflexivity.
Qed.

Lemma apply_match_corner_radius_token (c : Component) (attr : string)
  (cv : conv) (m : captures) (c' : Component) :
  String.eqb attr "corner_radius_token" = false ->
  apply_match c attr cv m = Ok c' ->
  corner_radius_token c' = corner_radius_token c.
Proof.
  intros Hne H. apply apply_match_inv in H.
  destruct H as [c1 [[H1|[v [_ H1]]] [H2|[t [_ [_ H2]]]]]]; subst;
    simpl; rewrite ?Hne; reflexivity.
Qed.

(** The loop returns the component unchanged or what [apply_match] makes
    of it for one entry of the table whose pattern matched. *)
Lemma apply_props_inv (props : list (regex * string * conv))
  (c : Component) (line : string) (c' : Component) :
  apply_props props c line = Ok c' ->
  c' = c
  \/ exists p attr cv m,
       In (p, attr, cv) props /\ re_match p line = Some m
       /\ apply_match c attr cv m = Ok c'.
Proof.
  induction props as [|[[p attr] cv] props IH]; simpl; intros H.
  - injection H as H. auto.
  - destruct (re_match p line) as [m|] eqn:Hm.
    + right. exists p, attr, cv, m. auto.
    + destruct (IH H) as [E|[p0 [a0 [cv0 [m0 [Hin H0]]]]]]; [auto|].
      right. exists p0, a0, cv0, m0. auto.
Qed.

Ltac table_cases Hin :=
  unfold COMPONENT_PROPS in Hin; simpl in Hin;
  repeat (destruct Hin as [Hin|Hin]; [injection Hin as ? ? ?; subst|]);
  [..|contradiction].

Lemma apply_props_corner_radius (c : Component) (line : string)
  (c' : Component) :
  re_match CORNER_RADIUS_RE line = None ->
  apply_props COMPONENT_PROPS c line = Ok c' ->
  corner_radius c' = corner_radius c.
Proof.
  intros Hno H. apply apply_props_inv in H.
  destruct H as [E|[p [attr [cv [m [Hin [Hm H]]]]]]]; [now subst|].
  table_cases Hin;
    try (eapply apply_match_corner_radius; [|exact H]; reflexivity).
  assert (E : re_match CORNER_RADIUS_RE line = Some m) by exact Hm.
  congruence.
Qed.

Lemma apply_props_corner_radius_token (c : Component) (line : string)
  (c' : Component) :
  re_match CORNER_TOKEN_RE line = None ->
  apply_props COMPONENT_PROPS c line = Ok c' ->
  corner_radius_token c' = corner_radius_token c.
Proof.
  intros Hno H. apply apply_props_inv in H.
  destruct H as [E|[p [attr [cv [m [Hin [Hm H]]]]]]]; [now subst|].
  table_cases Hin;
    try (eapply apply_match_corner_radius_token; [|exact H]; reflexivity).
  assert (E : re_match CORNER_TOKEN_RE line = Some m) by exact Hm.
  congruence.
Qed.

(** A property line changes at most one of the two corner radius fields. *)
Lemma apply_props_one_corner_field (c : Component) (line : string)
  (c' : Component) :
  apply_props COMPONENT_PROPS c line = Ok c' ->
  corner_radius c' = corner_radius c
  \/ corner_radius_token c' = corner_radius_token c.
Proof.
  intros H. apply apply_props_inv in H.
  destruct H as [E|[p [attr [cv [m [Hin [Hm H]]]]]]]; [subst; auto|].
  table_cases Hin;
    first [ left; eapply apply_match_corner_radius; [|exact H]; reflexivity
          | right; eapply apply_match_corner_radius_token; [|exact H];
            reflexivity ].
Qed.

(** ** One line at a time *)

(** What a turn of the loop can do to the state. *)
Lemma parse_line_cases (st : pstate) (raw : string) (st' : pstate) :
  parse_line st raw = Ok st' ->
  (components (st_spec st') = components (st_spec st)
   /\ (current_component st' = current_component st
       \/ current_component st' = None))
  \/ (exists n,
        declares n raw
        /\ st' = mkState
                   (mkSpec (dict_set (components (st_spec st)) n
                              (new_Component n))
                      (grid_unit (st_spec st)))
                   (Some n) (current_block st))
  \/ (exists key c c',
        current_component st = Some key /\ in_skip st = false
        /\ dict_get (components (st_spec st)) key = Some c
        /\ apply_props COMPONENT_PROPS c (PyStr.strip raw) = Ok c'
        /\ st' = with_components st
                   (dict_set (components (st_spec st)) key c')).
Proof.
  unfold parse_line. intros H.
  destruct (negb (nonempty (PyStr.strip raw))
            || PyStr.startswith (PyStr.strip raw) "#").
  { injection H as H. subst. auto. }
  destruct (re_match COMPONENT_RE (PyStr.strip raw)) as [m|] eqn:Hc.
  { destruct (group m 1) as [n|] eqn:Hn; [|discriminate].
    injection H as H. right. left. exists n. split; [|now subst].
    exists m. auto. }
  destruct (re_match GRID_UNIT_RE (PyStr.strip raw)) as [m|].
  { apply bind_ok in H. destruct H as [g [_ H]]. injection H as H.
    subst. auto. }
  destruct (re_match SKIP_BLOCK_RE (PyStr.strip raw)).
  { injection H as H. subst. auto. }
  destruct (String.eqb (PyStr.strip raw) "}").
  { destruct (block_open st); injection H as H; subst; auto. }
  destruct (in_skip st) eqn:Hskip.
  { injection H as H. subst. auto. }
  destruct (current_component st) as [key|] eqn:Hcur.
  2:{ injection H as H. subst. auto. }
  destruct (dict_get (components (st_spec st)) key) as [c|] eqn:Hget.
  2:{ injection H as H. subst. auto. }
  apply bind_ok in H. destruct H as [c' [Hc' H]]. injection H as H.
  right. right. exists key, c, c'. subst. auto.
Qed.

Lemma parse_lines_app (a b : list string) :
  forall st st',
    parse_lines st (a ++ b) = Ok st' ->
    exists st1, parse_lines st a = Ok st1 /\ parse_lines st1 b = Ok st'.
Proof.
  induction a as [|l a IH]; simpl; intros st st' H.
  - eauto.
  - apply bind_ok in H. destruct H as [st0 [H0 H]].
    destruct (IH _ _ H) as [st1 [H1 H2]].
    exists st1. rewrite H0. simpl. auto.
Qed.

Lemma parse_lines_app_ok (a b : list string) :
  forall st st1 st',
    parse_lines st a = Ok st1 -> parse_lines st1 b = Ok st' ->
    parse_lines st (a ++ b) = Ok st'.
Proof.
  induction a as [|l a IH]; simpl; intros st st1 st' Ha Hb.
  - injection Ha as Ha. now subst.
  - apply bind_ok in Ha. destruct Ha as [st0 [H0 Ha]].
    rewrite H0. simpl. eauto.
Qed.

(** A property of all components that declarations establish and property
    lines, on the lines at hand, preserve. *)
Lemma parse_lines_all_components (P : Component -> Prop)
  (ok_line : string -> Prop) :
  (forall n, P (new_Component n)) ->
  (forall c line c',
      ok_line line -> P c ->
      apply_props COMPONENT_PROPS c (PyStr.strip line) = Ok c' -> P c') ->
  forall lines st st',
    Forall ok_line lines ->
    all_components P (components (st_spec st)) ->
    parse_lines st lines = Ok st' ->
    all_components P (components (st_spec st')).
Proof.
  intros Hnew Hstep lines.
  induction lines as [|l ls IH]; simpl; intros st st' Hok Hall H.
  - injection H as H. now subst.
  - inversion Hok as [|? ? Hl Hls]. subst.
    apply bind_ok in H. destruct H as [st1 [H1 H]].
    apply (IH st1 st' Hls); [|exact H].
    destruct (parse_line_cases _ _ _ H1)
      as [[E _]|[[n [_ E]]|[key [c [c' [_ [_ [Hget [Hc' E]]]]]]]]].
    + now rewrite E.
    + subst st1. simpl. intros k c Hin.
      destruct (dict_set_in _ _ _ _ _ Hin) as [[_ Ec]|Hin']; [now subst|].
      eapply Hall; eauto.
    + subst st1. simpl. intros k c0 Hin.
      destruct (dict_set_in _ _ _ _ _ Hin) as [[_ Ec]|Hin'].
      * subst c0. apply (Hstep c l c' Hl); [|exact Hc'].
        apply (Hall key). apply dict_get_in. exact Hget.
      * eapply Hall; eauto.
Qed.

(** The keys of the document stay distinct. *)
Lemma parse_lines_nodup (lines : list string) :
  forall st st',
    NoDup (dict_keys (components (st_spec st))) ->
    parse_lines st lines = Ok st' ->
    NoDup (dict_keys (components (st_spec st'))).
Proof.
  induction lines as [|l ls IH]; simpl; intros st st' Hnd H.
  - injection H as H. now subst.
  - apply bind_ok in H. destruct H as [st1 [H1 H]].
    apply (IH st1 st'); [|exact H].
    destruct (parse_line_cases _ _ _ H1)
      as [[E _]|[[n [_ E]]|[key [c [c' [_ [_ [_ [_ E]]]]]]]]].
    + now rewrite E.
    + subst st1. simpl. now apply dict_set_nodup.
    + subst st1. simpl. now apply dict_set_nodup.
Qed.

(** ** Skip blocks *)

Lemma in_skip_block (st : pstate) :
  in_skip st = true -> current_block st = Some "skip".
Proof.
  unfold in_skip. destruct (current_block st) as [b|]; [|discriminate].
  intros H. apply String.eqb_eq in H. now subst.
Qed.

Lemma parse_line_skipped (st : pstate) (raw : string) :
  in_skip st = true -> skippable raw -> parse_line st raw = Ok st.
Proof.
  intros Hskip [Hbrace [Hc Hg]]. unfold parse_line.
  destruct (negb (nonempty (PyStr.strip raw))
            || PyStr.startswith (PyStr.strip raw) "#"); [reflexivity|].
  rewrite Hc, Hg.
  destruct (re_match SKIP_BLOCK_RE (PyStr.strip raw)).
  - rewrite <- (in_skip_block st Hskip). now destruct st.
  - destruct (String.eqb_spec (PyStr.strip raw) "}"); [contradiction|].
    now rewrite Hskip.
Qed.

Lemma parse_line_closing_brace (st : pstate) (raw : string) :
  PyStr.strip raw = "}" ->
  parse_line st raw
  = Ok (if block_open st
        then mkState (st_spec st) (current_component st) None
        else mkState (st_spec st) None (current_block st)).
Proof.
  intros H. unfold parse_line. rewrite H.
  change (re_match COMPONENT_RE "}") with (@None captures).
  change (re_match GRID_UNIT_RE "}") with (@None captures).
  change (re_match SKIP_BLOCK_RE "}") with (@None captures).
  simpl. now destruct (block_open st).
Qed.

Lemma parse_lines_skipped (body : list string) :
  forall st,
    in_skip st = true -> Forall skippable body ->
    parse_lines st body = Ok st.
Proof.
  induction body as [|l ls IH]; intros st Hskip Hall; simpl; [reflexivity|].
  inversion Hall as [|? ? Hl Hls]. subst.
  rewrite (parse_line_skipped st l Hskip Hl). simpl. now apply IH.
Qed.

(** ** Redeclaration *)

Lemma entries_named_absent (k : string) (d : dict Component) :
  ~ In k (dict_keys d) -> entries_named k d = 0%nat.
Proof.
  unfold entries_named. induction d as [|[k' v'] d IH]; simpl; intros H.
  - reflexivity.
  - destruct (String.eqb_spec k' k); [subst; tauto|]. apply IH. tauto.
Qed.

Lemma entries_named_one (k : string) (d : dict Component) (v : Component) :
  NoDup (dict_keys d) -> dict_get d k = Some v -> entries_named k d = 1%nat.
Proof.
  unfold entries_named.
  induction d as [|[k' v'] d IH]; simpl; intros Hnd H; [discriminate|].
  inversion Hnd as [|? ? Hn Hnd']. subst.
  destruct (String.eqb_spec k' k).
  - subst. simpl. f_equal. now apply entries_named_absent.
  - now apply IH.
Qed.

(** The second block, read outside a skip block. *)
Lemma parse_block_x_20 (st : pstate) :
  current_block st = None ->
  parse_lines st (block_x "20")
  = Ok (mkState
          (mkSpec (dict_set (dict_set (components (st_spec st)) "x"
                               (new_Component "x")) "x" x_with_min_20)
             (grid_unit (st_spec st)))
          None None).
Proof.
  intros Hb. unfold block_x. cbn [parse_lines append].
  unfold parse_line at 1.
  change (PyStr.strip "COMPONENT x {") with "COMPONENT x {".
  change (re_match COMPONENT_RE "COMPONENT x {")
    with (Some [(1%nat, "x")]).
  cbn [bind negb nonempty PyStr.startswith PyStr.strip_prefix orb group
       Nat.eqb Ascii.eqb Bool.eqb].
  unfold parse_line at 1.
  change (PyStr.strip "height MIN 20") with "height MIN 20".
  change (re_match COMPONENT_RE "height MIN 20") with (@None captures).
  change (re_match GRID_UNIT_RE "height MIN 20") with (@None captures).
  change (re_match SKIP_BLOCK_RE "height MIN 20") with (@None captures).
  unfold in_skip at 1. cbn [current_block current_component st_spec
                            components grid_unit].
  rewrite Hb. rewrite dict_get_set_same.
  change (apply_props COMPONENT_PROPS (new_Component "x") "height MIN 20")
    with (Ok x_with_min_20).
  cbn [bind negb nonempty PyStr.startswith PyStr.strip_prefix orb
       Ascii.eqb Bool.eqb String.eqb].
  rewrite (parse_line_closing_brace _ "}" eq_refl).
  unfold block_open, with_components.
  cbn [current_block current_component st_spec components grid_unit bind].
  reflexivity.
Qed.

(** After the block, lines that do not declare [x] leave its entry alone. *)
Lemma parse_lines_keep_x (c : Component) (post : list string) :
  forall st st',
    Forall (fun l => ~ declares "x" l) post ->
    dict_get (components (st_spec st)) "x" = Some c ->
    current_component st <> Some "x" ->
    parse_lines st post = Ok st' ->
    dict_get (components (st_spec st')) "x" = Some c.
Proof.
  induction post as [|l ls IH]; simpl; intros st st' Hpost Hx Hcur H.
  - injection H as H. now subst.
  - inversion Hpost as [|? ? Hl Hls]. subst.
    apply bind_ok in H. destruct H as [st1 [H1 H]].
    destruct (parse_line_cases _ _ _ H1)
      as [[E Ec]|[[n [Hd E]]|[key [c0 [c' [Hk [_ [_ [_ E]]]]]]]]].
    + apply (IH st1 st' Hls); [now rewrite E| |exact H].
      destruct Ec as [Ec|Ec]; rewrite Ec; [exact Hcur | discriminate].
    + assert (Hn : "x" <> n) by (intros Heq; subst n; exact (Hl Hd)).
      subst st1. refine (IH _ st' Hls _ _ H); simpl.
      * now rewrite dict_get_set_other.
      * intros Heq. injection Heq as Heq. congruence.
    + assert (Hn : "x" <> key) by (intros Heq; subst key; congruence).
      subst st1. refine (IH _ st' Hls _ _ H); simpl.
      * now rewrite dict_get_set_other.
      * exact Hcur.
Qed.

(** C9, as the code has it: when the text has the block that sets
    [height_min] of [x] to 10, later the block that sets it to 20, the
    latter read outside a skip block and followed by no further declaration
    of [x], the document has exactly one entry [x], and that entry is the
    fresh component with [height_min = 20.0] and nothing else. *)
Theorem redeclaration_replaces_entry :
  forall content spec pre mid post st1,
    PyStr.split_lines content
    = (pre ++ block_x "10" ++ mid ++ block_x "20" ++ post)%list ->
    parse_lines initial_state (pre ++ block_x "10" ++ mid)%list = Ok st1 ->
    current_block st1 = None ->
    Forall (fun l => ~ declares "x" l) post ->
    parse_dsl content = Ok spec ->
    dict_get (components spec) "x" = Some x_with_min_20
    /\ entries_named "x" (components spec) = 1%nat
    /\ height_min x_with_min_20 = Some 20%float
    /\ x_with_min_20
       = mkComponent "x" (Some 20%float) None 0 None 0 None None None None
           None None None None.
Proof.
  intros content spec pre mid post st1 Hlines Hpre Hblock Hpost H.
  unfold parse_dsl in H. rewrite Hlines in H.
  apply bind_ok in H. destruct H as [st' [Hst H]]. injection H as H.
  subst spec.
  replace (pre ++ block_x "10" ++ mid ++ block_x "20" ++ post)%list
    with ((pre ++ block_x "10" ++ mid) ++ block_x "20" ++ post)%list in Hst
    by (now rewrite <- !app_assoc).
  apply parse_lines_app in Hst. destruct Hst as [sa [Ha Hst]].
  rewrite Hpre in Ha. injection Ha as Ha. subst sa.
  apply parse_lines_app in Hst. destruct Hst as [sb [Hb Hst]].
  rewrite (parse_block_x_20 st1 Hblock) in Hb. injection Hb as Hb.
  assert (Hx : dict_get (components (st_spec st')) "x" = Some x_with_min_20).
  { apply (parse_lines_keep_x x_with_min_20 post sb st' Hpost); subst sb;
      simpl; [apply dict_get_set_same | discriminate | exact Hst]. }
  split; [exact Hx|]. split; [|split; reflexivity].
  apply (entries_named_one _ _ x_with_min_20); [|exact Hx].
  assert (Hall : parse_lines initial_state
                   ((pre ++ block_x "10" ++ mid) ++ block_x "20" ++ post)
                 = Ok st').
  { apply (parse_lines_app_ok _ _ _ st1); [exact Hpre|].
    apply (parse_lines_app_ok _ _ _ sb); [|exact Hst].
    rewrite <- Hb. now apply parse_block_x_20. }
  exact (parse_lines_nodup _ initial_state st' (NoDup_nil _) Hall).
Qed.

(** The theorem at the two blocks with a comment line between them and a
    declaration of [y] after them. *)
Lemma redeclaration_replaces_entry_witness :
  dict_get
    (components
       (mkSpec [("x", x_with_min_20); ("y", new_Component "y")] 4%float))
    "x"
  = Some x_with_min_20.
Proof.
  refine (proj1 (redeclaration_replaces_entry
                   (text (block_x "10" ++ ["# again"] ++ block_x "20"
                            ++ ["COMPONENT y {"]))
                   (mkSpec [("x", x_with_min_20); ("y", new_Component "y")]
                      4%float)
                   [] ["# again"] ["COMPONENT y {"]
                   (mkState
                      (mkSpec [("x", setattr_float (new_Component "x")
                                       "height_min" 10%float)] 4%float)
                      None None)
                   _ _ _ _ _)).
  - vm_compute. reflexivity.
  - vm_compute. reflexivity.
  - reflexivity.
  - apply Forall_cons; [|apply Forall_nil].
    intros [m [Hm Hg]]. vm_compute in Hm. injection Hm as Hm. subst m.
    vm_compute in Hg. discriminate.
  - vm_compute. reflexivity.
Defined.

(** ** Tolerances *)

Lemma re_match_lang (r : regex) (line : string) (m : captures) :
  re_match r line = Some m -> exists pre rest, line = pre ++ rest /\ lang r pre.
Proof.
  unfold re_match. destruct (run r [] line) as [|[c1 s1] l] eqn:E;
    [discriminate|].
  intros _. destruct (run_sound r [] line c1 s1) as [pre [Hl Hp]].
  - rewrite E. now left.
  - eauto.
Qed.

Lemma span_app_stop (P : ascii -> bool) (a : string) (c : ascii) (r : string) :
  PyStr.all_chars P a = true -> P c = false ->
  span P (a ++ String c r) = String.length a.
Proof.
  induction a as [|x a IH]; simpl; intros Ha Hc.
  - now rewrite Hc.
  - apply andb_true_iff in Ha. destruct Ha as [Hx Ha]. rewrite Hx.
    now rewrite IH.
Qed.

Lemma app_inv_length (a a' b b' : string) :
  String.length a = String.length a' -> a ++ b = a' ++ b' -> b = b'.
Proof.
  revert a'. induction a as [|x a IH]; intros [|x' a']; simpl;
    intros Hl H; try discriminate.
  - exact H.
  - injection H as _ H. apply (IH a'); [lia | exact H].
Qed.

(** A run of spaces followed by two different non-space characters: the
    texts cannot be equal. *)
Lemma spaces_then_distinct (a a' : string) (c c' : ascii) (r r' : string) :
  PyStr.all_chars PyStr.is_space a = true ->
  PyStr.all_chars PyStr.is_space a' = true ->
  PyStr.is_space c = false -> PyStr.is_space c' = false -> c <> c' ->
  a ++ String c r <> a' ++ String c' r'.
Proof.
  intros Ha Ha' Hc Hc' Hne E.
  assert (Hl : String.length a = String.length a').
  { rewrite <- (span_app_stop _ a c r Ha Hc).
    rewrite <- (span_app_stop _ a' c' r' Ha' Hc'). now rewrite E. }
  apply (app_inv_length _ _ _ _ Hl) in E. injection E as E _. contradiction.
Qed.

(** A line that the [height EXACT] pattern matches is not matched by the
    [height MIN] pattern tried before it. *)
Lemma height_exact_not_min (line : string) (m : captures) :
  re_match (exact_with_tolerance "height") line = Some m ->
  re_match HEIGHT_MIN_RE line = None.
Proof.
  intros Hm. destruct (re_match HEIGHT_MIN_RE line) as [m'|] eqn:Hm';
    [|reflexivity].
  exfalso.
  apply re_match_lang in Hm. destruct Hm as [pre [rest [El L]]].
  apply re_match_lang in Hm'. destruct Hm' as [pre' [rest' [El' L']]].
  simpl in L, L'.
  destruct L as [h [q [Ep [Eh [sp [q2 [Eq [[_ Hsp] [e [q3 [Eq2 [Ee _]]]]]]]]]]]].
  destruct L' as [h' [q' [Ep' [Eh' [sp' [q2' [Eq' [[_ Hsp']
                    [e' [q3' [Eq2' [Ee' _]]]]]]]]]]]].
  subst. simpl in El'. injection El' as El'.
  rewrite !app_assoc_s in El'. simpl in El'.
  revert El'. apply spaces_then_distinct; auto; discriminate.
Qed.

(** A line that the [size EXACT] pattern matches is matched by neither
    pattern tried before it. *)
Lemma size_exact_not_height (line : string) (m : captures) (r : regex) :
  re_match (exact_with_tolerance "size") line = Some m ->
  re_match (Lit "height" >> r) line = None.
Proof.
  intros Hm. apply re_match_lang in Hm. destruct Hm as [pre [rest [El L]]].
  simpl in L. destruct L as [h [q [Ep [Eh _]]]]. subst.
  reflexivity.
Qed.

(** Without a tolerance group [lastindex] is below 2. *)
Lemma exact_without_tolerance (w line : string) (m : captures) :
  re_match (exact_with_tolerance w) line = Some m ->
  group m 2 = None ->
  exists li v f,
    lastindex m = Some li /\ (2 <=? li)%nat = false
    /\ group m 1 = Some v /\ float_of_str v = Ok f.
Proof.
  intros Hm H2.
  destruct (number_group_1 _ _ _ (groups_ok_exact w) eq_refl Hm)
    as [v [f [Hv Hf]]].
  destruct (exact_group_2 _ _ _ (groups_ok_exact w) eq_refl Hm)
    as [li [Hli Hge]].
  exists li, v, f. repeat split; auto.
  destruct (2 <=? li)%nat; [|reflexivity].
  destruct (Hge eq_refl) as [t [Ht _]]. congruence.
Qed.

Lemma apply_props_height_exact (c : Component) (line : string) (m : captures) :
  re_match (exact_with_tolerance "height") line = Some m ->
  group m 2 = None ->
  exists v f,
    group m 1 = Some v /\ float_of_str v = Ok f
    /\ apply_props COMPONENT_PROPS c line
       = Ok (setattr_float c "height_exact" f).
Proof.
  intros Hm H2.
  destruct (exact_without_tolerance _ _ _ Hm H2)
    as [li [v [f [Hli [Hlt [Hv Hf]]]]]].
  exists v, f. repeat split; auto.
  unfold COMPONENT_PROPS. cbn [apply_props].
  rewrite (height_exact_not_min _ _ Hm), Hm.
  unfold apply_match, py_float. rewrite Hv, Hf, Hli, Hlt. reflexivity.
Qed.

Lemma apply_props_size_exact (c : Component) (line : string) (m : captures) :
  re_match (exact_with_tolerance "size") line = Some m ->
  group m 2 = None ->
  exists v f,
    group m 1 = Some v /\ float_of_str v = Ok f
    /\ apply_props COMPONENT_PROPS c line
       = Ok (setattr_float c "size_exact" f).
Proof.
  intros Hm H2.
  destruct (exact_without_tolerance _ _ _ Hm H2)
    as [li [v [f [Hli [Hlt [Hv Hf]]]]]].
  exists v, f. repeat split; auto.
  unfold COMPONENT_PROPS. cbn [apply_props].
  unfold HEIGHT_MIN_RE at 1. rewrite (size_exact_not_height _ _ _ Hm).
  unfold exact_with_tolerance at 1. rewrite (size_exact_not_height _ _ _ Hm).
  rewrite Hm.
  unfold apply_match, py_float. rewrite Hv, Hf, Hli, Hlt. reflexivity.
Qed.

(** ** Image comparison *)

Lemma count_fold {A : Type} (f : A -> bool) (l : list A) (a : Z) :
  fold_left (fun d x => if f x then d + 1 else d) l a
  = a + Z.of_nat (List.length (filter f l)).
Proof.
  revert a. induction l as [|x l IH]; intros a; simpl; [lia|].
  rewrite IH. destruct (f x); simpl List.length; lia.
Qed.

Lemma count_diff_filter (t : Z) (px1 px2 : list pixel) :
  count_diff t px1 px2
  = Z.of_nat (List.length (filter (pixel_differs t) (combine px1 px2))).
Proof. unfold count_diff. now rewrite count_fold. Qed.

Lemma in_combine_nth {A B : Type} (l1 : list A) (l2 : list B) (a : A) (b : B) :
  In (a, b) (combine l1 l2)
  <-> exists i, nth_error l1 i = Some a /\ nth_error l2 i = Some b.
Proof.
  revert l2. induction l1 as [|x l1 IH]; intros l2; simpl.
  - split; [tauto|]. intros [[|i] [H _]]; discriminate.
  - destruct l2 as [|y l2]; simpl.
    + split; [tauto|]. intros [[|i] [_ H]]; discriminate.
    + rewrite IH. split.
      * intros [H|[i Hi]]; [injection H as -> ->; now exists 0%nat|].
        now exists (S i).
      * intros [[|i] [H1 H2]]; simpl in *.
        -- left. congruence.
        -- right. eauto.
Qed.

Lemma pixel_differs_iff (t : Z) (p1 p2 : pixel) :
  pixel_differs t (p1, p2) = true <-> differs t p1 p2.
Proof.
  unfold pixel_differs, differs. simpl. rewrite existsb_exists. split.
  - intros [[c1 c2] [Hin Hc]]. apply in_combine_nth in Hin.
    destruct Hin as [i [H1 H2]]. exists i, c1, c2.
    unfold channel_differs in Hc. simpl in Hc.
    apply Z.gtb_lt in Hc. repeat split; auto. lia.
  - intros [i [c1 [c2 [H1 [H2 Hc]]]]]. exists (c1, c2). split.
    + apply in_combine_nth. eauto.
    + unfold channel_differs. simpl. apply Z.gtb_lt. lia.
Qed.

Lemma filter_length_le {A : Type} (f : A -> bool) (l : list A) :
  (List.length (filter f l) <= List.length l)%nat.
Proof.
  induction l as [|x l IH]; simpl; [lia|]. destruct (f x); simpl; lia.
Qed.

Lemma float_of_int_ok (z : Z) :
  Z.abs z < 2 ^ 64 -> exists f, float_of_int z = Ok f.
Proof.
  intros H. unfold float_of_int.
  assert (Hl : 2 ^ 64 < float_int_limit) by (vm_compute; reflexivity).
  destruct (Z.ltb_spec (Z.abs z) float_int_limit); [eauto | lia].
Qed.

(** C3: [compare_images] on dimensions that differ and on dimensions that
    agree; what makes a pixel count; the boundary of the tolerance. *)
Theorem compare_images_spec :
  forall (w1 h1 : Z) (px1 : list pixel) (w2 h2 : Z) (px2 : list pixel)
         (t : Z),
    let total := w1 * h1 in
    let d := Z.of_nat
               (List.length (filter (pixel_differs t) (combine px1 px2))) in
    (w1 <> w2 \/ h1 <> h2 ->
     compare_images (w1, h1, px1) (w2, h2, px2) t
     = Ok (false, 0%float, w1 * h1))
    /\ (w1 = w2 -> h1 = h2 -> total <= 0 ->
        compare_images (w1, h1, px1) (w2, h2, px2) t
        = Ok (d =? 0, 0%float, d))
    /\ (w1 = w2 -> h1 = h2 -> 0 < total -> valid_raster (w1, h1, px1) ->
        exists fd ft,
          float_of_int (total - d) = Ok fd /\ float_of_int total = Ok ft
          /\ compare_images (w1, h1, px1) (w2, h2, px2) t
             = Ok (d =? 0, PrimFloat.div (PrimFloat.mul 100%float fd) ft, d))
    /\ (forall p1 p2, pixel_differs t (p1, p2) = true <-> differs t p1 p2)
    /\ (forall c,
          0 <= t ->
          pixel_differs t ([c], [c + t]) = false
          /\ pixel_differs t ([c], [c + t + 1]) = true).
Proof.
  intros w1 h1 px1 w2 h2 px2 t total d.
  split; [|split; [|split; [|split]]].
  - intros Hd. unfold compare_images.
    destruct (Z.eqb_spec w1 w2); destruct (Z.eqb_spec h1 h2); simpl;
      try reflexivity.
    destruct Hd; contradiction.
  - intros Hw Hh Ht. unfold compare_images.
    rewrite (proj2 (Z.eqb_eq w1 w2) Hw), (proj2 (Z.eqb_eq h1 h2) Hh).
    simpl negb. cbn [orb]. unfold similarity_of. fold total.
    destruct (Z.gtb_spec total 0); [lia|].
    cbn [bind]. now rewrite count_diff_filter.
  - intros Hw Hh Ht [[Hw0 Hw32] [[Hh0 Hh32] Hlen]].
    assert (Hd : 0 <= d <= total).
    { unfold d, total. rewrite <- Hlen.
      pose proof (filter_length_le (pixel_differs t) (combine px1 px2)).
      pose proof (length_combine px1 px2). lia. }
    assert (Hbig : total < 2 ^ 64).
    { unfold total. change (2 ^ 64) with (2 ^ 32 * 2 ^ 32). nia. }
    destruct (float_of_int_ok (total - d)) as [fd Hfd]; [lia|].
    destruct (float_of_int_ok total) as [ft Hft]; [lia|].
    exists fd, ft. split; [exact Hfd|]. split; [exact Hft|].
    unfold compare_images.
    rewrite (proj2 (Z.eqb_eq w1 w2) Hw), (proj2 (Z.eqb_eq h1 h2) Hh).
    simpl negb. cbn [orb]. unfold similarity_of. fold total.
    destruct (Z.gtb_spec total 0); [|lia].
    rewrite count_diff_filter. fold d. rewrite Hfd, Hft. reflexivity.
  - intros p1 p2. apply pixel_differs_iff.
  - intros c Ht. unfold pixel_differs, channel_differs. simpl.
    rewrite !orb_false_r. split.
    + destruct (Z.gtb_spec (Z.abs (c - (c + t))) t); [lia | reflexivity].
    + destruct (Z.gtb_spec (Z.abs (c - (c + t + 1))) t); [reflexivity | lia].
Qed.

(** The theorem at a 2x1 raster against itself with one channel moved by
    three, tolerance 2: one pixel of two differs, similarity 50. *)
Lemma compare_images_spec_witness :
  exists fd ft,
    float_of_int (2 * 1 - 1) = Ok fd /\ float_of_int (2 * 1) = Ok ft
    /\ compare_images (2, 1, [[1; 2; 3; 4]; [5; 6; 7; 8]])
         (2, 1, [[1; 2; 3; 4]; [5; 6; 7; 11]]) 2
       = Ok (false, PrimFloat.div (PrimFloat.mul 100%float fd) ft, 1).
Proof.
  refine (proj1 (proj2 (proj2
            (compare_images_spec 2 1 [[1; 2; 3; 4]; [5; 6; 7; 8]]
               2 1 [[1; 2; 3; 4]; [5; 6; 7; 11]] 2)))
            eq_refl eq_refl _ _).
  - reflexivity.
  - unfold valid_raster. simpl. lia.
Defined.

Example compare_images_10_20 :
  forall px1 px2 t,
    compare_images (10, 10, px1) (20, 20, px2) t = Ok (false, 0%float, 100).
Proof. reflexivity. Qed.

Example compare_images_half :
  compare_images (2, 1, [[1; 2; 3; 4]; [5; 6; 7; 8]])
    (2, 1, [[1; 2; 3; 4]; [5; 6; 7; 11]]) 2
  = Ok (false, 50%float, 1).
Proof. vm_compute. reflexivity. Qed.

(** ** Compliance checks *)

Lemma checks_of_mapping_spec (cname : string) (comp : Component)
  (mapping : dict (string * Z)) :
  mapping_ok mapping ->
  forall checks,
    checks_of_mapping cname comp mapping checks
    = Ok (checks ++ map (item_of cname) (filter (passes comp) mapping))%list.
Proof.
  induction mapping as [|[attr [const expected]] rest IH]; intros Hok checks;
    simpl.
  - now rewrite app_nil_r.
  - assert (Hrest : mapping_ok rest).
    { intros a k e c v Hin. apply (Hok a k e c v). now right. }
    unfold passes at 1. simpl.
    destruct (getattr comp attr) as [val|] eqn:Hget; [|now apply IH].
    destruct (Hok attr const expected comp val (or_introl eq_refl) Hget)
      as [b Hb].
    rewrite Hb. simpl. rewrite (IH Hrest). destruct b; simpl.
    + unfold item_of at 2. simpl. now rewrite <- app_assoc.
    + reflexivity.
Qed.

Lemma checks_of_components_spec (table : dict (dict (string * Z)))
  (comps : dict Component) :
  (forall cname, mapping_ok (mapping_of table cname)) ->
  forall checks,
    checks_of_components table comps checks
    = Ok (checks
          ++ flat_map (fun kc => map (item_of (fst kc))
                                   (filter (passes (snd kc))
                                      (mapping_of table (fst kc))))
               comps)%list.
Proof.
  intros Hok. induction comps as [|[cname comp] rest IH]; intros checks; simpl.
  - now rewrite app_nil_r.
  - rewrite (checks_of_mapping_spec _ _ _ (Hok cname)). simpl.
    rewrite IH. now rewrite <- app_assoc.
Qed.

Lemma near_float_ok (f : float) (expected : Z) :
  Z.abs expected < 2 ^ 64 -> exists b, near (PyFloat f) expected = Ok b.
Proof.
  intros H. unfold near. destruct (float_of_int_ok expected H) as [e He].
  rewrite He. simpl. eauto.
Qed.

Lemma getattr_float (comp : Component) (attr : string) (val : pyval) :
  non_float_attr attr = false -> getattr comp attr = Some val ->
  exists f, val = PyFloat f.
Proof.
  unfold non_float_attr, getattr. intros Hn H.
  apply orb_false_iff in Hn. destruct Hn as [Hn H4].
  apply orb_false_iff in Hn. destruct Hn as [Hn H3].
  apply orb_false_iff in Hn. destruct Hn as [H1 H2].
  rewrite H1, H2, H3, H4 in H.
  repeat match type of H with
         | (if ?b then _ else _) = _ => destruct b
         end;
    try discriminate;
    match type of H with
    | option_map PyFloat ?x = Some _ =>
        destruct x; [|discriminate]; injection H as H; subst; eauto
    end.
Qed.

Lemma SPEC_CONST_MAP_entries :
  forallb (fun km => forallb entry_ok (snd km)) SPEC_CONST_MAP = true.
Proof. vm_compute. reflexivity. Qed.

Lemma SPEC_CONST_MAP_ok (cname : string) :
  mapping_ok (mapping_of SPEC_CONST_MAP cname).
Proof.
  intros attr const expected comp val Hin Hget.
  unfold mapping_of in Hin.
  destruct (dict_get SPEC_CONST_MAP cname) as [mapping|] eqn:Hm;
    [|contradiction].
  apply dict_get_in in Hm.
  pose proof (proj1 (forallb_forall _ _) SPEC_CONST_MAP_entries _ Hm) as Hall.
  simpl in Hall.
  pose proof (proj1 (forallb_forall _ _) Hall _ Hin) as He.
  unfold entry_ok in He. simpl in He.
  apply andb_true_iff in He. destruct He as [Hnf Hz].
  apply negb_true_iff in Hnf. apply Z.ltb_lt in Hz.
  destruct (getattr_float _ _ _ Hnf Hget) as [f Hf]. subst val.
  now apply near_float_ok.
Qed.

Lemma md3_check_items_spec (spec : Spec) :
  md3_check_items spec
  = Ok (flat_map (fun kc => map (item_of (fst kc))
                              (filter (passes (snd kc))
                                 (mapping_of SPEC_CONST_MAP (fst kc))))
          (components spec)).
Proof.
  unfold md3_check_items.
  now rewrite (checks_of_components_spec _ _ SPEC_CONST_MAP_ok).
Qed.

Lemma dict_values_unique {V : Type} (d : dict V) (k : string) (v v' : V) :
  NoDup (dict_keys d) -> In (k, v) d -> In (k, v') d -> v = v'.
Proof.
  intros Hnd H H'.
  apply (dict_in_get d k v Hnd) in H. apply (dict_in_get d k v' Hnd) in H'.
  congruence.
Qed.

(** ** Reading bytes *)

Lemma byte_val_range (b : byte) : 0 <= byte_val b < 256.
Proof.
  unfold byte_val. pose proof (Byte.to_N_bounded b). lia.
Qed.

Lemma read_app (n : Z) (f : bytes) :
  (fst (read n f) ++ snd (read n f))%list = f.
Proof.
  revert n. induction f as [|b f IH]; intros n; simpl; [reflexivity|].
  destruct (n <=? 0); [reflexivity|].
  specialize (IH (n - 1)). destruct (read (n - 1) f) as [d r]. simpl in *.
  now rewrite IH.
Qed.

Lemma read_rest_length (n : Z) (f : bytes) :
  (List.length (snd (read n f)) <= List.length f)%nat.
Proof.
  rewrite <- (read_app n f) at 2. rewrite length_app. lia.
Qed.

Lemma unpack_u32_ok (bs : bytes) (z : Z) :
  unpack_u32 bs = Ok z -> List.length bs = 4%nat /\ 0 <= z < 2 ^ 32.
Proof.
  destruct bs as [|b3 [|b2 [|b1 [|b0 [|x bs]]]]]; try discriminate.
  simpl. intros H. injection H as H. split; [reflexivity|].
  pose proof (byte_val_range b3). pose proof (byte_val_range b2).
  pose proof (byte_val_range b1). pose proof (byte_val_range b0).
  change (2 ^ 32) with 4294967296. lia.
Qed.

Lemma unpack_u32_raise (bs : bytes) (e : exn) :
  unpack_u32 bs = Raise e -> e = StructError.
Proof.
  destruct bs as [|b3 [|b2 [|b1 [|b0 [|x bs]]]]]; simpl; congruence.
Qed.

Lemma index_raise (bs : bytes) (i : Z) (e : exn) :
  index bs i = Raise e -> e = IndexError.
Proof.
  revert i. induction bs as [|b bs IH]; intros i; simpl; [congruence|].
  destruct (i =? 0); [discriminate | apply IH].
Qed.

Lemma index_range (bs : bytes) (i v : Z) : index bs i = Ok v -> 0 <= v < 256.
Proof.
  revert i. induction bs as [|b bs IH]; intros i; simpl; [discriminate|].
  destruct (i =? 0); [|apply IH].
  intros H. injection H as H. subst. apply byte_val_range.
Qed.

Lemma read_chunk_length (f : bytes) (ty d f' : bytes) :
  read_chunk f = Ok (ty, d, f') -> (List.length f' + 4 <= List.length f)%nat.
Proof.
  unfold read_chunk.
  pose proof (read_app 4 f) as Happ. pose proof (read_rest_length 4 f) as H1.
  destruct (read 4 f) as [lb f1]. simpl in *.
  intros H. apply bind_ok in H. destruct H as [n [Hn H]].
  apply unpack_u32_ok in Hn. destruct Hn as [Hlb _].
  pose proof (read_rest_length 4 f1) as H2.
  destruct (read 4 f1) as [ty' f2]. simpl in H2.
  pose proof (read_rest_length n f2) as H3.
  destruct (read n f2) as [d' f3]. simpl in H3.
  pose proof (read_rest_length 4 f3) as H4.
  destruct (read 4 f3) as [crc f4]. simpl in H4.
  injection H as _ _ H. subst f'.
  rewrite <- Happ, length_app. lia.
Qed.

Lemma read_chunk_raise (f : bytes) (e : exn) :
  read_chunk f = Raise e -> e = StructError.
Proof.
  unfold read_chunk. destruct (read 4 f) as [lb f1].
  intros H. apply bind_raise in H. destruct H as [H|[n [_ H]]].
  - now apply unpack_u32_raise in H.
  - destruct (read 4 f1) as [ty f2]. destruct (read n f2) as [d f3].
    destruct (read 4 f3). discriminate.
Qed.

Lemma bytes_eqb_eq (a b : bytes) : bytes_eqb a b = true <-> a = b.
Proof.
  unfold bytes_eqb. destruct (list_eq_dec Byte.byte_eq_dec a b);
    split; congruence.
Qed.

Lemma bytes_eqb_neq (a b : bytes) : bytes_eqb a b = false <-> a <> b.
Proof.
  unfold bytes_eqb. destruct (list_eq_dec Byte.byte_eq_dec a b);
    split; congruence.
Qed.

(** ** The chunk scan *)

(** The scan returns before the fuel runs out. *)
Lemma scan_chunks_returns (fuel : nat) :
  forall f w h c,
    (List.length f < fuel)%nat -> scan_chunks fuel f w h c <> None.
Proof.
  induction fuel as [|fuel IH]; intros f w h c Hlen; [lia|].
  simpl. destruct (read_chunk f) as [[[ty d] f']|e] eqn:Hr; [|discriminate].
  apply read_chunk_length in Hr.
  destruct (bytes_eqb ty IHDR).
  - destruct (parse_ihdr d) as [[w' h']|e]; [apply IH; lia | discriminate].
  - destruct (bytes_eqb ty IDAT); [apply IH; lia|].
    destruct (bytes_eqb ty IEND); [discriminate | apply IH; lia].
Qed.

(** [read_png] always returns or raises. *)
Lemma read_png_returns (dec : bytes -> option bytes) (data : bytes) :
  exists r, read_png dec data = Some r.
Proof.
  unfold read_png. pose proof (read_rest_length 8 data) as Hl.
  destruct (read 8 data) as [sig f]. simpl in Hl.
  destruct (negb (bytes_eqb sig PNG_SIGNATURE)); [eauto|].
  pose proof (scan_chunks_returns (S (List.length data)) f 0 0 []) as Hs.
  destruct (scan_chunks (S (List.length data)) f 0 0 []) as [[[[w h] c]|e]|];
    [|eauto|exfalso; apply Hs; [lia | reflexivity]].
  destruct (dec c); eauto.
Qed.

Lemma parse_ihdr_ok (d : bytes) (w h : Z) :
  parse_ihdr d = Ok (w, h) -> 0 <= w < 2 ^ 32 /\ 0 <= h < 2 ^ 32.
Proof.
  unfold parse_ihdr. intros H.
  apply bind_ok in H. destruct H as [w' [Hw H]].
  apply bind_ok in H. destruct H as [h' [Hh H]].
  apply bind_ok in H. destruct H as [bd [_ H]].
  apply bind_ok in H. destruct H as [ct [_ H]].
  destruct (negb (bd =? 8) || negb (ct =? 6)); [discriminate|].
  injection H as -> ->.
  apply unpack_u32_ok in Hw. apply unpack_u32_ok in Hh. tauto.
Qed.

Lemma scan_chunks_dims (fuel : nat) :
  forall f w h c w' h' c',
    0 <= w < 2 ^ 32 -> 0 <= h < 2 ^ 32 ->
    scan_chunks fuel f w h c = Some (Ok (w', h', c')) ->
    0 <= w' < 2 ^ 32 /\ 0 <= h' < 2 ^ 32.
Proof.
  induction fuel as [|fuel IH]; intros f w h c w' h' c' Hw Hh H;
    [discriminate|].
  simpl in H. destruct (read_chunk f) as [[[ty d] f']|e]; [|discriminate].
  destruct (bytes_eqb ty IHDR).
  - destruct (parse_ihdr d) as [[w1 h1]|e] eqn:Hp; [|discriminate].
    apply parse_ihdr_ok in Hp. destruct Hp as [Hw1 Hh1].
    exact (IH _ _ _ _ _ _ _ Hw1 Hh1 H).
  - destruct (bytes_eqb ty IDAT); [exact (IH _ _ _ _ _ _ _ Hw Hh H)|].
    destruct (bytes_eqb ty IEND); [|exact (IH _ _ _ _ _ _ _ Hw Hh H)].
    injection H as <- <- _. auto.
Qed.

(** ** Pixel extraction *)

Lemma for_range_inv {St : Type} (Inv : Z -> St -> Prop)
  (body : Z -> St -> result St) (n : nat) :
  forall start s s',
    (forall i st st',
        start <= i < start + Z.of_nat n ->
        Inv i st -> body i st = Ok st' -> Inv (i + 1) st') ->
    Inv start s ->
    for_range start n body s = Ok s' ->
    Inv (start + Z.of_nat n) s'.
Proof.
  induction n as [|n IH]; intros start s s' Hstep H0 H.
  - simpl in H. injection H as <-. now rewrite Z.add_0_r.
  - cbn [for_range] in H. apply bind_ok in H. destruct H as [s1 [H1 H]].
    replace (start + Z.of_nat (S n)) with ((start + 1) + Z.of_nat n) by lia.
    apply (IH (start + 1) s1 s').
    + intros i st st' Hi. apply Hstep. lia.
    + apply (Hstep start s s1); [lia | exact H0 | exact H1].
    + exact H.
Qed.

Lemma for_range_raise {St : Type} (body : Z -> St -> result St) (e0 : exn)
  (n : nat) :
  (forall i s e, body i s = Raise e -> e = e0) ->
  forall start s e, for_range start n body s = Raise e -> e = e0.
Proof.
  intros Hb. induction n as [|n IH]; intros start s e H; [discriminate|].
  cbn [for_range] in H. apply bind_raise in H.
  destruct H as [H|[s1 [_ H]]]; [now apply Hb in H | now apply IH in H].
Qed.

Lemma pixel_at_rgba8 (raw : bytes) (idx : Z) (p : pixel) :
  pixel_at raw idx = Ok p -> rgba8 p.
Proof.
  unfold pixel_at. intros H.
  apply bind_ok in H. destruct H as [r [Hr H]].
  apply bind_ok in H. destruct H as [g [Hg H]].
  apply bind_ok in H. destruct H as [b [Hb H]].
  apply bind_ok in H. destruct H as [a [Ha H]].
  injection H as <-. exists r, g, b, a.
  apply index_range in Hr, Hg, Hb, Ha. tauto.
Qed.

Lemma pixel_at_raise (raw : bytes) (idx : Z) (e : exn) :
  pixel_at raw idx = Raise e -> e = IndexError.
Proof.
  unfold pixel_at. intros H.
  repeat (apply bind_raise in H;
          destruct H as [H|[? [_ H]]]; [now apply index_raise in H|]).
  discriminate.
Qed.

Lemma decode_row (raw : bytes) (row_start w : Z) (px0 px : list pixel) :
  0 <= w ->
  for_range 0 (Z.to_nat w)
    (fun x pixels =>
       p <- pixel_at raw (row_start + x * 4) ;; Ok (pixels ++ [p])%list)
    px0 = Ok px ->
  row_decoded raw row_start px0 w px.
Proof.
  intros Hw H.
  match type of H with
  | for_range _ ?n ?body _ = _ =>
      pose proof (for_range_inv (row_decoded raw row_start px0) body n
                    0 px0 px) as Hinv
  end.
  rewrite Z2Nat.id in Hinv by exact Hw. simpl in Hinv.
  apply Hinv; [| |exact H]; clear Hinv H.
  - intros i st st' Hi [row [E [Hlen [Hall Hnth]]]] Hb.
    apply bind_ok in Hb. destruct Hb as [p [Hp Hb]]. injection Hb as <-.
    exists (row ++ [p])%list. split; [subst; now rewrite app_assoc|].
    split; [rewrite length_app; simpl; lia|].
    split.
    { apply Forall_app. split; [exact Hall|].
      constructor; [now apply pixel_at_rgba8 in Hp | constructor]. }
    intros x' Hx'. destruct (Z.eq_dec x' i) as [->|Hne].
    + exists p. split; [exact Hp|].
      rewrite nth_error_app2 by lia.
      replace (Z.to_nat i - List.length row)%nat with 0%nat by lia.
      reflexivity.
    + destruct (Hnth x') as [q [Hq Hn]]; [lia|].
      exists q. split; [exact Hq|].
      rewrite nth_error_app1 by lia. exact Hn.
  - exists []. split; [now rewrite app_nil_r|].
    split; [reflexivity|]. split; [constructor|]. intros x' Hx'. lia.
Qed.

Lemma decode_pixels_rows (raw : bytes) (w h : Z) (px : list pixel) :
  0 <= w -> 0 <= h ->
  decode_pixels raw w h = Ok px -> rows_decoded raw w h px.
Proof.
  intros Hw Hh H. unfold decode_pixels in H.
  match type of H with
  | for_range _ ?n ?body _ = _ =>
      pose proof (for_range_inv (rows_decoded raw w) body n 0 [] px) as Hinv
  end.
  rewrite Z2Nat.id in Hinv by exact Hh. simpl in Hinv.
  apply Hinv; [| |exact H]; clear Hinv H.
  - intros y st st' Hy [Hlen [Hall Hnth]] Hb.
    apply (decode_row raw (y * (1 + w * 4) + 1) w st st' Hw) in Hb.
    destruct Hb as [row [E [Hrl [Hra Hrn]]]]. subst st'.
    split; [rewrite length_app; lia|].
    split; [apply Forall_app; auto|].
    intros y' x' Hy' Hx'. destruct (Z.eq_dec y' y) as [->|Hne].
    + destruct (Hrn x' Hx') as [p [Hp Hn]]. exists p. split; [exact Hp|].
      rewrite nth_error_app2 by lia.
      replace (Z.to_nat (y * w + x') - List.length st)%nat
        with (Z.to_nat x') by lia.
      exact Hn.
    + destruct (Hnth y' x') as [p [Hp Hn]]; [lia | lia |].
      exists p. split; [exact Hp|].
      rewrite nth_error_app1 by nia. exact Hn.
  - split; [simpl; lia|]. split; [constructor|]. intros y' x' Hy'. lia.
Qed.

Lemma decode_pixels_raise (raw : bytes) (w h : Z) (e : exn) :
  decode_pixels raw w h = Raise e -> e = IndexError.
Proof.
  unfold decode_pixels. apply for_range_raise.
  intros y s e0. apply for_range_raise.
  intros x s0 e1 H. apply bind_raise in H.
  destruct H as [H|[p [_ H]]]; [now apply pixel_at_raise in H | discriminate].
Qed.

(** ** When the reader refuses a file *)

Lemma parse_ihdr_value_error (d : bytes) :
  parse_ihdr d = Raise ValueError <-> unsupported_header d.
Proof.
  unfold parse_ihdr, unsupported_header. split.
  - intros H.
    apply bind_raise in H. destruct H as [H|[w [_ H]]];
      [apply unpack_u32_raise in H; discriminate|].
    apply bind_raise in H. destruct H as [H|[h [_ H]]];
      [apply unpack_u32_raise in H; discriminate|].
    apply bind_raise in H. destruct H as [H|[bd [Hbd H]]];
      [apply index_raise in H; discriminate|].
    apply bind_raise in H. destruct H as [H|[ct [Hct H]]];
      [apply index_raise in H; discriminate|].
    exists bd, ct. split; [exact Hbd|]. split; [exact Hct|].
    destruct (Z.eqb_spec bd 8); destruct (Z.eqb_spec ct 6); simpl in H;
      try discriminate; auto.
  - intros [bd [ct [Hbd [Hct Hne]]]].
    destruct d as [|b0 [|b1 [|b2 [|b3 [|b4 [|b5 [|b6 [|b7 [|b8 [|b9 d]]]]]]]]]];
      try discriminate.
    simpl in Hbd, Hct. injection Hbd as <-. injection Hct as <-.
    simpl.
    destruct (Z.eqb_spec (byte_val b8) 8); destruct (Z.eqb_spec (byte_val b9) 6);
      simpl; try reflexivity.
    destruct Hne; contradiction.
Qed.

Lemma IDAT_not_IEND : IDAT <> IEND.
Proof. discriminate. Qed.

(** A [ValueError] out of the scan comes from an unsupported header. *)
Lemma scan_value_error_reaches (fuel : nat) :
  forall f w h c,
    scan_chunks fuel f w h c = Some (Raise ValueError) ->
    reaches_unsupported_header f.
Proof.
  induction fuel as [|fuel IH]; intros f w h c H; [discriminate|].
  simpl in H.
  destruct (read_chunk f) as [[[ty d] f']|e] eqn:Hr.
  2:{ injection H as ->. apply read_chunk_raise in Hr. discriminate. }
  destruct (bytes_eqb ty IHDR) eqn:E1.
  { apply bytes_eqb_eq in E1. subst ty.
    destruct (parse_ihdr d) as [[w' h']|e] eqn:Hp.
    - eapply ruh_after_header; eauto.
    - injection H as ->. eapply ruh_here; eauto.
      now apply parse_ihdr_value_error. }
  apply bytes_eqb_neq in E1.
  destruct (bytes_eqb ty IDAT) eqn:E2.
  { apply bytes_eqb_eq in E2. subst ty.
    eapply ruh_after_other; eauto. exact IDAT_not_IEND. }
  destruct (bytes_eqb ty IEND) eqn:E3; [discriminate|].
  apply bytes_eqb_neq in E3.
  eapply ruh_after_other; eauto.
Qed.

(** An unsupported header that the scan reaches makes it raise. *)
Lemma reaches_scan_value_error (f : bytes) :
  reaches_unsupported_header f ->
  forall fuel w h c,
    (List.length f < fuel)%nat ->
    scan_chunks fuel f w h c = Some (Raise ValueError).
Proof.
  induction 1 as [f d f' Hr Hu|f d f' w0 h0 Hr Hp _ IH|f ty d f' Hr N1 N2 _ IH];
    intros fuel w h c Hlen; (destruct fuel as [|fuel]; [lia|]);
    simpl; rewrite Hr; pose proof (read_chunk_length _ _ _ _ Hr) as Hl.
  - change (bytes_eqb IHDR IHDR) with true. cbn iota.
    apply parse_ihdr_value_error in Hu. now rewrite Hu.
  - change (bytes_eqb IHDR IHDR) with true. cbn iota.
    rewrite Hp. apply IH. lia.
  - rewrite (proj2 (bytes_eqb_neq ty IHDR) N1).
    rewrite (proj2 (bytes_eqb_neq ty IEND) N2).
    destruct (bytes_eqb ty IDAT); apply IH; lia.
Qed.

(** C5, as the code has it: [read_png] raises [ValueError] exactly when the
    first eight bytes are not the PNG signature or the chunk scan reaches
    an [IHDR] chunk whose bit depth is not 8 or whose colour type is not 6.
    (Pixel data with no header before it is not refused.) *)
Theorem read_png_value_error :
  forall (zlib_decompress : bytes -> option bytes) (data : bytes),
    read_png zlib_decompress data = Some (Raise ValueError)
    <-> (fst (read 8 data) <> PNG_SIGNATURE
         \/ reaches_unsupported_header (snd (read 8 data))).
Proof.
  intros dec data. unfold read_png.
  pose proof (read_rest_length 8 data) as Hl.
  destruct (read 8 data) as [sig f]. simpl in Hl. simpl fst. simpl snd.
  destruct (bytes_eqb sig PNG_SIGNATURE) eqn:Es; simpl negb; cbn iota.
  - apply bytes_eqb_eq in Es. split.
    + intros H. right.
      destruct (scan_chunks (S (List.length data)) f 0 0 [])
        as [[[[w h] c]|e]|] eqn:Hs; try discriminate.
      * destruct (dec c) as [raw|]; [|discriminate].
        injection H as H. apply bind_raise in H.
        destruct H as [H|[px [_ H]]]; [|discriminate].
        apply decode_pixels_raise in H. discriminate.
      * injection H as ->. now apply scan_value_error_reaches in Hs.
    + intros [Hs|Hr]; [contradiction|].
      rewrite (reaches_scan_value_error f Hr (S (List.length data)) 0 0 []);
        [reflexivity | lia].
  - apply bytes_eqb_neq in Es. split; auto.
Qed.

(** The theorem at the file whose header declares 16 bits per channel. *)
Lemma read_png_value_error_witness :
  read_png zlib_stored png_16bit = Some (Raise ValueError).
Proof.
  apply (proj2 (read_png_value_error zlib_stored png_16bit)).
  right. eapply ruh_here.
  - vm_compute. reflexivity.
  - exists 16, 6. repeat split. left. discriminate.
Defined.

(** Whatever the decompressor does with the stream, the file with pixel
    data and no header is not refused with [ValueError]. *)
Lemma missing_header_never_value_error
  (zlib_decompress : bytes -> option bytes) :
  read_png zlib_decompress png_without_header <> Some (Raise ValueError).
Proof.
  intros H. apply read_png_value_error in H. destruct H as [H|H].
  - apply H. reflexivity.
  - inversion H as [f d f' Hr Hu|f d f' w h Hr Hp Hn|f ty d f' Hr N1 N2 Hn];
      subst; vm_compute in Hr; try discriminate.
    injection Hr as <- <- <-.
    inversion Hn as [f d f' Hr Hu|f d f' w h Hr Hp Hn'|f ty d f' Hr N3 N4 Hn'];
      subst; vm_compute in Hr; try discriminate.
    injection Hr as <- <- <-. apply N4. reflexivity.
Qed.

(** A file that stops less than four bytes after the signature: the first
    chunk-length read is short. *)
Lemma read_png_truncated_length
  (zlib_decompress : bytes -> option bytes) (rest : bytes) :
  (List.length rest < 4)%nat ->
  read_png zlib_decompress (PNG_SIGNATURE ++ rest)%list
  = Some (Raise StructError).
Proof.
  intros H.
  destruct rest as [|a [|b [|c [|d rest]]]]; simpl in H; try lia;
    reflexivity.
Qed.

(** * Further properties of the parser *)

(** A [Forall] over the lines of a given text, line by line. *)
Ltac forall_by_computation :=
  match goal with
  | |- Forall _ ?l =>
      let l' := eval vm_compute in l in
      replace l with l' by (vm_compute; reflexivity)
  end;
  repeat (apply Forall_cons; [vm_compute; reflexivity|]); apply Forall_nil.

(** ** Layout: padding, blank lines and comments *)

Lemma lstrip_head (s : string) :
  PyStr.lstrip s = ""
  \/ exists c r, PyStr.lstrip s = String c r /\ PyStr.is_space c = false.
Proof.
  induction s as [|c s IH]; simpl; [auto|].
  destruct (PyStr.is_space c) eqn:E; [exact IH|]. right. eauto.
Qed.

Lemma rstrip_idem (s : string) : PyStr.rstrip (PyStr.rstrip s) = PyStr.rstrip s.
Proof.
  induction s as [|c s IH]; simpl; [reflexivity|].
  destruct (PyStr.rstrip s) as [|d r] eqn:E.
  - destruct (PyStr.is_space c) eqn:Ec; simpl; [reflexivity|].
    now rewrite Ec.
  - change (PyStr.rstrip (String c (String d r)) = String c (String d r)).
    simpl. simpl in IH.
    destruct (match PyStr.rstrip r with
              | "" => if PyStr.is_space d then "" else String d ""
              | String a s0 => String d (String a s0)
              end) eqn:E2; [discriminate|].
    now rewrite IH.
Qed.

Lemma rstrip_keeps_head (c : ascii) (s : string) :
  PyStr.is_space c = false -> exists r, PyStr.rstrip (String c s) = String c r.
Proof.
  intros Hc. simpl. destruct (PyStr.rstrip s); [rewrite Hc|]; eauto.
Qed.

Lemma strip_idem (s : string) : PyStr.strip (PyStr.strip s) = PyStr.strip s.
Proof.
  unfold PyStr.strip.
  destruct (lstrip_head s) as [E|[c [r [E Hc]]]]; rewrite E; [reflexivity|].
  destruct (rstrip_keeps_head c r Hc) as [r' Hr]. rewrite Hr.
  simpl PyStr.lstrip. rewrite Hc. rewrite <- Hr. apply rstrip_idem.
Qed.

Lemma parse_line_strip (st : pstate) (raw : string) :
  parse_line st (PyStr.strip raw) = parse_line st raw.
Proof. unfold parse_line. now rewrite strip_idem. Qed.

Lemma parse_line_blank_or_comment (st : pstate) (raw : string) :
  nonempty (PyStr.strip raw) && negb (PyStr.startswith (PyStr.strip raw) "#")
  = false ->
  parse_line st raw = Ok st.
Proof.
  intros H. unfold parse_line.
  destruct (nonempty (PyStr.strip raw));
    destruct (PyStr.startswith (PyStr.strip raw) "#");
    simpl in *; try reflexivity; discriminate.
Qed.

Lemma parse_lines_significant (lines : list string) :
  forall st,
    parse_lines st lines
    = parse_lines st
        (filter (fun l => nonempty l && negb (PyStr.startswith l "#"))
           (map PyStr.strip lines)).
Proof.
  induction lines as [|l ls IH]; intros st; simpl; [reflexivity|].
  destruct (nonempty (PyStr.strip l)
            && negb (PyStr.startswith (PyStr.strip l) "#")) eqn:E.
  - simpl. rewrite parse_line_strip.
    destruct (parse_line st l); simpl; [apply IH | reflexivity].
  - rewrite (parse_line_blank_or_comment st l E). simpl. apply IH.
Qed.

(** X1.  The result of [parse_dsl] depends only on the significant lines
    of the text: padding around a line (carriage returns included), blank
    lines and comment lines never change the document, nor whether the
    parser raises. *)
Theorem parse_dsl_ignores_layout :
  forall c1 c2,
    significant_lines c1 = significant_lines c2 ->
    parse_dsl c1 = parse_dsl c2.
Proof.
  intros c1 c2 H. unfold parse_dsl.
  rewrite (parse_lines_significant (PyStr.split_lines c1)).
  rewrite (parse_lines_significant (PyStr.split_lines c2)).
  unfold significant_lines in H. now rewrite H.
Qed.

Lemma parse_dsl_ignores_layout_witness :
  parse_dsl
    (text [String "009" "COMPONENT x {  " ++ String "013" ""; "";
           "# height MIN 1"; "  height MIN 40 "; "}"; ""])
  = parse_dsl (text ["COMPONENT x {"; "height MIN 40"; "}"]).
Proof.
  apply parse_dsl_ignores_layout. vm_compute. reflexivity.
Defined.

(** ** Documents without a component header *)

Lemma parse_line_outside (st : pstate) (raw : string) :
  re_match COMPONENT_RE (PyStr.strip raw) = None ->
  current_component st = None ->
  exists st',
    parse_line st raw = Ok st'
    /\ components (st_spec st') = components (st_spec st)
    /\ current_component st' = None.
Proof.
  intros Hno Hcur. unfold parse_line.
  destruct (negb (nonempty (PyStr.strip raw))
            || PyStr.startswith (PyStr.strip raw) "#"); [eauto|].
  rewrite Hno.
  destruct (re_match GRID_UNIT_RE (PyStr.strip raw)) as [m|] eqn:Hg.
  { destruct (number_group_1 GRID_UNIT_RE _ _ groups_ok_grid_unit eq_refl Hg)
      as [v [f [Hv Hf]]].
    unfold py_float. rewrite Hv, Hf. cbn [bind]. eauto. }
  destruct (re_match SKIP_BLOCK_RE (PyStr.strip raw)); [eauto|].
  destruct (String.eqb (PyStr.strip raw) "}").
  { destruct (block_open st); eauto. }
  destruct (in_skip st); [eauto|].
  rewrite Hcur. eauto.
Qed.

Lemma parse_lines_outside (lines : list string) :
  forall st,
    Forall (fun l => re_match COMPONENT_RE (PyStr.strip l) = None) lines ->
    current_component st = None ->
    exists st',
      parse_lines st lines = Ok st'
      /\ components (st_spec st') = components (st_spec st).
Proof.
  induction lines as [|l ls IH]; intros st H Hcur; simpl; [eauto|].
  inversion H as [|? ? Hl Hls]. subst.
  destruct (parse_line_outside st l Hl Hcur) as [st1 [H1 [E1 C1]]].
  rewrite H1. simpl.
  destruct (IH st1 Hls C1) as [st' [H' E']].
  exists st'. split; [exact H'|congruence].
Qed.

(** X2.  A text none of whose lines is a [COMPONENT] header parses, without
    raising, to a document with no component: property lines, braces and
    skip blocks outside a component block have no effect on the components,
    however long the lines are. *)
Theorem no_header_no_components :
  forall content,
    Forall (fun l => re_match COMPONENT_RE (PyStr.strip l) = None)
      (PyStr.split_lines content) ->
    exists g, parse_dsl content = Ok (mkSpec [] g).
Proof.
  intros content H. unfold parse_dsl.
  destruct (parse_lines_outside _ initial_state H eq_refl) as [st [Hst E]].
  rewrite Hst. simpl. exists (grid_unit (st_spec st)).
  destruct st as [[d g] cur blk]. simpl in *. now subst d.
Qed.

Lemma no_header_no_components_witness :
  exists g,
    parse_dsl (text ["height MIN 40"; "}"; "GLOBAL grid_unit 8";
                     "corner_radius 4"])
    = Ok (mkSpec [] g).
Proof.
  apply no_header_no_components. forall_by_computation.
Defined.
(** ** The grid unit *)

Lemma re_match_lit_prefix (a : string) (r : regex) (s : string)
  (m : captures) :
  re_match (Lit a >> r) s = Some m -> exists rest, s = a ++ rest.
Proof.
  unfold re_match. cbn [run].
  destruct (PyStr.strip_prefix a s) as [s'|] eqn:E; [|discriminate].
  intros _. exists s'. now apply strip_prefix_some.
Qed.

Lemma parse_line_grid_kept (st : pstate) (raw : string) (st' : pstate) :
  no_grid_unit raw -> parse_line st raw = Ok st' ->
  grid_unit (st_spec st') = grid_unit (st_spec st).
Proof.
  unfold no_grid_unit, parse_line. intros Hno H.
  destruct (negb (nonempty (PyStr.strip raw))
            || PyStr.startswith (PyStr.strip raw) "#").
  { injection H as H. now subst. }
  destruct (re_match COMPONENT_RE (PyStr.strip raw)) as [m|].
  { destruct (group m 1); [|discriminate]. injection H as H. now subst. }
  rewrite Hno in H.
  destruct (re_match SKIP_BLOCK_RE (PyStr.strip raw)).
  { injection H as H. now subst. }
  destruct (String.eqb (PyStr.strip raw) "}").
  { destruct (block_open st); injection H as H; now subst. }
  destruct (in_skip st).
  { injection H as H. now subst. }
  destruct (current_component st) as [key|].
  2:{ injection H as H. now subst. }
  destruct (dict_get (components (st_spec st)) key) as [c|].
  2:{ injection H as H. now subst. }
  apply bind_ok in H. destruct H as [c' [_ H]]. injection H as H.
  now subst.
Qed.

Lemma parse_lines_grid_kept (lines : list string) :
  forall st st',
    Forall no_grid_unit lines -> parse_lines st lines = Ok st' ->
    grid_unit (st_spec st') = grid_unit (st_spec st).
Proof.
  induction lines as [|l ls IH]; simpl; intros st st' Hno H.
  - injection H as H. now subst.
  - inversion Hno as [|? ? Hl Hls]. subst.
    apply bind_ok in H. destruct H as [st1 [H1 H]].
    rewrite (IH _ _ Hls H). now apply (parse_line_grid_kept st l).
Qed.

Lemma parse_line_grid_set (st : pstate) (raw : string) (st' : pstate)
  (m : captures) (v : string) :
  re_match GRID_UNIT_RE (PyStr.strip raw) = Some m -> group m 1 = Some v ->
  parse_line st raw = Ok st' ->
  float_of_str v = Ok (grid_unit (st_spec st')).
Proof.
  intros Hm Hv H. unfold parse_line in H.
  destruct (re_match_lit_prefix _ _ _ _ Hm) as [rest E].
  assert (Hne : negb (nonempty (PyStr.strip raw))
                || PyStr.startswith (PyStr.strip raw) "#" = false)
    by (rewrite E; reflexivity).
  assert (Hc : re_match COMPONENT_RE (PyStr.strip raw) = None)
    by (rewrite E; reflexivity).
  rewrite Hne, Hc, Hm in H. unfold py_float in H. rewrite Hv in H.
  apply bind_ok in H. destruct H as [g [Hg H]]. injection H as H.
  subst st'. simpl. exact Hg.
Qed.

(** X3.  The grid unit of the parsed document is [4.0] when the text has
    no [GLOBAL grid_unit] statement, and otherwise the number of the last
    such statement, wherever that statement stands: inside a component
    block or a skip block as well. *)
Theorem grid_unit_last_statement :
  forall content spec,
    parse_dsl content = Ok spec ->
    (Forall no_grid_unit (PyStr.split_lines content) ->
     grid_unit spec = 4%float)
    /\ (forall pre l post m v,
          PyStr.split_lines content = (pre ++ l :: post)%list ->
          re_match GRID_UNIT_RE (PyStr.strip l) = Some m ->
          group m 1 = Some v ->
          Forall no_grid_unit post ->
          float_of_str v = Ok (grid_unit spec)).
Proof.
  intros content spec H. unfold parse_dsl in H.
  apply bind_ok in H. destruct H as [st [Hst H]]. injection H as H.
  subst spec. split.
  - intros Hno. now rewrite (parse_lines_grid_kept _ _ _ Hno Hst).
  - intros pre l post m v E Hm Hv Hno. rewrite E in Hst.
    apply parse_lines_app in Hst. destruct Hst as [st1 [_ Hst]].
    simpl in Hst. apply bind_ok in Hst. destruct Hst as [st2 [H2 Hpost]].
    rewrite (parse_lines_grid_kept _ _ _ Hno Hpost).
    exact (parse_line_grid_set _ _ _ _ _ Hm Hv H2).
Qed.

Lemma grid_unit_last_statement_witness :
  float_of_str "8.5" = Ok 8.5%float.
Proof.
  refine (proj2 (grid_unit_last_statement
                   (text ["GLOBAL grid_unit 2"; "GLOBAL shape {";
                          "  GLOBAL grid_unit 8.5"; "COMPONENT x {"])
                   (mkSpec [("x", new_Component "x")] 8.5%float) _)
            ["GLOBAL grid_unit 2"; "GLOBAL shape {"]
            "  GLOBAL grid_unit 8.5" ["COMPONENT x {"]
            [(1%nat, "8.5")] "8.5" _ _ _ _).
  - vm_compute. reflexivity.
  - vm_compute. reflexivity.
  - vm_compute. reflexivity.
  - reflexivity.
  - unfold no_grid_unit. forall_by_computation.
Defined.

(** ** Invariants of the parsed components *)

Lemma apply_match_name (c : Component) (attr : string) (cv : conv)
  (m : captures) (c' : Component) :
  String.eqb attr "name" = false ->
  apply_match c attr cv m = Ok c' -> name c' = name c.
Proof.
  intros Hattr H. apply apply_match_inv in H.
  destruct H as [c1 [[E1|[v [_ E1]]] [E|[t [_ [_ E]]]]]]; subst; simpl;
    rewrite ?Hattr; reflexivity.
Qed.

Lemma apply_props_name (c : Component) (line : string) (c' : Component) :
  apply_props COMPONENT_PROPS c line = Ok c' -> name c' = name c.
Proof.
  intros H. apply apply_props_inv in H.
  destruct H as [E|[p [attr [cv [m [Hin [_ H]]]]]]]; [now subst|].
  table_cases Hin; (eapply apply_match_name; [|exact H]; reflexivity).
Qed.

Lemma parse_lines_names (lines : list string) :
  forall st st',
    (forall k c, In (k, c) (components (st_spec st)) -> name c = k) ->
    parse_lines st lines = Ok st' ->
    forall k c, In (k, c) (components (st_spec st')) -> name c = k.
Proof.
  induction lines as [|l ls IH]; simpl; intros st st' Hall H.
  - injection H as H. now subst.
  - apply bind_ok in H. destruct H as [st1 [H1 H]].
    apply (IH st1 st'); [|exact H].
    destruct (parse_line_cases _ _ _ H1)
      as [[E _]|[[n [_ E]]|[key [c [c' [_ [_ [Hget [Hc' E]]]]]]]]].
    + now rewrite E.
    + subst st1. simpl. intros k c Hin.
      destruct (dict_set_in _ _ _ _ _ Hin) as [[Ek Ec]|Hin'];
        [now subst | now apply Hall].
    + subst st1. simpl. intros k c0 Hin.
      destruct (dict_set_in _ _ _ _ _ Hin) as [[Ek Ec]|Hin'];
        [|now apply Hall].
      subst k c0. rewrite (apply_props_name _ _ _ Hc').
      apply Hall. now apply dict_get_in.
Qed.

(** X4.  Every component of the parsed document carries, in its [name]
    field, the key it is stored under: no property line can rename a
    component. *)
Theorem component_name_is_key :
  forall content spec,
    parse_dsl content = Ok spec ->
    forall k c, In (k, c) (components spec) -> name c = k.
Proof.
  intros content spec H. unfold parse_dsl in H.
  apply bind_ok in H. destruct H as [st [Hst H]]. injection H as H.
  subst spec. apply (parse_lines_names (PyStr.split_lines content) initial_state st);
    [|exact Hst].
  intros k c [].
Qed.

Lemma component_name_is_key_witness :
  name (setattr_float (new_Component "fab") "size_exact" 56%float) = "fab".
Proof.
  refine (component_name_is_key
            (text ["COMPONENT fab {"; "size EXACT 56"; "}"])
            (mkSpec [("fab", setattr_float (new_Component "fab")
                               "size_exact" 56%float)] 4%float)
            _ "fab" _ _).
  - vm_compute. reflexivity.
  - left. reflexivity.
Defined.

Lemma digit_val_nonneg (c : ascii) :
  PyStr.is_digit c = true -> 0 <= digit_val c <= 9.
Proof.
  unfold PyStr.is_digit, digit_val. cbv zeta. intros H.
  apply andb_prop in H. destruct H as [H1 H2].
  apply N.leb_le in H1. apply N.leb_le in H2.
  unfold PyStr.code in *. revert H1 H2. generalize (N_of_ascii c).
  intros n H1 H2. lia.
Qed.

Lemma digits_to_Z_nonneg (s : string) :
  forall acc,
    PyStr.all_chars PyStr.is_digit s = true -> 0 <= acc ->
    0 <= digits_to_Z acc s.
Proof.
  induction s as [|c s IH]; cbn [digits_to_Z PyStr.all_chars];
    intros acc H Hacc; [exact Hacc|].
  apply andb_prop in H. destruct H as [Hc Hs].
  apply IH; [exact Hs|]. pose proof (digit_val_nonneg c Hc). lia.
Qed.

Lemma py_int_or_0_nonneg (x : option string) (t : Z) :
  py_int_or_0 x = Ok t -> 0 <= t.
Proof.
  destruct x as [[|c s]|]; cbn [py_int_or_0]; intros H;
    try (injection H as H; lia).
  unfold int_of_str in H.
  destruct (is_digits (String c s)) eqn:Hd; [|discriminate].
  destruct (int_max_str_digits <? String.length (String c s))%nat;
    [discriminate|].
  injection H as H. subst t.
  unfold is_digits in Hd. apply andb_prop in Hd. destruct Hd as [_ Hd].
  apply (digits_to_Z_nonneg (String c s) 0 Hd). lia.
Qed.

Lemma apply_match_tolerances (c : Component) (attr : string) (cv : conv)
  (m : captures) (c' : Component) :
  0 <= height_tolerance c /\ 0 <= size_tolerance c ->
  apply_match c attr cv m = Ok c' ->
  0 <= height_tolerance c' /\ 0 <= size_tolerance c'.
Proof.
  intros [Hh Hs] H. apply apply_match_inv in H.
  destruct H as [c1 [H1 [E|[t [_ [Ht E]]]]]].
  - subst c'. destruct H1 as [E1|[v [_ E1]]]; subst c1; simpl; auto.
  - apply py_int_or_0_nonneg in Ht. subst c'.
    assert (H1' : height_tolerance c1 = height_tolerance c
                  /\ size_tolerance c1 = size_tolerance c)
      by (destruct H1 as [E1|[v [_ E1]]]; subst c1; simpl; auto).
    destruct H1' as [Eh Es]. simpl.
    destruct (String.eqb _ "height_tolerance");
      destruct (String.eqb _ "size_tolerance"); split; lia.
Qed.

(** X5.  The two tolerance fields of every parsed component are
    non-negative integers: a tolerance is [0] by default and otherwise the
    value of a run of decimal digits. *)
Theorem tolerances_non_negative :
  forall content spec,
    parse_dsl content = Ok spec ->
    forall k c,
      In (k, c) (components spec) ->
      0 <= height_tolerance c /\ 0 <= size_tolerance c.
Proof.
  intros content spec H. unfold parse_dsl in H.
  apply bind_ok in H. destruct H as [st [Hst H]]. injection H as H.
  subst spec.
  refine (parse_lines_all_components
            (fun c => 0 <= height_tolerance c /\ 0 <= size_tolerance c)
            (fun _ => True) _ _ _ initial_state st _ _ Hst).
  - intros n. simpl. lia.
  - intros c line c' _ Hc Hp. apply apply_props_inv in Hp.
    destruct Hp as [E|[p [attr [cv [m [_ [_ Hp]]]]]]]; [now subst|].
    exact (apply_match_tolerances _ _ _ _ _ Hc Hp).
  - apply Forall_forall. auto.
  - intros k c [].
Qed.

Lemma tolerances_non_negative_witness :
  0 <= height_tolerance
         (setattr_int (setattr_float (new_Component "x") "height_exact"
                         56%float) "height_tolerance" 2)
  /\ 0 <= size_tolerance
            (setattr_int (setattr_float (new_Component "x") "height_exact"
                            56%float) "height_tolerance" 2).
Proof.
  refine (tolerances_non_negative
            (block "x" ("height EXACT 56 " ++ PLUS_MINUS ++ "2"))
            (mkSpec [("x", setattr_int
                             (setattr_float (new_Component "x")
                                "height_exact" 56%float)
                             "height_tolerance" 2)] 4%float)
            _ "x" _ _).
  - vm_compute. reflexivity.
  - left. reflexivity.
Defined.

(** ** Which components a document has *)

Lemma eqb_sym_s (a b : string) : String.eqb a b = String.eqb b a.
Proof.
  destruct (String.eqb a b) eqn:E.
  - apply String.eqb_eq in E. subst. symmetry. apply String.eqb_refl.
  - symmetry. apply String.eqb_neq. apply String.eqb_neq in E. congruence.
Qed.

Lemma dict_keys_set_add {V : Type} (d : dict V) (k : string) (v : V) :
  dict_keys (dict_set d k v) = add_name (dict_keys d) k.
Proof.
  unfold add_name.
  induction d as [|[k' v'] d IH]; simpl; [reflexivity|].
  rewrite (eqb_sym_s k k').
  destruct (String.eqb k' k) eqn:E; simpl.
  - apply String.eqb_eq in E. now subst.
  - rewrite IH. destruct (existsb (String.eqb k) (dict_keys d)); reflexivity.
Qed.

Lemma dict_keys_set_present {V : Type} (d : dict V) (k : string) (v v0 : V) :
  dict_get d k = Some v0 -> dict_keys (dict_set d k v) = dict_keys d.
Proof.
  induction d as [|[k' v'] d IH]; simpl; [discriminate|].
  destruct (String.eqb k' k) eqn:E; simpl; intros H.
  - apply String.eqb_eq in E. now subst.
  - f_equal. now apply IH.
Qed.

Lemma declares_declared_name (n raw : string) :
  declares n raw <-> declared_name raw = Some n.
Proof.
  unfold declares, declared_name. split.
  - intros [m [Hm Hg]]. now rewrite Hm.
  - destruct (re_match COMPONENT_RE (PyStr.strip raw)) as [m|];
      [|discriminate].
    intros H. eauto.
Qed.

Lemma parse_line_header (st : pstate) (raw n : string) :
  declared_name raw = Some n ->
  parse_line st raw
  = Ok (mkState
          (mkSpec (dict_set (components (st_spec st)) n (new_Component n))
             (grid_unit (st_spec st)))
          (Some n) (current_block st)).
Proof.
  unfold declared_name. intros Hd.
  destruct (re_match COMPONENT_RE (PyStr.strip raw)) as [m|] eqn:Hm;
    [|discriminate].
  destruct (re_match_lit_prefix _ _ _ _ Hm) as [rest E].
  assert (Hne : negb (nonempty (PyStr.strip raw))
                || PyStr.startswith (PyStr.strip raw) "#" = false)
    by (rewrite E; reflexivity).
  unfold parse_line. now rewrite Hne, Hm, Hd.
Qed.

Lemma parse_line_keys (st : pstate) (raw : string) (st' : pstate) :
  parse_line st raw = Ok st' ->
  dict_keys (components (st_spec st'))
  = match declared_name raw with
    | Some n => add_name (dict_keys (components (st_spec st))) n
    | None => dict_keys (components (st_spec st))
    end.
Proof.
  intros H. destruct (declared_name raw) as [n|] eqn:Hd.
  - rewrite (parse_line_header st raw n Hd) in H. injection H as H.
    subst st'. simpl. apply dict_keys_set_add.
  - apply parse_line_cases in H.
    destruct H as [[E _]|[[n [Hn E]]|[key [c [c' [_ [_ [Hget [_ E]]]]]]]]].
    + now rewrite E.
    + apply declares_declared_name in Hn. congruence.
    + subst st'. simpl. apply (dict_keys_set_present _ _ _ _ Hget).
Qed.

Lemma fold_add_name_app (a b : list string) (ks : list string) :
  fold_left add_name (a ++ b) ks
  = fold_left add_name b (fold_left add_name a ks).
Proof. apply fold_left_app. Qed.

Lemma parse_lines_keys (lines : list string) :
  forall st st',
    parse_lines st lines = Ok st' ->
    dict_keys (components (st_spec st'))
    = fold_left add_name (declared_names lines)
        (dict_keys (components (st_spec st))).
Proof.
  induction lines as [|l ls IH]; simpl; intros st st' H.
  - injection H as H. now subst.
  - apply bind_ok in H. destruct H as [st1 [H1 H]].
    rewrite (IH _ _ H). rewrite (parse_line_keys _ _ _ H1).
    rewrite fold_add_name_app.
    destruct (declared_name l); reflexivity.
Qed.

(** X6.  The keys of the parsed document are exactly the names of the
    [COMPONENT] header lines of the text, each once, in the order in which
    the names are first declared: a component is never removed, and
    declaring a name again keeps its place. *)
Theorem components_are_declared_names :
  forall content spec,
    parse_dsl content = Ok spec ->
    dict_keys (components spec)
    = first_occurrences (declared_names (PyStr.split_lines content)).
Proof.
  intros content spec H. unfold parse_dsl in H.
  apply bind_ok in H. destruct H as [st [Hst H]]. injection H as H.
  subst spec. exact (parse_lines_keys _ _ _ Hst).
Qed.

Lemma components_are_declared_names_witness :
  dict_keys [("b", new_Component "b"); ("a", new_Component "a")]
  = first_occurrences
      (declared_names
         (PyStr.split_lines
            (text ["COMPONENT b {"; "}"; "GLOBAL shape {"; "COMPONENT a {";
                   "# COMPONENT c {"; "COMPONENT b{"]))).
Proof.
  refine (components_are_declared_names
            (text ["COMPONENT b {"; "}"; "GLOBAL shape {"; "COMPONENT a {";
                   "# COMPONENT c {"; "COMPONENT b{"])
            (mkSpec [("b", new_Component "b"); ("a", new_Component "a")]
               4%float) _).
  vm_compute. reflexivity.
Defined.

(** ** What a line can change *)

Lemma parse_lines_frame (k : string) (lines : list string) :
  forall st st',
    Forall (fun l => ~ declares k l) lines ->
    current_component st <> Some k ->
    parse_lines st lines = Ok st' ->
    dict_get (components (st_spec st')) k
    = dict_get (components (st_spec st)) k
    /\ current_component st' <> Some k.
Proof.
  induction lines as [|l ls IH]; simpl; intros st st' Hno Hcur H.
  - injection H as H. now subst.
  - inversion Hno as [|? ? Hl Hls]. subst.
    apply bind_ok in H. destruct H as [st1 [H1 H]].
    assert (H1' : dict_get (components (st_spec st1)) k
                  = dict_get (components (st_spec st)) k
                  /\ current_component st1 <> Some k).
    { destruct (parse_line_cases _ _ _ H1)
        as [[E Ec]|[[n [Hd E]]|[key [c0 [c' [Hk [_ [_ [_ E]]]]]]]]].
      - rewrite E. split; [reflexivity|].
        destruct Ec as [Ec|Ec]; rewrite Ec; [exact Hcur | discriminate].
      - assert (Hn : k <> n) by (intros Heq; subst n; exact (Hl Hd)).
        subst st1. simpl. split; [now rewrite dict_get_set_other|].
        intros Heq. injection Heq as Heq. congruence.
      - assert (Hn : k <> key) by (intros Heq; subst key; congruence).
        subst st1. simpl. split; [now rewrite dict_get_set_other|].
        exact Hcur. }
    destruct H1' as [E1 C1].
    destruct (IH _ _ Hls C1 H) as [E2 C2]. split; [congruence | exact C2].
Qed.

(** X7.  A component is changed only while it is the open one: if, after
    the first part of the text, [k] is not the current component, and the
    rest of the text does not declare [k] again, then the entry of [k] in
    the parsed document is the one it had after the first part (or [k] is
    absent from both).  Property lines that follow the closing brace of a
    block never reach the component of that block. *)
Theorem closed_component_untouched :
  forall content spec k pre post st1,
    PyStr.split_lines content = (pre ++ post)%list ->
    parse_lines initial_state pre = Ok st1 ->
    current_component st1 <> Some k ->
    Forall (fun l => ~ declares k l) post ->
    parse_dsl content = Ok spec ->
    dict_get (components spec) k = dict_get (components (st_spec st1)) k.
Proof.
  intros content spec k pre post st1 E H1 Hcur Hno H.
  unfold parse_dsl in H. rewrite E in H.
  apply bind_ok in H. destruct H as [st [Hst H]]. injection H as H.
  subst spec. apply parse_lines_app in Hst.
  destruct Hst as [st1' [H1' Hpost]].
  assert (st1' = st1) by congruence. subst st1'.
  exact (proj1 (parse_lines_frame k post _ _ Hno Hcur Hpost)).
Qed.

Lemma closed_component_untouched_witness :
  dict_get
    [("x", setattr_float (new_Component "x") "height_min" 40%float);
     ("y", setattr_float (new_Component "y") "height_min" 1%float)] "x"
  = dict_get
      [("x", setattr_float (new_Component "x") "height_min" 40%float)] "x".
Proof.
  refine (closed_component_untouched
            (text ["COMPONENT x {"; "height MIN 40"; "}"; "height MIN 50";
                   "COMPONENT y {"; "height MIN 1"])
            (mkSpec
               [("x", setattr_float (new_Component "x") "height_min"
                        40%float);
                ("y", setattr_float (new_Component "y") "height_min"
                        1%float)] 4%float)
            "x" ["COMPONENT x {"; "height MIN 40"; "}"]
            ["height MIN 50"; "COMPONENT y {"; "height MIN 1"]
            (mkState
               (mkSpec
                  [("x", setattr_float (new_Component "x") "height_min"
                           40%float)] 4%float) None None)
            _ _ _ _ _).
  - vm_compute. reflexivity.
  - vm_compute. reflexivity.
  - discriminate.
  - repeat (apply Forall_cons;
            [intros [m [Hm Hg]]; vm_compute in Hm; try discriminate Hm;
             injection Hm as Hm; subst m; discriminate Hg|]).
    apply Forall_nil.
  - vm_compute. reflexivity.
Defined.

(** * Further properties of the compliance checks *)

Lemma mapping_of_in (table : dict (dict (string * Z))) (cname : string)
  (e : string * (string * Z)) :
  In e (mapping_of table cname) ->
  exists m, In (cname, m) table /\ In e m.
Proof.
  unfold mapping_of.
  destruct (dict_get table cname) as [m|] eqn:E; [|intros []].
  intros H. exists m. split; [now apply dict_get_in | exact H].
Qed.

Lemma md3_check_items_in (spec : Spec) (items : list check_item)
  (k : check_item) :
  md3_check_items spec = Ok items -> In k items ->
  exists comp e,
    In (chk_component k, comp) (components spec)
    /\ In e (mapping_of SPEC_CONST_MAP (chk_component k))
    /\ passes comp e = true
    /\ k = item_of (chk_component k) e.
Proof.
  rewrite md3_check_items_spec. intros H Hin. injection H as H. subst items.
  apply in_flat_map in Hin. destruct Hin as [[cname comp] [Hc Hin]].
  apply in_map_iff in Hin. destruct Hin as [e [Ek He]].
  apply filter_In in He. destruct He as [He Hp]. simpl in *.
  subst k. simpl. exists comp, e. auto.
Qed.

Lemma table_attrs_known :
  forallb (fun km =>
             forallb (fun e =>
                        existsb (String.eqb (fst e)) CHECKED_ATTRS
                        || negb (existsb (String.eqb (fst e))
                                   ["name"; "height_min"; "height_exact";
                                    "height_tolerance"; "size_exact";
                                    "size_tolerance"; "touch_target";
                                    "corner_radius"; "corner_radius_token";
                                    "track_height"; "track_width";
                                    "thumb_size"; "icon_size"; "padding_h"]))
               (snd km))
    SPEC_CONST_MAP = true.
Proof. vm_compute. reflexivity. Qed.

Lemma existsb_eqb_in (a : string) (l : list string) :
  existsb (String.eqb a) l = true <-> In a l.
Proof.
  rewrite existsb_exists. split.
  - intros [x [Hx E]]. apply String.eqb_eq in E. now subst.
  - intros H. exists a. split; [exact H | apply String.eqb_refl].
Qed.

(** An attribute that is no field of the class reads as [None]. *)
Lemma getattr_not_a_field (comp : Component) (attr : string) :
  existsb (String.eqb attr)
    ["name"; "height_min"; "height_exact"; "height_tolerance"; "size_exact";
     "size_tolerance"; "touch_target"; "corner_radius";
     "corner_radius_token"; "track_height"; "track_width"; "thumb_size";
     "icon_size"; "padding_h"] = false ->
  getattr comp attr = None.
Proof.
  cbn [existsb]. intros H.
  repeat (apply orb_false_elim in H; destruct H as [?E H]).
  unfold getattr. now rewrite E, E0, E1, E2, E3, E4, E5, E6, E7, E8, E9, E10,
    E11, E12.
Qed.

Lemma table_entry_attr (cname : string) (e : string * (string * Z)) :
  In e (mapping_of SPEC_CONST_MAP cname) ->
  In (fst e) CHECKED_ATTRS \/ forall comp, getattr comp (fst e) = None.
Proof.
  intros H. destruct (mapping_of_in _ _ _ H) as [m [Hm He]].
  pose proof table_attrs_known as T.
  rewrite forallb_forall in T. specialize (T _ Hm). simpl in T.
  rewrite forallb_forall in T. specialize (T _ He).
  apply orb_prop in T. destruct T as [T|T].
  - left. now apply existsb_eqb_in.
  - right. intros comp. apply getattr_not_a_field.
    now apply negb_true_iff in T.
Qed.

(** X8.  Only the seven attributes of [SPEC_CONST_MAP] that are fields of
    [Component] ever yield a check.  The entries [min_width], [width_exact]
    and [item_height] name no field, [getattr] reads them as [None], and so
    no document makes the generator emit a check for them: none at all for
    [dialog], [nav_rail] and [nav_drawer]. *)
Theorem checks_only_for_component_fields :
  forall spec items k,
    md3_check_items spec = Ok items -> In k items ->
    In (chk_attr k) CHECKED_ATTRS
    /\ ~ In (chk_component k) ["dialog"; "nav_rail"; "nav_drawer"].
Proof.
  intros spec items k H Hin.
  destruct (md3_check_items_in _ _ _ H Hin) as [comp [e [_ [He [Hp Ek]]]]].
  assert (Hattr : chk_attr k = fst e) by (rewrite Ek; reflexivity).
  assert (Ha : In (chk_attr k) CHECKED_ATTRS).
  { rewrite Hattr. destruct (table_entry_attr _ _ He) as [Ha|Hn];
      [exact Ha|].
    unfold passes in Hp. rewrite (Hn comp) in Hp. discriminate. }
  split; [exact Ha|].
  intros Hd. destruct (mapping_of_in _ _ _ He) as [m [Hm Hem]].
  rewrite Hattr in Ha.
  assert (Hb : forallb (fun km =>
                          negb (existsb (String.eqb (fst km))
                                  ["dialog"; "nav_rail"; "nav_drawer"])
                          || forallb (fun e =>
                                        negb (existsb (String.eqb (fst e))
                                                CHECKED_ATTRS)) (snd km))
                 SPEC_CONST_MAP = true) by (vm_compute; reflexivity).
  rewrite forallb_forall in Hb. specialize (Hb _ Hm). simpl fst in Hb.
  simpl snd in Hb. apply orb_prop in Hb. destruct Hb as [Hb|Hb].
  - apply negb_true_iff in Hb. apply existsb_eqb_in in Hd. congruence.
  - rewrite forallb_forall in Hb. specialize (Hb _ Hem).
    apply negb_true_iff in Hb. apply existsb_eqb_in in Ha. congruence.
Qed.

Lemma checks_only_for_component_fields_witness :
  In "height_min" CHECKED_ATTRS
  /\ ~ In "button" ["dialog"; "nav_rail"; "nav_drawer"].
Proof.
  refine (checks_only_for_component_fields
            (mkSpec [("dialog", new_Component "dialog");
                     ("button",
                      setattr_float (new_Component "button") "height_min"
                        40%float)] 4%float)
            [mkCheck "button" "height_min" "IUI_BUTTON_HEIGHT" 40]
            (mkCheck "button" "height_min" "IUI_BUTTON_HEIGHT" 40) _ _).
  - vm_compute. reflexivity.
  - left. reflexivity.
Defined.

(** ** One line per check *)

Lemma split_lines_no_newline (s : string) :
  no_newline s = true -> PyStr.split_lines s = [s].
Proof.
  induction s as [|c s IH]; simpl; [reflexivity|].
  intros H. apply andb_prop in H. destruct H as [Hc Hs].
  apply negb_true_iff in Hc. rewrite Hc. now rewrite (IH Hs).
Qed.

Lemma split_lines_app_newline (p rest : string) :
  no_newline p = true ->
  PyStr.split_lines (p ++ NL ++ rest) = p :: PyStr.split_lines rest.
Proof.
  induction p as [|c p IH]; simpl; [reflexivity|].
  intros H. apply andb_prop in H. destruct H as [Hc Hs].
  apply negb_true_iff in Hc. rewrite Hc.
  change (String "010" rest) with (NL ++ rest). now rewrite (IH Hs).
Qed.

Lemma split_lines_join (ls : list string) :
  ls <> [] -> Forall (fun l => no_newline l = true) ls ->
  PyStr.split_lines (PyStr.join NL ls) = ls.
Proof.
  induction ls as [|p ls IH]; [congruence|]. intros _ H.
  inversion H as [|? ? Hp Hls]. subst.
  destruct ls as [|q ls].
  - simpl. now apply split_lines_no_newline.
  - change (PyStr.join NL (p :: q :: ls))
      with (p ++ NL ++ PyStr.join NL (q :: ls)).
    rewrite (split_lines_app_newline _ _ Hp). f_equal.
    apply IH; [discriminate | exact Hls].
Qed.

Lemma table_items_one_line :
  forallb (fun k => no_newline (render_check k)) table_items = true.
Proof. vm_compute. reflexivity. Qed.

Lemma md3_check_items_table (spec : Spec) (items : list check_item)
  (k : check_item) :
  md3_check_items spec = Ok items -> In k items -> In k table_items.
Proof.
  intros H Hin.
  destruct (md3_check_items_in _ _ _ H Hin) as [comp [e [_ [He [_ Ek]]]]].
  destruct (mapping_of_in _ _ _ He) as [m [Hm Hem]].
  unfold table_items. apply in_flat_map.
  exists (chk_component k, m). split; [exact Hm|].
  simpl. rewrite Ek at 1. now apply in_map.
Qed.

(** X9.  The text [generate_md3_checks] returns has exactly one line per
    emitted check, in order: split at the newlines it gives back the
    rendered checks; and it is the empty string exactly when no check is
    emitted, the case [run_md3_tests] reports as an error. *)
Theorem checks_text_one_line_per_check :
  forall spec,
    exists items code,
      md3_check_items spec = Ok items
      /\ generate_md3_checks spec = Ok code
      /\ (code = "" <-> items = [])
      /\ (items <> [] ->
          PyStr.split_lines code = map render_check items).
Proof.
  intros spec. pose proof (md3_check_items_spec spec) as Hs.
  remember (flat_map _ (components spec)) as items eqn:Ei. clear Ei.
  exists items, (PyStr.join NL (map render_check items)).
  split; [exact Hs|]. split.
  { unfold generate_md3_checks. rewrite Hs. reflexivity. }
  assert (Hline : Forall (fun l => no_newline l = true)
                    (map render_check items)).
  { apply Forall_forall. intros l Hl. apply in_map_iff in Hl.
    destruct Hl as [k [Ek Hk]]. subst l.
    pose proof table_items_one_line as T. rewrite forallb_forall in T.
    apply T. exact (md3_check_items_table _ _ _ Hs Hk). }
  split.
  - split.
    + destruct items as [|k [|k' items]]; [reflexivity| |];
        simpl; intros H; discriminate H.
    + intros E. now subst.
  - intros Hne. apply split_lines_join; [|exact Hline].
    destruct items; [congruence | discriminate].
Qed.

(** ** What the generator reads *)

Lemma passes_same_checked (c1 c2 : Component) (cname : string)
  (e : string * (string * Z)) :
  checked_fields c1 = checked_fields c2 ->
  In e (mapping_of SPEC_CONST_MAP cname) ->
  passes c1 e = passes c2 e.
Proof.
  intros Hc He. unfold passes.
  destruct (table_entry_attr _ _ He) as [Ha|Hn].
  - unfold checked_fields in Hc. injection Hc as E1 E2 E3 E4 E5 E6 E7.
    assert (Eg : getattr c1 (fst e) = getattr c2 (fst e)).
    { simpl in Ha.
      repeat (destruct Ha as [Ha|Ha];
              [rewrite <- Ha; unfold getattr; simpl; congruence|]).
      contradiction. }
    now rewrite Eg.
  - now rewrite (Hn c1), (Hn c2).
Qed.

(** X10.  The generator reads seven fields of each component and nothing
    else: two documents with the same keys in the same order whose
    components agree on [height_min], [height_exact], [size_exact],
    [corner_radius], [track_height], [track_width] and [icon_size] yield the
    same checks.  The tolerances parsed from [EXACT] lines, [touch_target],
    [thumb_size], [padding_h], the corner radius token and the grid unit
    never influence the result. *)
Theorem checks_read_seven_fields :
  forall d1 d2 g1 g2,
    Forall2 same_checked d1 d2 ->
    generate_md3_checks (mkSpec d1 g1) = generate_md3_checks (mkSpec d2 g2).
Proof.
  intros d1 d2 g1 g2 H. unfold generate_md3_checks.
  rewrite !md3_check_items_spec. simpl components.
  assert (E : flat_map (fun kc => map (item_of (fst kc))
                                    (filter (passes (snd kc))
                                       (mapping_of SPEC_CONST_MAP (fst kc))))
                d1
              = flat_map (fun kc => map (item_of (fst kc))
                                      (filter (passes (snd kc))
                                         (mapping_of SPEC_CONST_MAP (fst kc))))
                  d2).
  { induction H as [|[k1 c1] [k2 c2] d1 d2 [Ek Ec] _ IH]; [reflexivity|].
    simpl in *. subst k2. rewrite IH. f_equal. f_equal.
    apply filter_ext_in. intros e He.
    exact (passes_same_checked c1 c2 k1 e Ec He). }
  now rewrite E.
Qed.

Lemma checks_read_seven_fields_witness :
  generate_md3_checks
    (mkSpec [("nav_bar",
              setattr_int
                (setattr_float (new_Component "nav_bar") "height_exact"
                   80%float) "height_tolerance" 30)] 4%float)
  = generate_md3_checks
      (mkSpec [("nav_bar",
                setattr_float
                  (setattr_float (new_Component "nav_bar") "height_exact"
                     80%float) "touch_target" 48%float)] 8%float).
Proof.
  apply checks_read_seven_fields.
  apply Forall2_cons; [|apply Forall2_nil].
  split; reflexivity.
Defined.

(** * Further properties of the image comparison *)

Lemma similarity_of_ok (total d : Z) :
  Z.abs total < 2 ^ 64 -> Z.abs (total - d) < 2 ^ 64 ->
  exists s, similarity_of total d = Ok s.
Proof.
  intros Ht Hd. unfold similarity_of.
  destruct (total >? 0); [|eauto].
  destruct (float_of_int_ok _ Hd) as [a Ha].
  destruct (float_of_int_ok _ Ht) as [b Hb].
  rewrite Ha, Hb. simpl. eauto.
Qed.

Lemma compare_images_same_size (w h : Z) (px1 px2 : list pixel) (t : Z) :
  compare_images (w, h, px1) (w, h, px2) t
  = (similarity <- similarity_of (w * h) (count_diff t px1 px2) ;;
     Ok (count_diff t px1 px2 =? 0, similarity, count_diff t px1 px2)).
Proof. unfold compare_images. now rewrite !Z.eqb_refl. Qed.

Lemma count_diff_bounds (t : Z) (px1 px2 : list pixel) :
  0 <= count_diff t px1 px2
  <= Z.of_nat (Nat.min (List.length px1) (List.length px2)).
Proof.
  rewrite count_diff_filter.
  pose proof (filter_length_le (pixel_differs t) (combine px1 px2)) as H.
  rewrite length_combine in H. lia.
Qed.

Lemma valid_raster_total (w h : Z) (px : list pixel) :
  valid_raster (w, h, px) -> 0 <= w * h < 2 ^ 64.
Proof. intros [Hw [Hh _]]. nia. Qed.

Lemma pixel_differs_self (t : Z) (p : pixel) :
  0 <= t -> pixel_differs t (p, p) = false.
Proof.
  intros Ht. unfold pixel_differs. simpl.
  induction p as [|c p IH]; simpl; [reflexivity|].
  rewrite IH. unfold channel_differs. simpl.
  rewrite Z.sub_diag. simpl. destruct (Z.gtb_spec 0 t); [lia | reflexivity].
Qed.

Lemma count_diff_self (t : Z) (px : list pixel) :
  0 <= t -> count_diff t px px = 0.
Proof.
  intros Ht. rewrite count_diff_filter.
  induction px as [|p px IH]; simpl; [reflexivity|].
  rewrite (pixel_differs_self t p Ht). exact IH.
Qed.

(** X11.  With a non-negative tolerance every decoded image matches
    itself: comparing a valid raster with itself gives [match = True] and
    no differing pixel. *)
Theorem compare_images_reflexive :
  forall w h px t,
    0 <= t -> valid_raster (w, h, px) ->
    exists s, compare_images (w, h, px) (w, h, px) t = Ok (true, s, 0).
Proof.
  intros w h px t Ht Hv. rewrite compare_images_same_size.
  rewrite (count_diff_self t px Ht).
  pose proof (valid_raster_total _ _ _ Hv) as Hb.
  destruct (similarity_of_ok (w * h) 0) as [s Hs]; [lia | lia |].
  rewrite Hs. simpl. eauto.
Qed.

Lemma compare_images_reflexive_witness :
  exists s,
    compare_images (1, 2, [[1; 2; 3; 4]; [5; 6; 7; 8]])
      (1, 2, [[1; 2; 3; 4]; [5; 6; 7; 8]]) 0
    = Ok (true, s, 0).
Proof.
  apply compare_images_reflexive; [lia|].
  simpl. repeat split; lia.
Defined.

Lemma pixel_differs_negative (t : Z) (p1 p2 : pixel) :
  t < 0 -> rgba8 p1 -> rgba8 p2 -> pixel_differs t (p1, p2) = true.
Proof.
  intros Ht [r1 [g1 [b1 [a1 [E1 _]]]]] [r2 [g2 [b2 [a2 [E2 _]]]]].
  subst. unfold pixel_differs. simpl. unfold channel_differs at 1. simpl.
  destruct (Z.gtb_spec (Z.abs (r1 - r2)) t); [reflexivity | lia].
Qed.

Lemma count_diff_negative (t : Z) (px1 : list pixel) :
  t < 0 -> Forall rgba8 px1 ->
  forall px2,
    Forall rgba8 px2 -> List.length px1 = List.length px2 ->
    count_diff t px1 px2 = Z.of_nat (List.length px1).
Proof.
  intros Ht H1.
  induction H1 as [|p1 px1 Hp1 _ IH]; intros px2 H2 Hlen.
  - now rewrite count_diff_filter.
  - destruct px2 as [|p2 px2]; [discriminate|].
    inversion H2 as [|? ? Hp2 H2']. subst.
    rewrite count_diff_filter. simpl combine. simpl filter.
    rewrite (pixel_differs_negative t p1 p2 Ht Hp1 Hp2).
    simpl List.length. rewrite !Nat2Z.inj_succ.
    rewrite <- count_diff_filter.
    rewrite (IH px2 H2'); [lia|]. simpl in Hlen. lia.
Qed.

(** X12.  A negative tolerance rejects everything: [abs(c1 - c2)] is never
    below zero, so every pixel pair counts as differing, and two decoded
    images of equal, non-empty dimensions never match, not even an image
    and itself; the number of differing pixels is the number of pixels. *)
Theorem negative_tolerance_never_matches :
  forall w h px1 px2 t,
    t < 0 -> 0 < w * h ->
    valid_raster (w, h, px1) -> valid_raster (w, h, px2) ->
    Forall rgba8 px1 -> Forall rgba8 px2 ->
    exists s,
      compare_images (w, h, px1) (w, h, px2) t = Ok (false, s, w * h).
Proof.
  intros w h px1 px2 t Ht Hpos Hv1 Hv2 H1 H2.
  rewrite compare_images_same_size.
  pose proof (valid_raster_total _ _ _ Hv1) as Hb.
  destruct Hv1 as [_ [_ L1]]. destruct Hv2 as [_ [_ L2]].
  rewrite (count_diff_negative t px1 Ht H1 px2 H2) by lia.
  rewrite L1.
  destruct (similarity_of_ok (w * h) (w * h)) as [s Hs];
    [lia | rewrite Z.sub_diag; simpl; lia |].
  rewrite Hs. simpl. destruct (Z.eqb_spec (w * h) 0); [lia|]. eauto.
Qed.

Lemma negative_tolerance_never_matches_witness :
  exists s,
    compare_images (1, 1, [[9; 9; 9; 9]]) (1, 1, [[9; 9; 9; 9]]) (-1)
    = Ok (false, s, 1 * 1).
Proof.
  apply negative_tolerance_never_matches; try lia.
  - simpl. repeat split; lia.
  - simpl. repeat split; lia.
  - apply Forall_cons; [|apply Forall_nil].
    exists 9, 9, 9, 9. repeat split; lia.
  - apply Forall_cons; [|apply Forall_nil].
    exists 9, 9, 9, 9. repeat split; lia.
Defined.

Lemma filter_length_mono {A : Type} (f g : A -> bool) (l : list A) :
  (forall x, f x = true -> g x = true) ->
  (List.length (filter f l) <= List.length (filter g l))%nat.
Proof.
  intros H. induction l as [|x l IH]; simpl; [lia|].
  destruct (f x) eqn:Ef.
  - rewrite (H x Ef). simpl. lia.
  - destruct (g x); simpl; lia.
Qed.

Lemma pixel_differs_mono (t t' : Z) (pp : pixel * pixel) :
  t <= t' -> pixel_differs t' pp = true -> pixel_differs t pp = true.
Proof.
  intros Ht. unfold pixel_differs. rewrite !existsb_exists.
  intros [cc [Hin Hc]]. exists cc. split; [exact Hin|].
  unfold channel_differs in *.
  destruct (Z.gtb_spec (Z.abs (fst cc - snd cc)) t');
    [|discriminate].
  destruct (Z.gtb_spec (Z.abs (fst cc - snd cc)) t); [reflexivity | lia].
Qed.

Lemma compare_images_inv (img1 img2 : raster) (t : Z) (m : bool) (s : float)
  (d : Z) :
  compare_images img1 img2 t = Ok (m, s, d) ->
  (m = false /\ d = fst (fst img1) * snd (fst img1)
   /\ (fst (fst img1) <> fst (fst img2) \/ snd (fst img1) <> snd (fst img2)))
  \/ (fst (fst img1) = fst (fst img2) /\ snd (fst img1) = snd (fst img2)
      /\ d = count_diff t (snd img1) (snd img2) /\ m = (d =? 0)).
Proof.
  destruct img1 as [[w1 h1] px1]. destruct img2 as [[w2 h2] px2].
  unfold compare_images. simpl fst. simpl snd.
  destruct (Z.eqb_spec w1 w2) as [Ew|Ew]; simpl.
  2:{ intros H. injection H as H1 H2 H3. left. auto. }
  destruct (Z.eqb_spec h1 h2) as [Eh|Eh]; simpl.
  2:{ intros H. injection H as H1 H2 H3. left. auto. }
  intros H. apply bind_ok in H. destruct H as [s0 [_ H]].
  injection H as H1 H2 H3. right. subst. auto.
Qed.

(** X13.  Raising the tolerance never makes a comparison stricter: with
    [t <= t'] the number of differing pixels at [t'] is at most the number
    at [t], and images that match at [t] match at [t']. *)
Theorem compare_images_monotone :
  forall img1 img2 t t' m s d m' s' d',
    t <= t' ->
    compare_images img1 img2 t = Ok (m, s, d) ->
    compare_images img1 img2 t' = Ok (m', s', d') ->
    d' <= d /\ (m = true -> m' = true).
Proof.
  intros img1 img2 t t' m s d m' s' d' Ht H H'.
  apply compare_images_inv in H. apply compare_images_inv in H'.
  destruct H as [[Em [Ed Hne]]|[Ew [Eh [Ed Em]]]];
    destruct H' as [[Em' [Ed' Hne']]|[Ew' [Eh' [Ed' Em']]]].
  - subst. split; [lia | discriminate].
  - exfalso. tauto.
  - exfalso. tauto.
  - assert (Hle : d' <= d).
    { subst d d'. rewrite !count_diff_filter.
      apply inj_le. apply filter_length_mono.
      intros pp. now apply pixel_differs_mono. }
    split; [exact Hle|].
    pose proof (count_diff_bounds t' (snd img1) (snd img2)) as Hb.
    rewrite <- Ed' in Hb. subst m m'. intros E.
    apply Z.eqb_eq in E. apply Z.eqb_eq. lia.
Qed.

Lemma compare_images_monotone_witness :
  0 <= 1 /\ (false = true -> true = true).
Proof.
  refine (compare_images_monotone
            (1, 1, [[10; 0; 0; 0]]) (1, 1, [[12; 0; 0; 0]]) 1 2
            false 0%float 1 true 100%float 0 _ _ _).
  - lia.
  - vm_compute. reflexivity.
  - vm_compute. reflexivity.
Defined.

Lemma pixel_differs_swap (t : Z) (p1 p2 : pixel) :
  pixel_differs t (p1, p2) = pixel_differs t (p2, p1).
Proof.
  unfold pixel_differs. simpl. revert p2.
  induction p1 as [|c1 p1 IH]; intros [|c2 p2]; simpl; try reflexivity.
  rewrite IH. f_equal. unfold channel_differs. simpl.
  replace (c2 - c1) with (- (c1 - c2)) by lia. now rewrite Z.abs_opp.
Qed.

Lemma count_diff_swap (t : Z) (px1 px2 : list pixel) :
  count_diff t px1 px2 = count_diff t px2 px1.
Proof.
  rewrite !count_diff_filter. f_equal. revert px2.
  induction px1 as [|p1 px1 IH]; intros [|p2 px2]; simpl; try reflexivity.
  rewrite (pixel_differs_swap t p1 p2).
  destruct (pixel_differs t (p2, p1)); simpl; now rewrite IH.
Qed.

(** X14.  The comparison does not depend on which image comes first when
    the dimensions agree: the whole result is the same.  When they
    disagree both orders report a mismatch (only the third component, the
    pixel count of the first image, can differ). *)
Theorem compare_images_symmetric :
  forall w1 h1 px1 w2 h2 px2 t,
    (w1 = w2 -> h1 = h2 ->
     compare_images (w1, h1, px1) (w2, h2, px2) t
     = compare_images (w2, h2, px2) (w1, h1, px1) t)
    /\ (w1 <> w2 \/ h1 <> h2 ->
        compare_images (w1, h1, px1) (w2, h2, px2) t
        = Ok (false, 0%float, w1 * h1)
        /\ compare_images (w2, h2, px2) (w1, h1, px1) t
           = Ok (false, 0%float, w2 * h2)).
Proof.
  intros w1 h1 px1 w2 h2 px2 t. split.
  - intros Ew Eh. subst w2 h2. rewrite !compare_images_same_size.
    now rewrite (count_diff_swap t px1 px2).
  - intros Hne. unfold compare_images.
    destruct (Z.eqb_spec w1 w2) as [Ew|Ew];
      destruct (Z.eqb_spec w2 w1) as [Ew'|Ew']; try congruence;
      destruct (Z.eqb_spec h1 h2) as [Eh|Eh];
      destruct (Z.eqb_spec h2 h1) as [Eh'|Eh']; try congruence;
      simpl; try (split; reflexivity).
    exfalso. tauto.
Qed.

Lemma combine_common_prefix {A B : Type} (l1 : list A) (l2 : list B) :
  combine (firstn (Nat.min (List.length l1) (List.length l2)) l1)
    (firstn (Nat.min (List.length l1) (List.length l2)) l2)
  = combine l1 l2.
Proof.
  revert l2. induction l1 as [|a l1 IH]; intros [|b l2]; simpl;
    try reflexivity.
  now rewrite IH.
Qed.

(** X15.  Pixel lists are compared pairwise up to the end of the shorter
    one and never checked against the dimensions: the result is that of
    comparing the two common-length prefixes, and the number of differing
    pixels lies between [0] and that common length.  (So an image with an
    empty pixel list matches every image of equal dimensions.) *)
Theorem compare_images_common_prefix :
  forall w h px1 px2 t,
    let n := Nat.min (List.length px1) (List.length px2) in
    compare_images (w, h, px1) (w, h, px2) t
    = compare_images (w, h, firstn n px1) (w, h, firstn n px2) t
    /\ 0 <= count_diff t px1 px2 <= Z.of_nat n
    /\ (forall m s d,
          n = 0%nat ->
          compare_images (w, h, px1) (w, h, px2) t = Ok (m, s, d) ->
          m = true /\ d = 0).
Proof.
  intros w h px1 px2 t n. split; [|split].
  - rewrite !compare_images_same_size.
    assert (E : count_diff t (firstn n px1) (firstn n px2)
                = count_diff t px1 px2).
    { unfold count_diff, n. now rewrite combine_common_prefix. }
    now rewrite E.
  - apply count_diff_bounds.
  - intros m s d Hn H. apply compare_images_inv in H. simpl in H.
    destruct H as [[_ [_ [F|F]]]|[_ [_ [Ed Em]]]]; try congruence.
    pose proof (count_diff_bounds t px1 px2) as Hb. fold n in Hb.
    rewrite Hn in Hb. simpl in Hb. assert (E0 : d = 0) by lia.
    rewrite E0 in Em. split; [exact Em | exact E0].
Qed.

Lemma compare_images_common_prefix_witness :
  true = true /\ 0 = 0.
Proof.
  refine (proj2 (proj2 (compare_images_common_prefix
                          2 2 [] [[1; 2; 3; 4]] 0))
            true 100%float 0 _ _).
  - reflexivity.
  - vm_compute. reflexivity.
Defined.

(** * Further properties of the PNG reader *)

(** ** Reading exactly what was written *)

Lemma byte_val_byte_of (n : N) :
  (n < 256)%N -> byte_val (byte_of n) = Z.of_N n.
Proof.
  intros H. unfold byte_val, byte_of.
  pose proof (Byte.to_of_N_option_map n) as E.
  destruct (N.leb_spec n 255); [|lia].
  destruct (Byte.of_N n) as [b|]; [|discriminate].
  simpl in E. injection E as E. now rewrite E.
Qed.

Lemma unpack_pack_u32 (n : Z) :
  0 <= n < 2 ^ 32 -> unpack_u32 (pack_u32 n) = Ok n.
Proof.
  intros H. unfold pack_u32, unpack_u32.
  assert (H3 : 0 <= n / 16777216 < 256)
    by (split; [apply Z.div_pos; lia | apply Z.div_lt_upper_bound; lia]).
  pose proof (Z.mod_pos_bound (n / 65536) 256 ltac:(lia)) as H2.
  pose proof (Z.mod_pos_bound (n / 256) 256 ltac:(lia)) as H1.
  pose proof (Z.mod_pos_bound n 256 ltac:(lia)) as H0.
  rewrite !byte_val_byte_of by lia. rewrite !Z2N.id by lia. f_equal.
  pose proof (Z.div_mod n 256 ltac:(lia)) as E0.
  pose proof (Z.div_mod (n / 256) 256 ltac:(lia)) as E1.
  pose proof (Z.div_mod (n / 65536) 256 ltac:(lia)) as E2.
  rewrite Z.div_div in E1 by lia. rewrite Z.div_div in E2 by lia.
  change (256 * 256) with 65536 in E1.
  change (65536 * 256) with 16777216 in E2.
  assert (E3 : n / 65536 = n / 256 / 256)
    by (rewrite Z.div_div by lia; reflexivity).
  lia.
Qed.

Lemma read_exact (a b : bytes) :
  read (Z.of_nat (List.length a)) (a ++ b)%list = (a, b).
Proof.
  induction a as [|x a IH].
  - simpl. destruct b; reflexivity.
  - cbn [List.length app read].
    destruct (Z.leb_spec (Z.of_nat (S (List.length a))) 0); [lia|].
    replace (Z.of_nat (S (List.length a)) - 1) with (Z.of_nat (List.length a))
      by lia.
    now rewrite IH.
Qed.

Lemma read_4 (a b : bytes) :
  List.length a = 4%nat -> read 4 (a ++ b)%list = (a, b).
Proof. intros H. rewrite <- (read_exact a b). now rewrite H. Qed.

Lemma read_chunk_encoded (ty data crc rest : bytes) :
  well_formed (ty, data, crc) ->
  read_chunk (chunk_bytes (ty, data, crc) ++ rest)%list = Ok (ty, data, rest).
Proof.
  intros [Hty [Hcrc Hlen]]. unfold read_chunk, chunk_bytes.
  rewrite <- !app_assoc.
  rewrite (read_4 (pack_u32 _)) by reflexivity.
  rewrite unpack_pack_u32 by lia. cbn [bind].
  rewrite (read_4 ty) by exact Hty.
  rewrite read_exact. rewrite (read_4 crc) by exact Hcrc. reflexivity.
Qed.

(** ** The chunk loop and its bound *)

Lemma scan_chunks_more_fuel (fuel : nat) :
  forall f w h c r fuel',
    scan_chunks fuel f w h c = Some r -> (fuel <= fuel')%nat ->
    scan_chunks fuel' f w h c = Some r.
Proof.
  induction fuel as [|fuel IH]; intros f w h c r fuel' H Hle;
    [discriminate|].
  destruct fuel' as [|fuel']; [lia|].
  simpl in *. destruct (read_chunk f) as [[[ty d] f']|e]; [|exact H].
  destruct (bytes_eqb ty IHDR).
  { destruct (parse_ihdr d) as [[w' h']|e]; [|exact H].
    apply (IH _ _ _ _ _ _ H). lia. }
  destruct (bytes_eqb ty IDAT); [apply (IH _ _ _ _ _ _ H); lia|].
  destruct (bytes_eqb ty IEND); [exact H|].
  apply (IH _ _ _ _ _ _ H). lia.
Qed.

Lemma scan_chunks_end_of_file (fuel : nat) (w h : Z) (c : bytes) :
  scan_chunks (S fuel) [] w h c = Some (Raise StructError).
Proof. reflexivity. Qed.

Lemma scan_encoded (cs : list chunk) :
  forall fuel rest w h c,
    Forall well_formed cs ->
    scan_chunks (List.length cs + fuel)
      (List.concat (map chunk_bytes cs) ++ rest)%list w h c
    = match scan_list (map fst cs) w h c with
      | Stopped r => Some r
      | Running w' h' c' => scan_chunks fuel rest w' h' c'
      end.
Proof.
  induction cs as [|[[ty data] crc] cs IH]; intros fuel rest w h c Hwf;
    [reflexivity|].
  inversion Hwf as [|? ? Hc Hcs]. subst.
  cbn [List.length map List.concat Nat.add scan_chunks scan_list fst].
  rewrite <- app_assoc. rewrite (read_chunk_encoded _ _ _ _ Hc).
  destruct (bytes_eqb ty IHDR).
  { destruct (parse_ihdr data) as [[w' h']|e]; [|reflexivity].
    now apply IH. }
  destruct (bytes_eqb ty IDAT); [now apply IH|].
  destruct (bytes_eqb ty IEND); [reflexivity|]. now apply IH.
Qed.

Lemma length_encoded (cs : list chunk) :
  (List.length cs <= List.length (List.concat (map chunk_bytes cs)))%nat.
Proof.
  induction cs as [|[[ty data] crc] cs IH]; simpl; [lia|].
  rewrite !length_app. simpl. lia.
Qed.

Lemma read_png_signed (dec : bytes -> option bytes) (f : bytes)
  (s : scan_end) (fuel : nat) :
  scan_chunks fuel f 0 0 []
  = Some (match s with
          | Stopped r => r
          | Running _ _ _ => Raise StructError
          end) ->
  (fuel <= S (List.length (PNG_SIGNATURE ++ f)))%nat ->
  read_png dec (PNG_SIGNATURE ++ f)%list = Some (after_scan dec s).
Proof.
  intros H Hle. unfold read_png.
  rewrite (read_exact PNG_SIGNATURE f : read 8 _ = _).
  assert (E : bytes_eqb PNG_SIGNATURE PNG_SIGNATURE = true)
    by now apply bytes_eqb_eq.
  rewrite E. cbn [negb].
  rewrite (scan_chunks_more_fuel _ _ _ _ _ _ _ H Hle).
  destruct s as [[[[w h] c]|e]|w h c]; simpl; try reflexivity.
  destruct (dec c); reflexivity.
Qed.

(** The reader on a file made of well-formed chunks. *)
Lemma read_png_encoded (dec : bytes -> option bytes) (cs : list chunk) :
  Forall well_formed cs ->
  read_png dec (png_file cs)
  = Some (after_scan dec (scan_list (map fst cs) 0 0 [])).
Proof.
  intros Hwf. unfold png_file.
  apply (read_png_signed dec _ _ (List.length cs + 1)).
  - pose proof (scan_encoded cs 1 [] 0 0 [] Hwf) as H.
    rewrite app_nil_r in H. rewrite H.
    destruct (scan_list (map fst cs) 0 0 []); reflexivity.
  - pose proof (length_encoded cs). rewrite length_app. simpl. lia.
Qed.

(** ** What the reader does not look at *)

(** X16.  The CRC of a chunk is read and never checked: two files made of
    well-formed chunks with the same types and data, whatever their CRC
    bytes, give the same result, be it a raster or an exception. *)
Theorem crc_never_checked :
  forall (zlib_decompress : bytes -> option bytes) (cs cs' : list chunk),
    Forall well_formed cs -> Forall well_formed cs' ->
    map fst cs = map fst cs' ->
    read_png zlib_decompress (png_file cs)
    = read_png zlib_decompress (png_file cs').
Proof.
  intros dec cs cs' H H' E.
  rewrite (read_png_encoded dec cs H), (read_png_encoded dec cs' H').
  now rewrite E.
Qed.

Lemma crc_never_checked_witness :
  read_png zlib_stored
    (png_file [(IDAT, map byte_of [120; 1; 1; 0; 0; 255; 255; 0; 0; 0; 1]%N,
                map byte_of [137; 214; 174; 95]%N);
               (IEND, [], map byte_of [174; 66; 96; 130]%N)])
  = read_png zlib_stored
      (png_file [(IDAT,
                  map byte_of [120; 1; 1; 0; 0; 255; 255; 0; 0; 0; 1]%N,
                  map byte_of [0; 0; 0; 0]%N);
                 (IEND, [], map byte_of [1; 2; 3; 4]%N)]).
Proof.
  apply crc_never_checked.
  - repeat (apply Forall_cons; [simpl; repeat split; lia|]). apply Forall_nil.
  - repeat (apply Forall_cons; [simpl; repeat split; lia|]). apply Forall_nil.
  - reflexivity.
Defined.

Lemma scan_list_skip (ty d : bytes) (l1 l2 : list (bytes * bytes)) :
  ty <> IHDR -> ty <> IDAT -> ty <> IEND ->
  forall w h c,
    scan_list (l1 ++ (ty, d) :: l2) w h c = scan_list (l1 ++ l2) w h c.
Proof.
  intros H1 H2 H3. apply bytes_eqb_neq in H1, H2, H3.
  induction l1 as [|[ty0 d0] l1 IH]; intros w h c; simpl.
  - now rewrite H1, H2, H3.
  - destruct (bytes_eqb ty0 IHDR).
    { destruct (parse_ihdr d0) as [[w' h']|e]; [apply IH | reflexivity]. }
    destruct (bytes_eqb ty0 IDAT); [apply IH|].
    destruct (bytes_eqb ty0 IEND); [reflexivity | apply IH].
Qed.

(** X17.  A chunk whose type is none of [IHDR], [IDAT] and [IEND] is
    skipped, wherever it stands: the file with the chunk and the file
    without it give the same result. *)
Theorem unknown_chunks_skipped :
  forall (zlib_decompress : bytes -> option bytes) (cs1 cs2 : list chunk)
         (ty data crc : bytes),
    Forall well_formed (cs1 ++ (ty, data, crc) :: cs2) ->
    ty <> IHDR -> ty <> IDAT -> ty <> IEND ->
    read_png zlib_decompress (png_file (cs1 ++ (ty, data, crc) :: cs2))
    = read_png zlib_decompress (png_file (cs1 ++ cs2)).
Proof.
  intros dec cs1 cs2 ty data crc Hwf H1 H2 H3.
  assert (Hwf' : Forall well_formed (cs1 ++ cs2)).
  { apply Forall_app in Hwf. destruct Hwf as [Ha Hb].
    inversion Hb. subst. apply Forall_app. auto. }
  rewrite (read_png_encoded dec _ Hwf), (read_png_encoded dec _ Hwf').
  rewrite !map_app. cbn [map fst].
  now rewrite (scan_list_skip ty data _ _ H1 H2 H3).
Qed.

Lemma unknown_chunks_skipped_witness :
  read_png zlib_stored
    (png_file ([] ++ (map byte_of [116; 69; 88; 116]%N,
                      map byte_of [65; 0; 66]%N,
                      map byte_of [0; 0; 0; 0]%N)
                  :: [(IEND, [], map byte_of [174; 66; 96; 130]%N)]))
  = read_png zlib_stored
      (png_file ([] ++ [(IEND, [], map byte_of [174; 66; 96; 130]%N)])).
Proof.
  apply unknown_chunks_skipped; try discriminate.
  repeat (apply Forall_cons; [simpl; repeat split; lia|]). apply Forall_nil.
Defined.

Lemma scan_list_idat (d1 d2 : bytes) (l1 l2 : list (bytes * bytes)) :
  forall w h c,
    scan_list (l1 ++ (IDAT, d1) :: (IDAT, d2) :: l2) w h c
    = scan_list (l1 ++ (IDAT, (d1 ++ d2)%list) :: l2) w h c.
Proof.
  induction l1 as [|[ty0 d0] l1 IH]; intros w h c; simpl.
  - now rewrite app_assoc.
  - destruct (bytes_eqb ty0 IHDR).
    { destruct (parse_ihdr d0) as [[w' h']|e]; [apply IH | reflexivity]. }
    destruct (bytes_eqb ty0 IDAT); [apply IH|].
    destruct (bytes_eqb ty0 IEND); [reflexivity | apply IH].
Qed.

(** X18.  The data of the [IDAT] chunks is concatenated before it is
    decompressed: cutting the data of an [IDAT] chunk into two consecutive
    [IDAT] chunks does not change the result. *)
Theorem idat_chunks_concatenated :
  forall (zlib_decompress : bytes -> option bytes) (cs1 cs2 : list chunk)
         (d1 d2 crc1 crc2 crc : bytes),
    Forall well_formed (cs1 ++ (IDAT, d1, crc1) :: (IDAT, d2, crc2) :: cs2) ->
    well_formed (IDAT, (d1 ++ d2)%list, crc) ->
    read_png zlib_decompress
      (png_file (cs1 ++ (IDAT, d1, crc1) :: (IDAT, d2, crc2) :: cs2))
    = read_png zlib_decompress
        (png_file (cs1 ++ (IDAT, (d1 ++ d2)%list, crc) :: cs2)).
Proof.
  intros dec cs1 cs2 d1 d2 crc1 crc2 crc Hwf Hc.
  assert (Hwf' : Forall well_formed
                   (cs1 ++ (IDAT, (d1 ++ d2)%list, crc) :: cs2)).
  { apply Forall_app in Hwf. destruct Hwf as [Ha Hb].
    inversion Hb as [|? ? _ Hb']. inversion Hb'. subst.
    apply Forall_app. split; [exact Ha|]. apply Forall_cons; assumption. }
  rewrite (read_png_encoded dec _ Hwf), (read_png_encoded dec _ Hwf').
  rewrite !map_app. cbn [map fst].
  now rewrite scan_list_idat.
Qed.

Lemma idat_chunks_concatenated_witness :
  read_png zlib_stored
    (png_file ([] ++ (IDAT, map byte_of [120; 1; 1; 0; 0]%N,
                      map byte_of [0; 0; 0; 0]%N)
                  :: (IDAT, map byte_of [255; 255; 0; 0; 0; 1]%N,
                      map byte_of [0; 0; 0; 0]%N)
                  :: [(IEND, [], map byte_of [174; 66; 96; 130]%N)]))
  = read_png zlib_stored
      (png_file ([] ++ (IDAT,
                        (map byte_of [120; 1; 1; 0; 0]%N
                           ++ map byte_of [255; 255; 0; 0; 0; 1]%N)%list,
                        map byte_of [137; 214; 174; 95]%N)
                    :: [(IEND, [], map byte_of [174; 66; 96; 130]%N)])).
Proof.
  apply idat_chunks_concatenated.
  - repeat (apply Forall_cons; [simpl; repeat split; lia|]). apply Forall_nil.
  - simpl. repeat split; lia.
Defined.

(** ** Bytes after the end of the image *)

Lemma read_complete (f : bytes) :
  forall n d r j,
    read n f = (d, r) -> Z.of_nat (List.length d) = n ->
    read n (f ++ j)%list = (d, (r ++ j)%list).
Proof.
  induction f as [|b f IH]; intros n d r j H Hn.
  - simpl in H. injection H as H1 H2. subst d r. simpl in Hn. subst n.
    simpl. destruct j; reflexivity.
  - cbn [read app] in *. destruct (Z.leb_spec n 0).
    + injection H as H1 H2. subst d r. reflexivity.
    + destruct (read (n - 1) f) as [d' r'] eqn:E.
      injection H as H1 H2. subst d r'. simpl List.length in Hn.
      rewrite (IH (n - 1) d' r j E) by lia. reflexivity.
Qed.

Lemma read_length (f : bytes) :
  forall n d r,
    0 <= n -> read n f = (d, r) ->
    Z.of_nat (List.length d) <= n
    /\ (r <> [] -> Z.of_nat (List.length d) = n).
Proof.
  induction f as [|b f IH]; intros n d r Hn H.
  - simpl in H. injection H as H1 H2. subst. simpl. split; [lia|congruence].
  - cbn [read] in H. destruct (Z.leb_spec n 0).
    + injection H as H1 H2. subst. simpl. split; lia.
    + destruct (read (n - 1) f) as [d' r'] eqn:E.
      injection H as H1 H2. subst.
      destruct (IH (n - 1) d' r ltac:(lia) E) as [Hl Hc].
      simpl List.length. split; [lia|]. intros Hr. specialize (Hc Hr). lia.
Qed.

Lemma read_rest_nil (n : Z) (f : bytes) :
  f = [] -> snd (read n f) = [].
Proof. intros ->. reflexivity. Qed.

Lemma read_chunk_append (f j ty d f' : bytes) :
  read_chunk f = Ok (ty, d, f') -> f' <> [] ->
  read_chunk (f ++ j)%list = Ok (ty, d, (f' ++ j)%list).
Proof.
  unfold read_chunk. intros H Hne.
  destruct (read 4 f) as [lb f1] eqn:E1.
  apply bind_ok in H. destruct H as [n [Hn H]].
  destruct (read 4 f1) as [ty' f2] eqn:E2.
  destruct (read n f2) as [d' f3] eqn:E3.
  destruct (read 4 f3) as [crc f4] eqn:E4.
  injection H as H1 H2 H3. subst ty' d' f4.
  pose proof (unpack_u32_ok _ _ Hn) as [Hl4 Hr].
  assert (N3 : f3 <> []).
  { intros F. pose proof (read_rest_nil 4 f3 F) as X. rewrite E4 in X.
    simpl in X. congruence. }
  assert (N2 : f2 <> []).
  { intros F. pose proof (read_rest_nil n f2 F) as X. rewrite E3 in X.
    simpl in X. congruence. }
  assert (N1 : f1 <> []).
  { intros F. pose proof (read_rest_nil 4 f1 F) as X. rewrite E2 in X.
    simpl in X. congruence. }
  destruct (read_length f 4 lb f1 ltac:(lia) E1) as [_ C1].
  destruct (read_length f1 4 ty f2 ltac:(lia) E2) as [_ C2].
  destruct (read_length f2 n d f3 ltac:(lia) E3) as [_ C3].
  destruct (read_length f3 4 crc f' ltac:(lia) E4) as [_ C4].
  rewrite (read_complete f 4 lb f1 j E1 (C1 N1)). rewrite Hn. cbn [bind].
  rewrite (read_complete f1 4 ty f2 j E2 (C2 N2)).
  rewrite (read_complete f2 n d f3 j E3 (C3 N3)).
  rewrite (read_complete f3 4 crc f' j E4 (C4 Hne)). reflexivity.
Qed.

Lemma read_chunk_append_type (f j ty d f' : bytes) :
  read_chunk f = Ok (ty, d, f') -> List.length ty = 4%nat ->
  exists d' f'', read_chunk (f ++ j)%list = Ok (ty, d', f'').
Proof.
  unfold read_chunk. intros H Hty.
  destruct (read 4 f) as [lb f1] eqn:E1.
  apply bind_ok in H. destruct H as [n [Hn H]].
  destruct (read 4 f1) as [ty' f2] eqn:E2.
  destruct (read n f2) as [d' f3] eqn:E3.
  destruct (read 4 f3) as [crc f4] eqn:E4.
  injection H as H1 H2 H3. subst ty' d' f4.
  pose proof (unpack_u32_ok _ _ Hn) as [Hl4 _].
  rewrite (read_complete f 4 lb f1 j E1) by (rewrite Hl4; reflexivity).
  rewrite Hn. cbn [bind].
  rewrite (read_complete f1 4 ty f2 j E2) by (rewrite Hty; reflexivity).
  destruct (read n (f2 ++ j)%list) as [d2 g3].
  destruct (read 4 g3) as [crc2 g4]. eauto.
Qed.

Lemma scan_chunks_append (fuel : nat) :
  forall f j w h c r,
    scan_chunks fuel f w h c = Some (Ok r) ->
    scan_chunks fuel (f ++ j)%list w h c = Some (Ok r).
Proof.
  induction fuel as [|fuel IH]; intros f j w h c r H; [discriminate|].
  cbn [scan_chunks] in *.
  destruct (read_chunk f) as [[[ty d] f']|e] eqn:Hc; [|discriminate].
  assert (Hnext : forall w' h' c',
             scan_chunks fuel f' w' h' c' = Some (Ok r) ->
             read_chunk (f ++ j)%list = Ok (ty, d, (f' ++ j)%list)).
  { intros w' h' c' Hs. apply (read_chunk_append _ _ _ _ _ Hc).
    intros F. subst f'. destruct fuel; discriminate. }
  destruct (bytes_eqb ty IHDR) eqn:E1.
  { destruct (parse_ihdr d) as [[w' h']|e] eqn:Ep; [|discriminate].
    rewrite (Hnext _ _ _ H), E1, Ep. now apply IH. }
  destruct (bytes_eqb ty IDAT) eqn:E2.
  { rewrite (Hnext _ _ _ H), E1, E2. now apply IH. }
  destruct (bytes_eqb ty IEND) eqn:E3.
  { apply bytes_eqb_eq in E3.
    destruct (read_chunk_append_type f j ty d f' Hc) as [d' [f'' Hc']];
      [now subst|].
    rewrite Hc'. subst ty. exact H. }
  rewrite (Hnext _ _ _ H), E1, E2, E3. now apply IH.
Qed.

(** X19.  Bytes that follow the image are never read: when [read_png]
    returns a raster for a file, it returns the same raster for the file
    with any bytes appended. *)
Theorem trailing_bytes_ignored :
  forall (zlib_decompress : bytes -> option bytes) (data junk : bytes)
         (img : raster),
    read_png zlib_decompress data = Some (Ok img) ->
    read_png zlib_decompress (data ++ junk)%list = Some (Ok img).
Proof.
  intros dec data junk img H. unfold read_png in *.
  destruct (read 8 data) as [sig f] eqn:E.
  destruct (bytes_eqb sig PNG_SIGNATURE) eqn:Es; [|discriminate].
  cbn [negb] in *. apply bytes_eqb_eq in Es.
  rewrite (read_complete data 8 sig f junk E) by (subst sig; reflexivity).
  apply bytes_eqb_eq in Es. rewrite Es. cbn [negb].
  destruct (scan_chunks (S (List.length data)) f 0 0 [])
    as [[[[w h] c]|e]|] eqn:Hs; try discriminate.
  apply (scan_chunks_append _ _ junk) in Hs.
  rewrite (scan_chunks_more_fuel _ _ _ _ _ _
             (S (List.length (data ++ junk))) Hs)
    by (rewrite length_app; lia).
  exact H.
Qed.

Lemma trailing_bytes_ignored_witness :
  read_png zlib_stored (png_2x2 ++ map byte_of [0; 0; 0; 9; 73; 72]%N)%list
  = Some (Ok (2, 2, [[10; 20; 30; 255]; [40; 50; 60; 255];
                     [70; 80; 90; 128]; [100; 110; 120; 0]])).
Proof.
  apply trailing_bytes_ignored. vm_compute. reflexivity.
Defined.

(** ** The end marker *)

Lemma read_chunk_layout (f ty d f' : bytes) :
  read_chunk f = Ok (ty, d, f') ->
  exists lb crc, f = (lb ++ ty ++ d ++ crc ++ f')%list.
Proof.
  unfold read_chunk. intros H.
  pose proof (read_app 4 f) as A1.
  destruct (read 4 f) as [lb f1].
  apply bind_ok in H. destruct H as [n [_ H]].
  pose proof (read_app 4 f1) as A2.
  destruct (read 4 f1) as [ty' f2].
  pose proof (read_app n f2) as A3.
  destruct (read n f2) as [d' f3].
  pose proof (read_app 4 f3) as A4.
  destruct (read 4 f3) as [crc f4].
  injection H as H1 H2 H3. subst ty' d' f4. simpl in *.
  exists lb, crc. now rewrite A4, A3, A2, A1.
Qed.

Lemma scan_chunks_has_iend (fuel : nat) :
  forall f w h c r,
    scan_chunks fuel f w h c = Some (Ok r) ->
    exists pre post, f = (pre ++ IEND ++ post)%list.
Proof.
  induction fuel as [|fuel IH]; intros f w h c r H; [discriminate|].
  cbn [scan_chunks] in H.
  destruct (read_chunk f) as [[[ty d] f']|e] eqn:Hc; [|discriminate].
  destruct (read_chunk_layout _ _ _ _ Hc) as [lb [crc E]].
  assert (Hrec : forall w' h' c',
             scan_chunks fuel f' w' h' c' = Some (Ok r) ->
             exists pre post, f = (pre ++ IEND ++ post)%list).
  { intros w' h' c' Hs. destruct (IH _ _ _ _ _ Hs) as [pre [post E']].
    exists (lb ++ ty ++ d ++ crc ++ pre)%list, post.
    rewrite E, E'. now rewrite <- !app_assoc. }
  destruct (bytes_eqb ty IHDR).
  { destruct (parse_ihdr d) as [[w' h']|e]; [|discriminate]. eauto. }
  destruct (bytes_eqb ty IDAT); [eauto|].
  destruct (bytes_eqb ty IEND) eqn:E3; [|eauto].
  apply bytes_eqb_eq in E3. subst ty.
  exists lb, (d ++ crc ++ f')%list. exact E.
Qed.

(** X20.  The loop over the chunks ends only at an [IEND] chunk: a file
    for which [read_png] returns a raster contains the four bytes [IEND]
    after its signature; without them the result is an exception. *)
Theorem raster_needs_end_marker :
  forall (zlib_decompress : bytes -> option bytes) (data : bytes)
         (img : raster),
    read_png zlib_decompress data = Some (Ok img) ->
    exists pre post, data = (PNG_SIGNATURE ++ pre ++ IEND ++ post)%list.
Proof.
  intros dec data img H. unfold read_png in H.
  pose proof (read_app 8 data) as A.
  destruct (read 8 data) as [sig f].
  destruct (bytes_eqb sig PNG_SIGNATURE) eqn:Es; [|discriminate].
  apply bytes_eqb_eq in Es. subst sig. cbn [negb] in H. simpl in A.
  destruct (scan_chunks (S (List.length data)) f 0 0 [])
    as [[r|e]|] eqn:Hs; try discriminate.
  destruct (scan_chunks_has_iend _ _ _ _ _ _ Hs) as [pre [post E]].
  exists pre, post. rewrite <- A. now rewrite E.
Qed.

Lemma raster_needs_end_marker_witness :
  exists pre post, png_2x2 = (PNG_SIGNATURE ++ pre ++ IEND ++ post)%list.
Proof.
  refine (raster_needs_end_marker zlib_stored png_2x2
            (2, 2, [[10; 20; 30; 255]; [40; 50; 60; 255];
                    [70; 80; 90; 128]; [100; 110; 120; 0]]) _).
  vm_compute. reflexivity.
Defined.

(** ** The decoding loops and the length of the decompressed data *)

Lemma index_ok (bs : bytes) :
  forall i, 0 <= i < Z.of_nat (List.length bs) -> exists v, index bs i = Ok v.
Proof.
  induction bs as [|b bs IH]; intros i Hi; simpl in *; [lia|].
  destruct (Z.eqb_spec i 0); [eauto|]. apply IH. lia.
Qed.

Lemma index_ok_inv (bs : bytes) :
  forall i v, 0 <= i -> index bs i = Ok v -> i < Z.of_nat (List.length bs).
Proof.
  induction bs as [|b bs IH]; intros i v Hi H; simpl in *; [discriminate|].
  destruct (Z.eqb_spec i 0); [lia|].
  specialize (IH (i - 1) v ltac:(lia) H). lia.
Qed.

Lemma pixel_at_ok (raw : bytes) (idx : Z) :
  0 <= idx -> idx + 3 < Z.of_nat (List.length raw) ->
  exists p, pixel_at raw idx = Ok p.
Proof.
  intros H0 H3. unfold pixel_at.
  destruct (index_ok raw idx) as [r Hr]; [lia|].
  destruct (index_ok raw (idx + 1)) as [g Hg]; [lia|].
  destruct (index_ok raw (idx + 2)) as [b Hb]; [lia|].
  destruct (index_ok raw (idx + 3)) as [a Ha]; [lia|].
  rewrite Hr, Hg, Hb, Ha. simpl. eauto.
Qed.

Lemma pixel_at_ok_inv (raw : bytes) (idx : Z) (p : pixel) :
  0 <= idx -> pixel_at raw idx = Ok p ->
  idx + 3 < Z.of_nat (List.length raw).
Proof.
  intros H0 H. unfold pixel_at in H.
  apply bind_ok in H. destruct H as [r [_ H]].
  apply bind_ok in H. destruct H as [g [_ H]].
  apply bind_ok in H. destruct H as [b [_ H]].
  apply bind_ok in H. destruct H as [a [Ha _]].
  apply index_ok_inv in Ha; lia.
Qed.

Lemma for_range_total {St : Type} (body : Z -> St -> result St) (n : nat) :
  forall start,
    (forall i s,
        start <= i < start + Z.of_nat n -> exists s', body i s = Ok s') ->
    forall s, exists s', for_range start n body s = Ok s'.
Proof.
  induction n as [|n IH]; intros start H s; simpl; [eauto|].
  destruct (H start s) as [s1 H1]; [lia|]. rewrite H1. simpl.
  apply IH. intros i s0 Hi. apply H. lia.
Qed.

Lemma for_range_ext {St : Type} (body body' : Z -> St -> result St)
  (n : nat) :
  forall start,
    (forall i s, start <= i < start + Z.of_nat n -> body i s = body' i s) ->
    forall s, for_range start n body s = for_range start n body' s.
Proof.
  induction n as [|n IH]; intros start H s; simpl; [reflexivity|].
  rewrite (H start s) by lia.
  destruct (body' start s) as [s1|e]; simpl; [|reflexivity].
  apply IH. intros i s0 Hi. apply H. lia.
Qed.

(** X21.  The decoding loops index the decompressed data without checking
    its length.  For dimensions [w] and [h] they succeed when an image has
    no pixel or the data holds at least [h * (1 + 4 * w)] bytes, whatever
    follows those bytes; with fewer bytes and at least one pixel they raise
    [IndexError]. *)
Theorem decode_pixels_bounds :
  forall raw w h,
    0 <= w -> 0 <= h ->
    (w = 0 \/ h = 0 \/ h * (1 + w * 4) <= Z.of_nat (List.length raw) ->
     exists px, decode_pixels raw w h = Ok px)
    /\ (0 < w -> 0 < h -> Z.of_nat (List.length raw) < h * (1 + w * 4) ->
        decode_pixels raw w h = Raise IndexError).
Proof.
  intros raw w h Hw Hh. split.
  - intros Hlen. unfold decode_pixels.
    apply for_range_total. intros y s Hy.
    apply for_range_total. intros x s0 Hx.
    rewrite Z2Nat.id in Hy, Hx by lia.
    destruct (pixel_at_ok raw (y * (1 + w * 4) + 1 + x * 4)) as [p Hp];
      [nia | nia |].
    rewrite Hp. simpl. eauto.
  - intros Hw0 Hh0 Hlen.
    destruct (decode_pixels raw w h) as [px|e] eqn:E.
    + apply (decode_pixels_rows raw w h px Hw Hh) in E.
      destruct E as [_ [_ Hnth]].
      destruct (Hnth (h - 1) (w - 1)) as [p [Hp _]]; [lia | lia |].
      apply pixel_at_ok_inv in Hp; nia.
    + now rewrite (decode_pixels_raise raw w h e E).
Qed.

Lemma decode_pixels_bounds_witness :
  decode_pixels (map byte_of [0; 1; 2; 3]%N) 1 1 = Raise IndexError.
Proof.
  refine (proj2 (decode_pixels_bounds (map byte_of [0; 1; 2; 3]%N) 1 1 _ _)
            _ _ _); simpl; lia.
Defined.

(** ** The filter bytes *)

Lemma pixel_at_ext (raw raw' : bytes) (idx : Z) :
  (forall j, 0 <= j <= 3 -> index raw (idx + j) = index raw' (idx + j)) ->
  pixel_at raw idx = pixel_at raw' idx.
Proof.
  intros H. unfold pixel_at.
  pose proof (H 0 ltac:(lia)) as H0. rewrite Z.add_0_r in H0.
  now rewrite H0, (H 1), (H 2), (H 3) by lia.
Qed.

(** X22.  The filter byte at the head of each row is skipped and never
    applied: two blocks of decompressed data that agree at every position
    that is not the head of a row decode to the same pixels, so a row
    written with a filter other than [None] is read as if it were
    unfiltered. *)
Theorem filter_bytes_ignored :
  forall raw raw' w h,
    0 <= w ->
    (forall i, 0 <= i -> i mod (1 + w * 4) <> 0 ->
               index raw i = index raw' i) ->
    decode_pixels raw w h = decode_pixels raw' w h.
Proof.
  intros raw raw' w h Hw Hsame. unfold decode_pixels.
  apply for_range_ext. intros y s Hy.
  apply for_range_ext. intros x s0 Hx.
  rewrite Z2Nat.id in Hx by lia.
  rewrite (pixel_at_ext raw raw'); [reflexivity|].
  intros j Hj. apply Hsame; [nia|].
  replace (y * (1 + w * 4) + 1 + x * 4 + j)
    with (1 + x * 4 + j + y * (1 + w * 4)) by lia.
  rewrite Z_mod_plus_full. rewrite Z.mod_small; lia.
Qed.

Lemma filter_bytes_ignored_witness :
  decode_pixels (map byte_of [0; 10; 20; 30; 40]%N) 1 1
  = decode_pixels (map byte_of [4; 10; 20; 30; 40]%N) 1 1.
Proof.
  apply filter_bytes_ignored; [lia|].
  intros i Hi Hm. simpl.
  destruct (Z.eqb_spec i 0) as [->|_]; [exfalso; now apply Hm | reflexivity].
Defined.

(** ** Writing an image and reading it back *)

Lemma index_app (pre l : bytes) (i : Z) :
  0 <= i -> index (pre ++ l)%list (Z.of_nat (List.length pre) + i) = index l i.
Proof.
  intros Hi. induction pre as [|b pre IH].
  - reflexivity.
  - cbn [app List.length index].
    destruct (Z.eqb_spec (Z.of_nat (S (List.length pre)) + i) 0); [lia|].
    replace (Z.of_nat (S (List.length pre)) + i - 1)
      with (Z.of_nat (List.length pre) + i) by lia.
    exact IH.
Qed.

Lemma pixel_at_written (pre rest : bytes) (p : pixel) (idx : Z) :
  rgba8 p -> idx = Z.of_nat (List.length pre) ->
  pixel_at (pre ++ pixel_bytes p ++ rest)%list idx = Ok p.
Proof.
  intros [r [g [b [a [E [Hr [Hg [Hb Ha]]]]]]]] Hidx. subst p idx.
  unfold pixel_at, pixel_bytes. cbn [map app].
  rewrite <- (Z.add_0_r (Z.of_nat (List.length pre))) at 1.
  rewrite !index_app by lia. cbn [index Z.eqb Z.sub Z.add Z.pos_sub Z.opp bind].
  simpl.
  rewrite !byte_val_byte_of by lia. now rewrite !Z2N.id by lia.
Qed.

Lemma length_pixel_bytes (ps : list pixel) :
  Forall rgba8 ps ->
  List.length (List.concat (map pixel_bytes ps)) = (4 * List.length ps)%nat.
Proof.
  induction 1 as [|p ps Hp _ IH]; [reflexivity|].
  destruct Hp as [r [g [b [a [E _]]]]]. subst p.
  cbn [map List.concat]. rewrite length_app, IH. simpl. lia.
Qed.

Lemma decode_run (ps : list pixel) :
  forall (raw pre rest : bytes) (acc : list pixel) (base x0 : Z),
    Forall rgba8 ps ->
    raw = (pre ++ List.concat (map pixel_bytes ps) ++ rest)%list ->
    Z.of_nat (List.length pre) = base + x0 * 4 ->
    for_range x0 (List.length ps)
      (fun x pixels =>
         p <- pixel_at raw (base + x * 4) ;; Ok (pixels ++ [p])%list)
      acc
    = Ok (acc ++ ps)%list.
Proof.
  induction ps as [|p ps IH]; intros raw pre rest acc base x0 Hall Eraw Hpre.
  - simpl. now rewrite app_nil_r.
  - inversion Hall as [|? ? Hp Hps]. subst.
    cbn [List.length for_range map List.concat].
    rewrite <- app_assoc.
    rewrite (pixel_at_written pre _ p (base + x0 * 4) Hp) by lia.
    cbn [bind].
    rewrite (IH _ (pre ++ pixel_bytes p)%list rest (acc ++ [p])%list base
               (x0 + 1) Hps).
    + now rewrite <- app_assoc.
    + now rewrite <- !app_assoc.
    + destruct Hp as [r [g [b [a [E _]]]]]. subst p.
      rewrite length_app. simpl. lia.
Qed.

Lemma decode_rows_run (w : nat) (filters : list byte) :
  forall (raw pre : bytes) (px acc : list pixel) (y0 : Z),
    Forall rgba8 px ->
    List.length px = (w * List.length filters)%nat ->
    raw = (pre ++ raw_rows w filters px)%list ->
    Z.of_nat (List.length pre) = y0 * (1 + Z.of_nat w * 4) ->
    for_range y0 (List.length filters)
      (fun y pixels =>
         for_range 0 w
           (fun x pixels =>
              p <- pixel_at raw (y * (1 + Z.of_nat w * 4) + 1 + x * 4) ;;
              Ok (pixels ++ [p])%list)
           pixels)
      acc
    = Ok (acc ++ px)%list.
Proof.
  induction filters as [|f filters IH];
    intros raw pre px acc y0 Hall Hlen Eraw Hpre.
  - simpl in *. rewrite Nat.mul_0_r in Hlen.
    destruct px; [now rewrite app_nil_r | discriminate].
  - cbn [List.length for_range raw_rows] in *.
    assert (Hw : List.length (firstn w px) = w)
      by (rewrite length_firstn; nia).
    assert (Hf : Forall rgba8 (firstn w px)).
    { apply Forall_forall. intros p Hp. apply (proj1 (Forall_forall _ _) Hall).
      rewrite <- (firstn_skipn w px). apply in_or_app. now left. }
    assert (Hs : Forall rgba8 (skipn w px)).
    { apply Forall_forall. intros p Hp. apply (proj1 (Forall_forall _ _) Hall).
      rewrite <- (firstn_skipn w px). apply in_or_app. now right. }
    pose proof (decode_run (firstn w px) raw (pre ++ [f])%list
                  (raw_rows w filters (skipn w px)) acc
                  (y0 * (1 + Z.of_nat w * 4) + 1) 0 Hf) as Hrow.
    rewrite Hw in Hrow. rewrite Hrow; clear Hrow.
    + cbn [bind].
      rewrite (IH raw
                 (pre ++ f :: List.concat (map pixel_bytes (firstn w px)))%list
                 (skipn w px) (acc ++ firstn w px)%list (y0 + 1) Hs).
      * now rewrite <- app_assoc, firstn_skipn.
      * rewrite length_skipn. nia.
      * rewrite Eraw. rewrite <- app_assoc. reflexivity.
      * rewrite length_app. cbn [List.length].
        rewrite (length_pixel_bytes _ Hf), Hw. lia.
    + rewrite Eraw. rewrite <- app_assoc. reflexivity.
    + rewrite length_app. cbn [List.length]. lia.
Qed.

Lemma parse_ihdr_written (w h : Z) :
  0 <= w < 2 ^ 32 -> 0 <= h < 2 ^ 32 ->
  parse_ihdr (ihdr_data w h) = Ok (w, h).
Proof.
  intros Hw Hh. unfold parse_ihdr.
  change (slice (ihdr_data w h) 0 4) with (pack_u32 w).
  change (slice (ihdr_data w h) 4 8) with (pack_u32 h).
  rewrite !unpack_pack_u32 by assumption. cbn [bind].
  change (index (ihdr_data w h) 8) with (Ok (byte_val (byte_of 8)) : result Z).
  change (index (ihdr_data w h) 9) with (Ok (byte_val (byte_of 6)) : result Z).
  reflexivity.
Qed.

(** X23.  Writing and reading back.  Take a raster of [w] by [h] 8-bit
    RGBA pixels, lay it out row by row with one filter byte (of any value)
    before each row, and compress it to data that [zlib.decompress]
    inflates back to that layout.  The file made of the signature, an
    [IHDR] chunk for [w], [h], bit depth 8 and colour type 6, an [IDAT]
    chunk with the compressed data and an [IEND] chunk is read back by
    [read_png] as exactly [(w, h, pixels)]. *)
Theorem read_png_round_trip :
  forall (zlib_decompress : bytes -> option bytes) (w h : Z)
         (px : list pixel) (filters compressed crc1 crc2 crc3 : bytes),
    0 <= w < 2 ^ 32 -> 0 <= h < 2 ^ 32 ->
    Forall rgba8 px ->
    List.length px = (Z.to_nat w * List.length filters)%nat ->
    Z.of_nat (List.length filters) = h ->
    zlib_decompress compressed = Some (raw_rows (Z.to_nat w) filters px) ->
    Forall well_formed
      [(IHDR, ihdr_data w h, crc1); (IDAT, compressed, crc2);
       (IEND, [], crc3)] ->
    read_png zlib_decompress
      (png_file [(IHDR, ihdr_data w h, crc1); (IDAT, compressed, crc2);
                 (IEND, [], crc3)])
    = Some (Ok (w, h, px)).
Proof.
  intros dec w h px filters compressed crc1 crc2 crc3 Hw Hh Hall Hlen Hf
    Hdec Hwf.
  rewrite (read_png_encoded dec _ Hwf).
  cbn [map fst scan_list].
  change (bytes_eqb IHDR IHDR) with true. cbv iota.
  rewrite (parse_ihdr_written w h Hw Hh).
  change (bytes_eqb IDAT IHDR) with false.
  change (bytes_eqb IDAT IDAT) with true.
  change (bytes_eqb IEND IHDR) with false.
  change (bytes_eqb IEND IDAT) with false.
  change (bytes_eqb IEND IEND) with true.
  cbv iota. cbn [app after_scan]. rewrite Hdec.
  unfold decode_pixels. rewrite <- Hf, Nat2Z.id.
  pose proof (decode_rows_run (Z.to_nat w) filters
                (raw_rows (Z.to_nat w) filters px) [] px [] 0 Hall Hlen
                eq_refl) as H.
  rewrite Z2Nat.id in H by lia.
  rewrite H by reflexivity. reflexivity.
Qed.

Lemma read_png_round_trip_witness :
  read_png zlib_stored
    (png_file
       [(IHDR, ihdr_data 2 2, map byte_of [114; 182; 13; 36]%N);
        (IDAT,
         map byte_of [120; 1; 1; 18; 0; 237; 255;
                      0; 10; 20; 30; 255; 40; 50; 60; 255;
                      0; 70; 80; 90; 128; 100; 110; 120; 0;
                      47; 96; 5; 139]%N,
         map byte_of [0; 0; 0; 0]%N);
        (IEND, [], map byte_of [174; 66; 96; 130]%N)])
  = Some (Ok (2, 2, [[10; 20; 30; 255]; [40; 50; 60; 255];
                     [70; 80; 90; 128]; [100; 110; 120; 0]])).
Proof.
  apply (read_png_round_trip zlib_stored 2 2 _ (map byte_of [0; 0]%N)).
  - lia.
  - lia.
  - repeat (apply Forall_cons;
            [eexists _, _, _, _; split; [reflexivity|lia]|]).
    apply Forall_nil.
  - reflexivity.
  - reflexivity.
  - vm_compute. reflexivity.
  - repeat (apply Forall_cons; [simpl; repeat split; lia|]). apply Forall_nil.
Defined.

(** * Properties of the readers of the test programs' output *)

(** ** Loops and text *)

Lemma for_each_app {St A : Type} (step : St -> A -> result St) (a b : list A) :
  forall s,
    for_each step s (a ++ b)
    = (s1 <- for_each step s a ;; for_each step s1 b).
Proof.
  induction a as [|x a IH]; intros s; simpl; [reflexivity|].
  destruct (step s x) as [s1|e]; simpl; [apply IH | reflexivity].
Qed.

Lemma for_each_total {St A : Type} (step : St -> A -> result St)
  (ok : A -> Prop) (xs : list A) :
  (forall s x, ok x -> exists s', step s x = Ok s') ->
  Forall ok xs ->
  forall s, exists s', for_each step s xs = Ok s'.
Proof.
  intros Hstep H. induction H as [|x xs Hx _ IH]; intros s; simpl; [eauto|].
  destruct (Hstep s x Hx) as [s1 H1]. rewrite H1. simpl. apply IH.
Qed.

Lemma for_each_inv {St A : Type} (step : St -> A -> result St)
  (Inv : list A -> St -> Prop) (xs : list A) :
  (forall seen s x s',
      Inv seen s -> step s x = Ok s' -> Inv (seen ++ [x])%list s') ->
  forall seen s s',
    Inv seen s -> for_each step s xs = Ok s' -> Inv (seen ++ xs)%list s'.
Proof.
  intros Hstep. induction xs as [|x xs IH]; intros seen s s' Hi H; simpl in H.
  - injection H as H. subst. now rewrite app_nil_r.
  - apply bind_ok in H. destruct H as [s1 [H1 H]].
    replace (seen ++ x :: xs)%list with ((seen ++ [x]) ++ xs)%list
      by (now rewrite <- app_assoc).
    apply (IH _ s1); [|exact H]. now apply (Hstep seen s).
Qed.

Lemma int_of_text_raise (s : string) (e : exn) :
  PyText.int_of_text s = Raise e -> e = ValueError.
Proof.
  unfold PyText.int_of_text.
  destruct (match PyText.rstrip_by _ _ with
            | String "+" r => (false, r)
            | String "-" r => (true, r)
            | _ => (false, PyText.rstrip_by PyText.is_int_space
                             (PyText.lstrip_by PyText.is_int_space s))
            end) as [neg body].
  destruct (PyText.int_digits body false 0 0) as [[v n]|]; [|congruence].
  destruct (int_max_str_digits <? n)%nat; congruence.
Qed.

Lemma startswith_char (a c : ascii) (s : string) :
  PyStr.startswith (String c s) (String a "") = Ascii.eqb a c.
Proof.
  unfold PyStr.startswith. cbn [PyStr.strip_prefix].
  destruct (Ascii.eqb a c); [destruct s|]; reflexivity.
Qed.

Lemma split_once_contains (line : string) :
  PyText.contains line ":" = true ->
  exists k v, PyText.split_once ":" line = [k; v].
Proof.
  induction line as [|c s IH]; [discriminate|].
  cbn [PyText.contains PyText.split_once]. rewrite startswith_char.
  destruct (Ascii.eqb_spec c ":") as [->|Hne].
  - intros _. eauto.
  - destruct (Ascii.eqb_spec ":" c) as [E|_]; [congruence|].
    cbn [orb]. intros H. destruct (IH H) as [k [v E]]. rewrite E. eauto.
Qed.

Lemma split_on_nonempty (sep : ascii) (s : string) :
  PyText.split_on sep s <> [].
Proof.
  induction s as [|c s IH]; cbn [PyText.split_on]; [discriminate|].
  destruct (Ascii.eqb c sep); [discriminate|].
  destruct (PyText.split_on sep s); [congruence | discriminate].
Qed.

Lemma startswith_app (l p : string) :
  PyStr.startswith l p = true -> exists r, l = p ++ r.
Proof.
  unfold PyStr.startswith.
  destruct (PyStr.strip_prefix p l) as [r|] eqn:E; [|discriminate].
  intros _. exists r. now apply strip_prefix_some.
Qed.

(** A count line [<word>:<field>...]: the field that [int] receives. *)
Lemma split_on_word (word rest : string) :
  PyText.split_on ":" word = [word] ->
  PyText.split_on ":" (word ++ String ":" rest)
  = word :: PyText.split_on ":" rest.
Proof.
  induction word as [|c w IH]; cbn [PyText.split_on append]; [reflexivity|].
  destruct (Ascii.eqb c ":"); [discriminate|].
  pose proof (split_on_nonempty ":" w) as Hne.
  destruct (PyText.split_on ":" w) as [|x [|y xs]]; [congruence| |];
    try discriminate.
  intros H. injection H as H. subst. now rewrite (IH eq_refl).
Qed.

Lemma count_field (word rest : string) :
  PyText.split_on ":" word = [word] ->
  exists field,
    item_1 (PyText.split_on ":" (word ++ String ":" rest)) = Ok field.
Proof.
  intros Hw. rewrite (split_on_word word rest Hw).
  pose proof (split_on_nonempty ":" rest) as Hne.
  destruct (PyText.split_on ":" rest) as [|f fs]; [congruence|].
  simpl. eauto.
Qed.

(** ** [run_test]: what makes a test pass *)

Lemma info_shape_key (info : dict Z) (k : string) :
  info_shape info ->
  has_key info k = true <-> In k ["frames"; "box"; "passed"].
Proof.
  intros [a [b [c ->]]]. unfold has_key. cbn [dict_get In].
  destruct (String.eqb_spec "frames" k); [tauto|].
  destruct (String.eqb_spec "box" k); [tauto|].
  destruct (String.eqb_spec "passed" k); [tauto|].
  split; [discriminate | tauto].
Qed.

Lemma info_shape_set (info : dict Z) (k : string) (n : Z) :
  info_shape info -> has_key info k = true -> info_shape (dict_set info k n).
Proof.
  intros [a [b [c ->]]]. unfold has_key, info_shape. cbn [dict_get dict_set].
  destruct (String.eqb_spec "frames" k); [subst; eauto|].
  destruct (String.eqb_spec "box" k); [subst; eauto|].
  destruct (String.eqb_spec "passed" k); [subst; eauto|].
  discriminate.
Qed.

Lemma info_at_set_same (info : dict Z) (k : string) (n : Z) :
  info_at (dict_set info k n) k = n.
Proof. unfold info_at. now rewrite dict_get_set_same. Qed.

Lemma info_at_set_other (info : dict Z) (k k0 : string) (n : Z) :
  k0 <> k -> info_at (dict_set info k n) k0 = info_at info k0.
Proof. intros H. unfold info_at. now rewrite dict_get_set_other. Qed.

(** One line: it never raises, it keeps the three keys, and it changes the
    count of a key exactly when it reports an integer for that key. *)
Lemma scan_test_line_spec (verbose : bool) (info : dict Z)
  (printed : list string) (line : string) :
  info_shape info ->
  exists info' printed',
    scan_test_line verbose (info, printed) line = Ok (info', printed')
    /\ info_shape info'
    /\ forall k,
         In k ["frames"; "box"; "passed"] ->
         (forall n, reports k n line -> info_at info' k = n)
         /\ (silent_on k line -> info_at info' k = info_at info k).
Proof.
  intros Hs. unfold scan_test_line.
  destruct (PyText.contains line ":") eqn:Hc.
  2:{ cbn [bind]. eexists _, _. split; [reflexivity|]. split; [exact Hs|].
      intros k Hk. split; [|reflexivity].
      intros n [v [Hv _]].
      assert (Hc' : PyText.contains line ":" = true).
      { clear - Hv. revert k v Hv.
        induction line as [|c s IH]; intros k v Hv; [discriminate|].
        cbn [PyText.contains PyText.split_once] in *.
        rewrite startswith_char.
        destruct (Ascii.eqb_spec c ":") as [->|Hne]; [reflexivity|].
        destruct (Ascii.eqb ":" c); [reflexivity|]. cbn [orb].
        destruct (PyText.split_once ":" s) as [|x [|y [|z zs]]] eqn:E;
          try discriminate.
        eapply IH. reflexivity. }
      congruence. }
  destruct (split_once_contains line Hc) as [k0 [v E]]. rewrite E.
  destruct (has_key info k0) eqn:Hk0.
  2:{ cbn [bind]. eexists _, _. split; [reflexivity|]. split; [exact Hs|].
      intros k Hk. split; [|reflexivity].
      intros n [v' [Hv _]]. rewrite E in Hv. injection Hv as -> _.
      apply (info_shape_key info k Hs) in Hk. congruence. }
  destruct (PyText.int_of_text (PyStr.strip v)) as [n0|e] eqn:Hi.
  - cbn [bind]. eexists _, _. split; [reflexivity|].
    split; [now apply info_shape_set|].
    intros k Hk. split.
    + intros n [v' [Hv Hn]]. rewrite E in Hv. injection Hv as -> ->.
      rewrite Hi in Hn. injection Hn as ->. apply info_at_set_same.
    + intros Hsil. destruct (String.eqb_spec k k0) as [->|Hne].
      * exfalso. apply (Hsil n0). exists v. auto.
      * now apply info_at_set_other.
  - rewrite (int_of_text_raise _ _ Hi). cbn [bind].
    eexists _, _. split; [reflexivity|]. split; [exact Hs|].
    intros k Hk. split; [|reflexivity].
    intros n [v' [Hv Hn]]. rewrite E in Hv. injection Hv as -> ->.
    congruence.
Qed.

Lemma scan_test_lines_spec (verbose : bool) (lines : list string) :
  forall info printed,
    info_shape info ->
    exists info' printed',
      for_each (scan_test_line verbose) (info, printed) lines
      = Ok (info', printed')
      /\ info_shape info'
      /\ forall k,
           In k ["frames"; "box"; "passed"] ->
           (Forall (silent_on k) lines -> info_at info' k = info_at info k)
           /\ (info_at info' k <> info_at info k ->
               Exists (reports k (info_at info' k)) lines).
Proof.
  induction lines as [|l ls IH]; intros info printed Hs.
  - exists info, printed. split; [reflexivity|]. split; [exact Hs|].
    intros k _. split; [reflexivity | congruence].
  - destruct (scan_test_line_spec verbose info printed l Hs)
      as [info1 [printed1 [H1 [Hs1 Hk1]]]].
    destruct (IH info1 printed1 Hs1) as [info' [printed' [H' [Hs' Hk']]]].
    exists info', printed'. cbn [for_each]. rewrite H1. cbn [bind].
    split; [exact H'|]. split; [exact Hs'|].
    intros k Hk. destruct (Hk1 k Hk) as [Hrep Hsil].
    destruct (Hk' k Hk) as [Hkeep Hchg]. split.
    + intros Hall. inversion Hall as [|? ? Hl Hls]. subst.
      rewrite (Hkeep Hls). now apply Hsil.
    + intros Hne.
      destruct (Z.eq_dec (info_at info' k) (info_at info1 k)) as [E|E].
      * apply Exists_cons_hd. rewrite E.
        destruct (Z.eq_dec (info_at info1 k) (info_at info k)) as [E1|E1];
          [congruence|].
        (* the line changed the count, so it reports the new one *)
        assert (Hr : ~ silent_on k l) by (intros F; now apply E1, Hsil).
        unfold silent_on in Hr.
        destruct (PyText.split_once ":" l) as [|k0 [|v [|z zs]]] eqn:Es;
          try (exfalso; apply Hr; intros n [v' [Hv _]]; rewrite Es in Hv;
               discriminate Hv).
        destruct (String.eqb_spec k0 k) as [->|Hk0].
        2:{ exfalso. apply Hr. intros n [v' [Hv _]]. rewrite Es in Hv.
            injection Hv as Hv _. congruence. }
        destruct (PyText.int_of_text (PyStr.strip v)) as [n0|e] eqn:Hi.
        2:{ exfalso. apply Hr. intros n [v' [Hv Hn]]. rewrite Es in Hv.
            injection Hv as Hv. subst v'. congruence. }
        assert (Hrn : reports k n0 l) by (exists v; auto).
        now rewrite (Hrep n0 Hrn).
      * apply Exists_cons_tl. now apply Hchg.
Qed.

Lemma info_shape_0 : info_shape INFO_0.
Proof. exists 0, 0, 0. reflexivity. Qed.

(** X24.  The end of [run_test] never raises, whatever the test program
    printed, and it reports success only on evidence: the exit status is
    [0], some line of the output reads [passed:<v>] with [int(v.strip())]
    equal to [1], and, when [min_box_calls] is positive, some line reads
    [box:<v>] with an integer at least [min_box_calls].  Lines without a
    colon, with another key or with a value that is no integer are
    ignored. *)
Theorem run_test_pass_needs_report :
  forall verbose min_box_calls stdout returncode,
    exists verdict info printed,
      run_test_result verbose min_box_calls stdout returncode
      = Ok (verdict, info, printed)
      /\ (verdict = true ->
          returncode = 0
          /\ Exists (reports "passed" 1) (PyStr.split_lines stdout)
          /\ (0 < min_box_calls ->
              exists n,
                min_box_calls <= n
                /\ Exists (reports "box" n) (PyStr.split_lines stdout))).
Proof.
  intros verbose mb stdout rc. unfold run_test_result.
  destruct (scan_test_lines_spec verbose (PyStr.split_lines stdout)
              INFO_0 [] info_shape_0) as [info [printed [H [Hs Hk]]]].
  rewrite H. cbn [bind].
  destruct (Z.eqb_spec rc 0) as [Hrc|Hrc]; cbn [negb].
  2:{ eexists _, _, _. split; [reflexivity | discriminate]. }
  destruct (Z.ltb_spec (info_at info "box") mb) as [Hb|Hb].
  { eexists _, _, _. split; [reflexivity | discriminate]. }
  eexists _, _, _. split; [reflexivity|].
  intros Hv. apply Z.eqb_eq in Hv. split; [exact Hrc|]. split.
  - destruct (Hk "passed") as [_ Hchg]; [simpl; tauto|].
    rewrite <- Hv. apply Hchg. rewrite Hv. discriminate.
  - intros Hmb. exists (info_at info "box"). split; [exact Hb|].
    destruct (Hk "box") as [_ Hchg]; [simpl; tauto|].
    apply Hchg. change (info_at INFO_0 "box") with 0. lia.
Qed.

Lemma info_items_at (info : dict Z) (k msg : string) :
  info_shape info -> In k ["frames"; "box"; "passed"] ->
  dict_get (int_items info) k = Some (PyInt (info_at info k))
  /\ dict_get (error_with msg info) k = Some (PyInt (info_at info k)).
Proof.
  intros [a [b [c ->]]] Hk. simpl in Hk.
  destruct Hk as [<-|[<-|[<-|[]]]]; split; reflexivity.
Qed.

(** X25.  For each of the keys [frames], [box] and [passed] the reported
    count is that of the last line that gives an integer for the key: a
    later line for the same key whose value is no integer, or any other
    line, leaves it as it is.  The count is in the returned [dict] whatever
    the verdict. *)
Theorem run_test_last_report_wins :
  forall verbose min_box_calls stdout returncode pre l post k n
         verdict info printed,
    PyStr.split_lines stdout = (pre ++ l :: post)%list ->
    In k ["frames"; "box"; "passed"] ->
    reports k n l ->
    Forall (silent_on k) post ->
    run_test_result verbose min_box_calls stdout returncode
    = Ok (verdict, info, printed) ->
    dict_get info k = Some (PyInt n).
Proof.
  intros verbose mb stdout rc pre l post k n verdict info printed E Hk Hr
    Hpost H.
  unfold run_test_result in H. rewrite E in H.
  rewrite for_each_app in H.
  destruct (scan_test_lines_spec verbose pre INFO_0 [] info_shape_0)
    as [info1 [printed1 [H1 [Hs1 _]]]].
  rewrite H1 in H. cbn [bind for_each] in H.
  destruct (scan_test_line_spec verbose info1 printed1 l Hs1)
    as [info2 [printed2 [H2 [Hs2 Hk2]]]].
  rewrite H2 in H. cbn [bind] in H.
  destruct (scan_test_lines_spec verbose post info2 printed2 Hs2)
    as [info3 [printed3 [H3 [Hs3 Hk3]]]].
  rewrite H3 in H. cbn [bind] in H.
  assert (Hn : info_at info3 k = n).
  { rewrite (proj1 (Hk3 k Hk) Hpost). exact (proj1 (Hk2 k Hk) n Hr). }
  destruct (negb (rc =? 0)).
  { injection H as _ H _. subst info.
    rewrite (proj2 (info_items_at info3 k _ Hs3 Hk)). now rewrite Hn. }
  destruct (info_at info3 "box" <? mb).
  { injection H as _ H _. subst info.
    rewrite (proj2 (info_items_at info3 k _ Hs3 Hk)). now rewrite Hn. }
  injection H as _ H _. subst info.
  rewrite (proj1 (info_items_at info3 k "" Hs3 Hk)). now rewrite Hn.
Qed.

Lemma run_test_last_report_wins_witness :
  dict_get [("error", PyStr "validation failed"); ("frames", PyInt 0);
            ("box", PyInt 7); ("passed", PyInt 0)] "box"
  = Some (PyInt 7).
Proof.
  refine (run_test_last_report_wins false 1
            (text ["box:3"; "box: 7 "; "box:many"; "passed"])
            1 ["box:3"] "box: 7 " ["box:many"; "passed"] "box" 7
            false _ [] _ _ _ _ _).
  - vm_compute. reflexivity.
  - simpl. tauto.
  - exists " 7 ". split; vm_compute; reflexivity.
  - repeat (apply Forall_cons;
            [intros n [v [Hv Hn]]; vm_compute in Hv;
             try discriminate Hv; injection Hv as <-;
             vm_compute in Hn; discriminate Hn|]).
    apply Forall_nil.
  - vm_compute. reflexivity.
Defined.

(** ** [run_md3_tests]: failures and the [violations:] line *)

Lemma count_line (word l : string) :
  PyText.split_on ":" word = [word] ->
  PyStr.startswith l (word ++ ":") = true ->
  exists field, item_1 (PyText.split_on ":" l) = Ok field.
Proof.
  intros Hw H. destruct (startswith_app _ _ H) as [r ->].
  replace ((word ++ ":") ++ r) with (word ++ String ":" r)
    by (now rewrite app_assoc_s).
  now apply count_field.
Qed.

Lemma count_field_cases (l : string) (field : string) :
  item_1 (PyText.split_on ":" l) = Ok field ->
  (count_field_ok l = true
   /\ PyText.int_of_text field = Ok (count_field_value l))
  \/ (count_field_ok l = false /\ PyText.int_of_text field = Raise ValueError).
Proof.
  intros H. unfold count_field_ok, count_field_value. rewrite H.
  destruct (PyText.int_of_text field) as [n|e] eqn:E; [auto|].
  rewrite (int_of_text_raise _ _ E). auto.
Qed.

Lemma violations_line (l : string) :
  PyStr.startswith l "violations:" = true ->
  PyStr.startswith l "OK:" = false /\ PyStr.startswith l "FAIL:" = false
  /\ PyStr.startswith l "tracked:" = false
  /\ exists field, item_1 (PyText.split_on ":" l) = Ok field.
Proof.
  intros H. pose proof (count_line "violations" l eq_refl H) as Hf.
  destruct (startswith_app _ _ H) as [r ->]. auto.
Qed.

Lemma scan_md3_violations (verbose : bool) (ok_count fail_count : Z)
  (printed : list string) (l : string) :
  PyStr.startswith l "violations:" = true ->
  (count_field_ok l = true
   /\ scan_md3_line verbose (ok_count, fail_count, printed) l
      = Ok (ok_count, count_field_value l, printed))
  \/ (count_field_ok l = false
      /\ scan_md3_line verbose (ok_count, fail_count, printed) l
         = Raise ValueError).
Proof.
  intros H. destruct (violations_line l H) as [H1 [H2 [_ [field Hf]]]].
  unfold scan_md3_line. rewrite H1, H2, H, Hf. cbn [bind].
  destruct (count_field_cases l field Hf) as [[Hok Hi]|[Hok Hi]];
    rewrite Hi; cbn [bind]; auto.
Qed.

Lemma scan_md3_other (verbose : bool) (ok_count fail_count : Z)
  (printed : list string) (l : string) :
  PyStr.startswith l "violations:" = false ->
  exists ok_count' printed',
    scan_md3_line verbose (ok_count, fail_count, printed) l
    = Ok (ok_count',
          if PyStr.startswith l "OK:" then fail_count
          else if PyStr.startswith l "FAIL:" then fail_count + 1
          else fail_count,
          printed').
Proof.
  intros H. unfold scan_md3_line. rewrite H.
  destruct (PyStr.startswith l "OK:"); [eauto|].
  destruct (PyStr.startswith l "FAIL:"); eauto.
Qed.

Lemma scan_md3_lines_keep (verbose : bool) (lines : list string) :
  forall ok_count fail_count printed,
    Forall (fun l => PyStr.startswith l "FAIL:" = false
                     /\ PyStr.startswith l "violations:" = false) lines ->
    exists ok_count' printed',
      for_each (scan_md3_line verbose) (ok_count, fail_count, printed) lines
      = Ok (ok_count', fail_count, printed').
Proof.
  induction lines as [|l ls IH]; intros ok_count fail_count printed H;
    cbn [for_each]; [eauto|].
  inversion H as [|? ? [Hf Hv] Hls]. subst.
  destruct (scan_md3_other verbose ok_count fail_count printed l Hv)
    as [ok1 [p1 H1]].
  rewrite H1, Hf. cbn [bind].
  destruct (PyStr.startswith l "OK:"); now apply IH.
Qed.

(** X26.  In [run_md3_tests] a [violations:<n>] line replaces the number
    of failures counted so far.  When such a line is followed by no
    further [FAIL:] or [violations:] line, the verdict is [n == 0] and the
    reported number of failures is [n], however many [FAIL:] lines came
    before it. *)
Theorem md3_violations_line_overrides :
  forall verbose stdout pre l post verdict info printed,
    PyStr.split_lines stdout = (pre ++ l :: post)%list ->
    PyStr.startswith l "violations:" = true ->
    Forall (fun l' => PyStr.startswith l' "FAIL:" = false
                      /\ PyStr.startswith l' "violations:" = false) post ->
    md3_tests_result verbose stdout = Ok (verdict, info, printed) ->
    verdict = (count_field_value l =? 0)
    /\ dict_get info "fail" = Some (PyInt (count_field_value l)).
Proof.
  intros verbose stdout pre l post verdict info printed E Hl Hpost H.
  unfold md3_tests_result in H. rewrite E in H.
  apply bind_ok in H. destruct H as [[[ok3 f3] p3] [Hfor H]].
  injection H as <- <- _.
  rewrite for_each_app in Hfor. apply bind_ok in Hfor.
  destruct Hfor as [[[ok1 f1] p1] [_ Hfor]]. cbn [for_each] in Hfor.
  apply bind_ok in Hfor. destruct Hfor as [st2 [H2 Hfor]].
  destruct (scan_md3_violations verbose ok1 f1 p1 l Hl)
    as [[_ Hs]|[_ Hs]]; rewrite Hs in H2; [|discriminate].
  injection H2 as <-.
  destruct (scan_md3_lines_keep verbose post ok1 (count_field_value l) p1
              Hpost) as [ok' [p' Hk]].
  rewrite Hk in Hfor. injection Hfor as _ <- _. split; reflexivity.
Qed.

Lemma md3_violations_line_overrides_witness :
  true = (count_field_value "violations:0" =? 0)
  /\ dict_get [("ok", PyInt 2); ("fail", PyInt 0)] "fail"
     = Some (PyInt (count_field_value "violations:0")).
Proof.
  refine (md3_violations_line_overrides false
            (text ["OK:a"; "FAIL:b:0x1"; "violations:0"; "OK:c"; ""])
            ["OK:a"; "FAIL:b:0x1"] "violations:0" ["OK:c"; ""]
            true [("ok", PyInt 2); ("fail", PyInt 0)] ["  FAIL:b:0x1"]
            _ _ _ _).
  - vm_compute. reflexivity.
  - reflexivity.
  - repeat (apply Forall_cons; [split; reflexivity|]). apply Forall_nil.
  - vm_compute. reflexivity.
Defined.

Lemma scan_md3_lines_raise (verbose : bool) (lines : list string) :
  forall st,
    Exists (fun l => PyStr.startswith l "violations:" = true
                     /\ count_field_ok l = false) lines ->
    for_each (scan_md3_line verbose) st lines = Raise ValueError.
Proof.
  induction lines as [|l ls IH]; intros [[ok_count fail_count] printed] H;
    [inversion H|].
  cbn [for_each].
  destruct (PyStr.startswith l "violations:") eqn:Hv.
  - destruct (scan_md3_violations verbose ok_count fail_count printed l Hv)
      as [[Hok Hs]|[Hok Hs]]; rewrite Hs; cbn [bind]; [|reflexivity].
    apply IH. inversion H as [? ? [_ Hbad]|? ? Hrest]; subst;
      [congruence | exact Hrest].
  - destruct (scan_md3_other verbose ok_count fail_count printed l Hv)
      as [ok1 [p1 H1]].
    rewrite H1. cbn [bind]. apply IH.
    inversion H as [? ? [Hbad _]|? ? Hrest]; subst;
      [congruence | exact Hrest].
Qed.

Lemma scan_md3_lines_ok (verbose : bool) (lines : list string) :
  forall st,
    Forall (fun l => PyStr.startswith l "violations:" = true ->
                     count_field_ok l = true) lines ->
    exists st', for_each (scan_md3_line verbose) st lines = Ok st'.
Proof.
  induction lines as [|l ls IH]; intros [[ok_count fail_count] printed] H;
    cbn [for_each]; [eauto|].
  inversion H as [|? ? Hl Hls]. subst.
  destruct (PyStr.startswith l "violations:") eqn:Hv.
  - destruct (scan_md3_violations verbose ok_count fail_count printed l Hv)
      as [[Hok Hs]|[Hok Hs]]; [|rewrite (Hl eq_refl) in Hok; discriminate].
    rewrite Hs. cbn [bind]. now apply IH.
  - destruct (scan_md3_other verbose ok_count fail_count printed l Hv)
      as [ok1 [p1 H1]].
    rewrite H1. cbn [bind]. now apply IH.
Qed.

(** X27.  The count of a [violations:] line is converted with [int] and
    nothing catches the failure: [run_md3_tests] raises [ValueError] when
    some line of the output starts with [violations:] and its second field
    is no integer literal, and it returns a verdict when every such line
    carries an integer. *)
Theorem md3_malformed_violations_raise :
  forall verbose stdout,
    (Exists (fun l => PyStr.startswith l "violations:" = true
                      /\ count_field_ok l = false)
       (PyStr.split_lines stdout) ->
     md3_tests_result verbose stdout = Raise ValueError)
    /\ (Forall (fun l => PyStr.startswith l "violations:" = true ->
                         count_field_ok l = true)
          (PyStr.split_lines stdout) ->
        exists verdict info printed,
          md3_tests_result verbose stdout = Ok (verdict, info, printed)).
Proof.
  intros verbose stdout. unfold md3_tests_result. split.
  - intros H. now rewrite (scan_md3_lines_raise verbose _ (0, 0, []) H).
  - intros H.
    destruct (scan_md3_lines_ok verbose _ (0, 0, []) H)
      as [[[ok_count fail_count] printed] Hs].
    rewrite Hs. cbn [bind]. eauto.
Qed.

(** ** [run_md3_runtime_tests]: violations are reported, not failed *)

Lemma tracked_line (l : string) :
  PyStr.startswith l "tracked:" = true ->
  exists field, item_1 (PyText.split_on ":" l) = Ok field.
Proof. intros H. exact (count_line "tracked" l eq_refl H). Qed.

Lemma scan_runtime_line_ok (verbose : bool) (tracked violations : Z)
  (vlines printed : list string) (l : string) :
  (PyStr.startswith l "tracked:" = true
   \/ PyStr.startswith l "violations:" = true -> count_field_ok l = true) ->
  exists tracked' vlines' printed',
    scan_runtime_line verbose (tracked, violations, vlines, printed) l
    = Ok (tracked',
          if PyStr.startswith l "violations:" then count_field_value l
          else violations,
          vlines', printed').
Proof.
  intros Hok. unfold scan_runtime_line.
  destruct (PyStr.startswith l "tracked:") eqn:Ht.
  - destruct (tracked_line l Ht) as [field Hf]. rewrite Hf. cbn [bind].
    destruct (count_field_cases l field Hf) as [[_ Hi]|[Hbad _]];
      [|rewrite Hok in Hbad by auto; discriminate].
    rewrite Hi. cbn [bind].
    destruct (PyStr.startswith l "violations:") eqn:Hv; [|eauto].
    destruct (violations_line l Hv) as [_ [_ [F _]]]. congruence.
  - destruct (PyStr.startswith l "violations:") eqn:Hv.
    + destruct (violations_line l Hv) as [_ [_ [_ [field Hf]]]].
      rewrite Hf. cbn [bind].
      destruct (count_field_cases l field Hf) as [[_ Hi]|[Hbad _]];
        [|rewrite Hok in Hbad by auto; discriminate].
      rewrite Hi. cbn [bind]. eauto.
    + destruct (PyText.contains l "VIOLATION:"); eauto.
Qed.

Lemma scan_runtime_lines_ok (verbose : bool) (lines : list string) :
  forall tracked violations vlines printed,
    Forall (fun l => PyStr.startswith l "tracked:" = true
                     \/ PyStr.startswith l "violations:" = true ->
                     count_field_ok l = true) lines ->
    exists tracked' violations' vlines' printed',
      for_each (scan_runtime_line verbose)
        (tracked, violations, vlines, printed) lines
      = Ok (tracked', violations', vlines', printed')
      /\ (Forall (fun l => PyStr.startswith l "violations:" = false) lines ->
          violations' = violations).
Proof.
  induction lines as [|l ls IH]; intros tracked violations vlines printed H;
    cbn [for_each].
  - eexists _, _, _, _. split; [reflexivity | reflexivity].
  - inversion H as [|? ? Hl Hls]. subst.
    destruct (scan_runtime_line_ok verbose tracked violations vlines printed
                l Hl) as [t1 [v1 [p1 H1]]].
    rewrite H1. cbn [bind].
    destruct (IH t1 (if PyStr.startswith l "violations:"
                     then count_field_value l else violations) v1 p1 Hls)
      as [t' [n' [v' [p' [H' Hkeep]]]]].
    eexists _, _, _, _. split; [exact H'|].
    intros Hno. inversion Hno as [|? ? Hv Hvs]. subst.
    rewrite (Hkeep Hvs). now rewrite Hv.
Qed.

(** X28.  [run_md3_runtime_tests] does not fail a run on violations: when
    every [tracked:] and [violations:] line of the output carries an
    integer, the result is [True] together with the counts, the number of
    violations being that of the last [violations:] line, positive or
    not. *)
Theorem md3_runtime_reports_without_failing :
  forall verbose stdout pre l post,
    PyStr.split_lines stdout = (pre ++ l :: post)%list ->
    PyStr.startswith l "violations:" = true ->
    Forall (fun l' => PyStr.startswith l' "violations:" = false) post ->
    Forall (fun l' => PyStr.startswith l' "tracked:" = true
                      \/ PyStr.startswith l' "violations:" = true ->
                      count_field_ok l' = true)
      (PyStr.split_lines stdout) ->
    exists info printed,
      md3_runtime_result verbose stdout = Ok (true, info, printed)
      /\ dict_get info "violations" = Some (PyInt (count_field_value l)).
Proof.
  intros verbose stdout pre l post E Hl Hpost Hok.
  unfold md3_runtime_result. rewrite E in *.
  apply Forall_app in Hok. destruct Hok as [Hpre Hrest].
  inversion Hrest as [|? ? Hlok Hpostok]. subst.
  rewrite for_each_app.
  destruct (scan_runtime_lines_ok verbose pre 0 0 [] [] Hpre)
    as [t1 [n1 [v1 [p1 [H1 _]]]]].
  rewrite H1. cbn [bind for_each].
  destruct (scan_runtime_line_ok verbose t1 n1 v1 p1 l Hlok)
    as [t2 [v2 [p2 H2]]].
  rewrite H2, Hl. cbn [bind].
  destruct (scan_runtime_lines_ok verbose post t2 (count_field_value l) v2 p2
              Hpostok) as [t3 [n3 [v3 [p3 [H3 Hkeep]]]]].
  rewrite H3. cbn [bind]. rewrite (Hkeep Hpost).
  eexists _, _. split; reflexivity.
Qed.

Lemma md3_runtime_reports_without_failing_witness :
  exists info printed,
    md3_runtime_result false
      (text ["tracked: 12"; "VIOLATION: button height"; "violations:3"; ""])
    = Ok (true, info, printed)
    /\ dict_get info "violations"
       = Some (PyInt (count_field_value "violations:3")).
Proof.
  apply (md3_runtime_reports_without_failing false _
           ["tracked: 12"; "VIOLATION: button height"] "violations:3" [""]).
  - vm_compute. reflexivity.
  - reflexivity.
  - repeat (apply Forall_cons; [reflexivity|]). apply Forall_nil.
  - replace (PyStr.split_lines _)
      with ["tracked: 12"; "VIOLATION: button height"; "violations:3"; ""]
      by (vm_compute; reflexivity).
    repeat (apply Forall_cons;
            [first [ intros _; vm_compute; reflexivity
                   | intros [H|H]; vm_compute in H; discriminate H ]|]).
    apply Forall_nil.
Defined.

(** ** [run_shm_test]: the verdict of the self-test *)

Lemma count_true_all {A : Type} (f : A -> bool) (l : list A) :
  (Z.of_nat (List.length (filter f l)) =? Z.of_nat (List.length l))
  = forallb f l.
Proof.
  induction l as [|x l IH]; [reflexivity|]. cbn [filter forallb].
  destruct (f x); cbn [andb List.length].
  - rewrite <- IH. rewrite !Nat2Z.inj_succ.
    destruct (Z.eqb_spec (Z.of_nat (List.length (filter f l)))
                (Z.of_nat (List.length l)));
      destruct (Z.eqb_spec (Z.succ (Z.of_nat (List.length (filter f l))))
                  (Z.succ (Z.of_nat (List.length l)))); try reflexivity; lia.
  - pose proof (filter_length_le f l).
    destruct (Z.eqb_spec (Z.of_nat (List.length (filter f l)))
                (Z.of_nat (S (List.length l)))); [lia | reflexivity].
Qed.

Lemma pass_line_not_fail (l : string) :
  PyStr.startswith l "PASS:" = true -> PyStr.startswith l "FAIL:" = false.
Proof. intros H. destruct (startswith_app _ _ H) as [r ->]. reflexivity. Qed.

Lemma scan_shm_line_cases (tests : list (string * bool)) (l : string) :
  (nameless l = true -> exists e, scan_shm_line tests l = Raise e)
  /\ (nameless l = false ->
      exists tests',
        scan_shm_line tests l = Ok tests'
        /\ forallb snd tests'
           = forallb snd tests && negb (PyStr.startswith l "FAIL:")).
Proof.
  unfold nameless, scan_shm_line, first_word.
  destruct (PyStr.startswith l "PASS:") eqn:Hp.
  - rewrite (pass_line_not_fail l Hp). cbn [orb andb negb].
    destruct (PyText.words (PyStr.strip (PyStr.drop 5 l))) as [|w ws];
      cbn [bind]; split; intros H; try discriminate H; [eauto|].
    eexists. split; [reflexivity|].
    rewrite forallb_app. cbn [forallb snd]. now rewrite !andb_true_r.
  - cbn [orb]. destruct (PyStr.startswith l "FAIL:") eqn:Hf; cbn [andb negb].
    + destruct (PyText.words (PyStr.strip (PyStr.drop 5 l))) as [|w ws];
        cbn [bind]; split; intros H; try discriminate H; [eauto|].
      eexists. split; [reflexivity|].
      rewrite forallb_app. cbn [forallb snd]. now rewrite !andb_false_r.
    + split; intros H; [discriminate H|].
      eexists. split; [reflexivity|]. now rewrite andb_true_r.
Qed.

Lemma scan_shm_lines_raise (lines : list string) :
  forall tests,
    Exists (fun l => nameless l = true) lines ->
    exists e, for_each scan_shm_line tests lines = Raise e.
Proof.
  induction lines as [|l ls IH]; intros tests H; [inversion H|].
  cbn [for_each]. destruct (nameless l) eqn:Hn.
  - destruct (proj1 (scan_shm_line_cases tests l) Hn) as [e He].
    rewrite He. cbn [bind]. eauto.
  - destruct (proj2 (scan_shm_line_cases tests l) Hn) as [tests' [Ht _]].
    rewrite Ht. cbn [bind]. apply IH.
    inversion H as [? ? Hbad|? ? Hrest]; subst; [congruence | exact Hrest].
Qed.

Lemma scan_shm_lines_ok (lines : list string) :
  forall tests,
    Forall (fun l => nameless l = false) lines ->
    exists tests',
      for_each scan_shm_line tests lines = Ok tests'
      /\ forallb snd tests'
         = forallb snd tests
           && forallb (fun l => negb (PyStr.startswith l "FAIL:")) lines.
Proof.
  induction lines as [|l ls IH]; intros tests H; cbn [for_each forallb].
  - exists tests. now rewrite andb_true_r.
  - inversion H as [|? ? Hl Hls]. subst.
    destruct (proj2 (scan_shm_line_cases tests l) Hl) as [tests1 [H1 E1]].
    rewrite H1. cbn [bind].
    destruct (IH tests1 Hls) as [tests' [H' E']].
    exists tests'. split; [exact H'|]. rewrite E', E1.
    now rewrite andb_assoc.
Qed.

(** X29.  The verdict of [run_shm_test] on the report of the self-test
    program.  A [PASS:] or [FAIL:] line with no name after the colon makes
    the name lookup raise [IndexError], which the handler turns into a
    failed test with the message [Test error: list index out of range].
    Without such a line the test passes exactly when the exit status is
    [0] and no line starts with [FAIL:]; in particular an empty report
    with exit status [0] passes. *)
Theorem shm_verdict :
  forall stdout returncode,
    (Exists (fun l => nameless l = true) (PyStr.split_lines stdout) ->
     shm_test_result stdout returncode
     = (false, ShmError "Test error: list index out of range"))
    /\ (Forall (fun l => nameless l = false) (PyStr.split_lines stdout) ->
        exists passed total tests,
          shm_test_result stdout returncode
          = ((returncode =? 0)
             && forallb (fun l => negb (PyStr.startswith l "FAIL:"))
                  (PyStr.split_lines stdout),
             ShmCounts passed total tests)
          /\ 0 <= passed <= total).
Proof.
  intros stdout rc. unfold shm_test_result. split.
  - intros H. destruct (scan_shm_lines_raise _ [] H) as [e He].
    now rewrite He.
  - intros H. destruct (scan_shm_lines_ok _ [] H) as [tests [Ht E]].
    rewrite Ht. eexists _, _, tests. split.
    + rewrite count_true_all, E. reflexivity.
    + pose proof (filter_length_le snd tests). lia.
Qed.

(** ** [run_visual_test]: a screenshot against its golden image *)

Lemma read_png_valid (dec : bytes -> option bytes) (data : bytes) (w h : Z)
  (px : list pixel) :
  read_png dec data = Some (Ok (w, h, px)) -> valid_raster (w, h, px).
Proof.
  intros H. unfold read_png in H.
  destruct (read 8 data) as [sig f].
  destruct (negb (bytes_eqb sig PNG_SIGNATURE)); [discriminate|].
  destruct (scan_chunks (S (List.length data)) f 0 0 [])
    as [[[[w' h'] c]|e]|] eqn:Hs; try discriminate.
  destruct (dec c) as [raw|]; [|discriminate].
  injection H as H. apply bind_ok in H. destruct H as [px' [Hd H]].
  injection H as -> -> ->.
  assert (Hz : 0 <= 0 < 2 ^ 32) by (split; [lia | reflexivity]).
  destruct (scan_chunks_dims _ _ _ _ _ _ _ _ Hz Hz Hs) as [Hw Hh].
  destruct (decode_pixels_rows raw w h px (proj1 Hw) (proj1 Hh) Hd)
    as [Hlen _].
  unfold valid_raster. repeat split; lia.
Qed.

(** X30.  The comparison step of [run_visual_test] turns every exception
    of the PNG reader into a failed test instead of letting it through, and
    a screenshot compared with a byte-identical golden file passes whenever
    it decodes and the tolerance is not negative. *)
Theorem compare_files_verdict :
  forall (zlib_decompress : bytes -> option bytes) (current golden : bytes)
         (tolerance : Z),
    (exists verdict info,
        compare_files zlib_decompress current golden tolerance
        = Some (verdict, info))
    /\ (forall e,
          read_png zlib_decompress current = Some (Raise e) ->
          compare_files zlib_decompress current golden tolerance
          = Some (false, CompareFailed e))
    /\ (forall img e,
          read_png zlib_decompress current = Some (Ok img) ->
          read_png zlib_decompress golden = Some (Raise e) ->
          compare_files zlib_decompress current golden tolerance
          = Some (false, CompareFailed e))
    /\ (forall img,
          0 <= tolerance ->
          read_png zlib_decompress current = Some (Ok img) ->
          exists similarity,
            compare_files zlib_decompress current current tolerance
            = Some (true, Compared similarity 0)).
Proof.
  intros dec current golden t. unfold compare_files.
  split; [|split; [|split]].
  - destruct (read_png_returns dec current) as [r1 H1]. rewrite H1.
    destruct r1 as [cur|e]; [|eauto].
    destruct (read_png_returns dec golden) as [r2 H2]. rewrite H2.
    destruct r2 as [gold|e]; [|eauto].
    destruct (compare_images cur gold t) as [[[m s] d]|e]; eauto.
  - intros e H. now rewrite H.
  - intros img e H1 H2. now rewrite H1, H2.
  - intros [[w h] px] Ht H. rewrite H.
    pose proof (read_png_valid dec current w h px H) as Hv.
    rewrite compare_images_same_size, (count_diff_self t px Ht).
    pose proof (valid_raster_total _ _ _ Hv) as Hb.
    destruct (similarity_of_ok (w * h) 0) as [s Hs]; [lia | lia |].
    rewrite Hs. cbn [bind]. simpl. eauto.
Qed.

(** ** The theorems at given outputs *)

Lemma md3_malformed_violations_raise_witness :
  md3_tests_result false (text ["OK:a"; "violations:none"; "OK:b"])
  = Raise ValueError.
Proof.
  refine (proj1 (md3_malformed_violations_raise false
                   (text ["OK:a"; "violations:none"; "OK:b"])) _).
  replace (PyStr.split_lines _) with ["OK:a"; "violations:none"; "OK:b"]
    by (vm_compute; reflexivity).
  apply Exists_cons_tl. apply Exists_cons_hd.
  split; vm_compute; reflexivity.
Defined.

Lemma shm_verdict_witness :
  shm_test_result (text ["PASS: shm_enable"; "PASS:   "]) 0
  = (false, ShmError "Test error: list index out of range").
Proof.
  refine (proj1 (shm_verdict (text ["PASS: shm_enable"; "PASS:   "]) 0) _).
  replace (PyStr.split_lines _) with ["PASS: shm_enable"; "PASS:   "]
    by (vm_compute; reflexivity).
  apply Exists_cons_tl. apply Exists_cons_hd. vm_compute. reflexivity.
Defined.

Example shm_empty_report_passes :
  shm_test_result "" 0 = (true, ShmCounts 0 0 []).
Proof. vm_compute. reflexivity. Qed.

Example shm_report_with_failure :
  shm_test_result (text ["PASS: header_magic (0x49554953)"; "FAIL: get_pixel";
                         "RESULT: 1/2 tests passed"]) 0
  = (false, ShmCounts 1 2 [("header_magic", true); ("get_pixel", false)]).
Proof. vm_compute. reflexivity. Qed.

Lemma compare_files_verdict_witness :
  exists similarity,
    compare_files zlib_stored png_2x2 png_2x2 2
    = Some (true, Compared similarity 0).
Proof.
  refine (proj2 (proj2 (proj2 (compare_files_verdict zlib_stored png_2x2
                                 png_2x2 2)))
            (2, 2, [[10; 20; 30; 255]; [40; 50; 60; 255];
                    [70; 80; 90; 128]; [100; 110; 120; 0]]) _ _).
  - lia.
  - vm_compute. reflexivity.
Defined.

Example compare_files_truncated :
  compare_files zlib_stored png_2x2 PNG_SIGNATURE 2
  = Some (false, CompareFailed StructError).
Proof. vm_compute. reflexivity. Qed.

Example run_test_passes :
  run_test_result false 1
    (text ["frames:10"; "box:12"; "passed:1"; "saved:out.png"; ""]) 0
  = Ok (true,
        [("frames", PyInt 10); ("box", PyInt 12); ("passed", PyInt 1)], []).
Proof. vm_compute. reflexivity. Qed.

Example run_test_too_few_boxes :
  run_test_result false 2 (text ["frames:10"; "box:1"; "passed:1"]) 0
  = Ok (false,
        [("error", PyStr "box calls 1 < 2"); ("frames", PyInt 10);
         ("box", PyInt 1); ("passed", PyInt 1)], []).
Proof. vm_compute. reflexivity. Qed.

Example md3_failures_overridden :
  md3_tests_result false (text ["FAIL:button_height_min:0x1"; "violations:0"])
  = Ok (true, [("ok", PyInt 0); ("fail", PyInt 0)],
        ["  FAIL:button_height_min:0x1"]).
Proof. vm_compute. reflexivity. Qed.

Lemma compare_images_symmetric_witness :
  compare_images (1, 1, [[1; 2; 3; 4]]) (1, 1, [[9; 2; 3; 4]]) 2
  = compare_images (1, 1, [[9; 2; 3; 4]]) (1, 1, [[1; 2; 3; 4]]) 2.
Proof.
  refine (proj1 (compare_images_symmetric 1 1 [[1; 2; 3; 4]] 1 1
                   [[9; 2; 3; 4]] 2) _ _); reflexivity.
Defined.

(** [int] on the runs of digits the DSL patterns capture is the [int] of
    the parser. *)
Lemma int_digits_run (s : string) :
  forall after acc n,
    PyStr.all_chars PyStr.is_digit s = true ->
    PyText.int_digits s after acc n
    = if after || nonempty s
      then Some (digits_to_Z acc s, (n + String.length s)%nat)
      else None.
Proof.
  induction s as [|c s IH]; intros after acc n H.
  - cbn [PyText.int_digits nonempty orb digits_to_Z String.length].
    rewrite orb_false_r, Nat.add_0_r. reflexivity.
  - cbn [PyStr.all_chars] in H. apply andb_prop in H. destruct H as [Hc Hs].
    cbn [PyText.int_digits nonempty digits_to_Z String.length].
    rewrite Hc, (IH true _ _ Hs). cbn [orb]. rewrite orb_true_r.
    now rewrite Nat.add_succ_r.
Qed.

Lemma digit_not_int_space (c : ascii) :
  PyStr.is_digit c = true -> PyText.is_int_space c = false.
Proof.
  unfold PyStr.is_digit, PyText.is_int_space. cbv zeta.
  generalize (PyStr.code c). intros n H.
  apply andb_prop in H. destruct H as [H1 H2].
  apply N.leb_le in H1. apply N.leb_le in H2.
  destruct (N.leb_spec 9 n); destruct (N.leb_spec n 13);
    destruct (N.eqb_spec n 32); destruct (N.eqb_spec n 133);
    destruct (N.eqb_spec n 160); try reflexivity; lia.
Qed.

Lemma rstrip_by_digits (s : string) :
  PyStr.all_chars PyStr.is_digit s = true ->
  PyText.rstrip_by PyText.is_int_space s = s.
Proof.
  induction s as [|c s IH]; [reflexivity|].
  cbn [PyStr.all_chars PyText.rstrip_by]. intros H.
  apply andb_prop in H. destruct H as [Hc Hs]. rewrite (IH Hs).
  destruct s; [now rewrite (digit_not_int_space c Hc) | reflexivity].
Qed.

Lemma sign_of_digit (c : ascii) (r : string) :
  PyStr.is_digit c = true ->
  match String c r with
  | String "+" r' => (false, r')
  | String "-" r' => (true, r')
  | _ => (false, String c r)
  end = (false, String c r).
Proof.
  destruct c as [[] [] [] [] [] [] [] []]; intros H;
    try reflexivity; discriminate H.
Qed.

(** On a run of decimal digits the two models of [int] agree. *)
Lemma int_of_text_digits (s : string) :
  is_digits s = true -> PyText.int_of_text s = int_of_str s.
Proof.
  intros H. unfold int_of_str. rewrite H.
  unfold is_digits in H. apply andb_prop in H. destruct H as [Hne Hd].
  destruct s as [|c s]; [discriminate|].
  pose proof Hd as Hd'. cbn [PyStr.all_chars] in Hd'.
  apply andb_prop in Hd'. destruct Hd' as [Hc _].
  unfold PyText.int_of_text.
  cbn [PyText.lstrip_by]. rewrite (digit_not_int_space c Hc).
  rewrite (rstrip_by_digits _ Hd). rewrite (sign_of_digit c s Hc).
  rewrite (int_digits_run _ false 0 0 Hd). cbn [orb nonempty Nat.add].
  reflexivity.
Qed.

(** * Skip blocks: what is discarded and what gets through *)

(** ** Every text of a pattern's language is matched *)

Lemma strip_prefix_app (l rest : string) :
  PyStr.strip_prefix l (l ++ rest) = Some rest.
Proof.
  induction l as [|c l IH]; simpl; [now destruct rest|].
  now rewrite Ascii.eqb_refl.
Qed.

Lemma span_app_ge (P : ascii -> bool) (p rest : string) :
  PyStr.all_chars P p = true ->
  (String.length p <= span P (p ++ rest))%nat.
Proof.
  induction p as [|c p IH]; simpl; intros H; [lia|].
  apply andb_true_iff in H. destruct H as [Hc Hp]. rewrite Hc.
  specialize (IH Hp). lia.
Qed.

Lemma drop_app_exact (p rest : string) :
  PyStr.drop (String.length p) (p ++ rest) = rest.
Proof. induction p as [|c p IH]; simpl; [now destruct rest | exact IH]. Qed.

Lemma in_countdown (k lo n : nat) :
  (lo <= k < n + lo)%nat -> In k (countdown n lo).
Proof.
  induction n as [|n IH]; simpl; intros H; [lia|].
  destruct (Nat.eq_dec k (n + lo)) as [->|Hne]; [now left | right].
  apply IH. lia.
Qed.

Lemma run_complete (r : regex) :
  forall caps p rest,
    lang r p -> exists caps', In (caps', rest) (run r caps (p ++ rest)).
Proof.
  induction r as [l|k|k|r1 IH1 r2 IH2|r1 IH1 r2 IH2|r1 IH1|i r1 IH1];
    intros caps p rest L; simpl in L.
  - subst p. exists caps. cbn [run]. rewrite strip_prefix_app. now left.
  - destruct L as [Hne Hall]. exists caps. cbn [run]. apply in_map_iff.
    exists (String.length p). split; [now rewrite drop_app_exact|].
    apply in_countdown. pose proof (span_app_ge _ p rest Hall).
    destruct p; [discriminate|]. simpl in *. lia.
  - exists caps. cbn [run]. apply in_map_iff.
    exists (String.length p). split; [now rewrite drop_app_exact|].
    apply in_countdown. pose proof (span_app_ge _ p rest L). lia.
  - destruct L as [p1 [p2 [-> [L1 L2]]]].
    destruct (IH1 caps p1 (p2 ++ rest) L1) as [c1 H1].
    destruct (IH2 c1 p2 rest L2) as [c2 H2].
    exists c2. cbn [run]. rewrite app_assoc_s. apply in_flat_map.
    exists (c1, p2 ++ rest). split; [exact H1 | exact H2].
  - cbn [run]. destruct L as [L|L].
    + destruct (IH1 caps p rest L) as [c H]. exists c.
      apply in_or_app. now left.
    + destruct (IH2 caps p rest L) as [c H]. exists c.
      apply in_or_app. now right.
  - cbn [run]. destruct L as [->|L].
    + exists caps. apply in_or_app. right. now left.
    + destruct (IH1 caps p rest L) as [c H]. exists c.
      apply in_or_app. now left.
  - destruct (IH1 caps p rest L) as [c H]. cbn [run].
    eexists. apply in_map_iff. exists (c, rest). split; [reflexivity|exact H].
Qed.

(** [re.match] succeeds exactly on the lines that start with a text of the
    pattern's language. *)
Lemma re_match_iff_lang (r : regex) (line : string) :
  re_match r line <> None
  <-> exists pre rest, line = pre ++ rest /\ lang r pre.
Proof.
  split.
  - destruct (re_match r line) as [m|] eqn:E; [|congruence].
    intros _. exact (re_match_lang r line m E).
  - intros [pre [rest [-> L]]].
    destruct (run_complete r [] pre rest L) as [c H].
    unfold re_match. destruct (run r [] (pre ++ rest)); [contradiction H|].
    discriminate.
Qed.

(** ** The line that opens a skip block *)

Lemma skip_opener_matched (line : string) :
  re_match SKIP_BLOCK_RE line <> None <-> skip_opener line.
Proof.
  rewrite re_match_iff_lang. unfold skip_opener. split.
  - intros [pre [rest [-> L]]]. simpl in L.
    destruct L as [g [q [-> [-> [sp [q2 [-> [[Hne Hsp]
                    [kw [q3 [-> [Hkw [sp' [b [-> [Hsp' ->]]]]]]]]]]]]]]]].
    exists sp, kw, sp', rest. rewrite !app_assoc_s. simpl.
    repeat split; auto.
  - intros [sp [kw [sp' [rest [-> [Hne [Hsp [Hkw Hsp']]]]]]]].
    exists ("GLOBAL" ++ sp ++ kw ++ sp' ++ "{"), rest.
    split; [now rewrite !app_assoc_s|]. simpl.
    exists "GLOBAL", (sp ++ kw ++ sp' ++ "{"). repeat split.
    exists sp, (kw ++ sp' ++ "{"). repeat split; auto.
    exists kw, (sp' ++ "{"). repeat split; [tauto|].
    exists sp', "{". repeat split; auto.
Qed.

(** A line that opens a skip block is neither blank, nor a comment, nor
    one of the two statements the loop tests first. *)
Lemma skip_opener_not_earlier (line : string) :
  skip_opener line ->
  negb (nonempty line) || PyStr.startswith line "#" = false
  /\ re_match COMPONENT_RE line = None
  /\ re_match GRID_UNIT_RE line = None.
Proof.
  intros [sp [kw [sp' [rest [-> [Hne [Hsp [Hkw Hsp']]]]]]]].
  split; [reflexivity|]. split; [reflexivity|].
  destruct (re_match GRID_UNIT_RE ("GLOBAL" ++ sp ++ kw ++ sp' ++ "{" ++ rest))
    as [m|] eqn:Hm; [|reflexivity].
  exfalso. apply re_match_lang in Hm. destruct Hm as [pre [rest' [El L]]].
  simpl in L.
  destruct L as [g [q [-> [-> [sp2 [q2 [-> [[_ Hsp2] [u [q3 [-> [-> _]]]]]]]]]]]].
  simpl in El. injection El as El. rewrite !app_assoc_s in El. simpl in El.
  revert El.
  destruct Hkw as [->|[->| ->]]; simpl;
    apply spaces_then_distinct; auto; discriminate.
Qed.

Lemma parse_line_skip_opener (st : pstate) (raw : string) :
  skip_opener (PyStr.strip raw) ->
  parse_line st raw
  = Ok (mkState (st_spec st) (current_component st) (Some "skip")).
Proof.
  intros H. destruct (skip_opener_not_earlier _ H) as [Hne [Hc Hg]].
  apply skip_opener_matched in H. unfold parse_line.
  rewrite Hne, Hc, Hg.
  destruct (re_match SKIP_BLOCK_RE (PyStr.strip raw)); [reflexivity|].
  congruence.
Qed.

Lemma parse_line_grid_unit (st : pstate) (raw : string) (m : captures) :
  re_match GRID_UNIT_RE (PyStr.strip raw) = Some m ->
  exists g,
    py_float (group m 1) = Ok g
    /\ parse_line st raw
       = Ok (mkState (mkSpec (components (st_spec st)) g)
               (current_component st) (current_block st)).
Proof.
  intros Hm.
  destruct (number_group_1 _ _ _ groups_ok_grid_unit eq_refl Hm)
    as [v [f [Hv Hf]]].
  exists f. unfold py_float at 1. rewrite Hv. split; [exact Hf|].
  destruct (re_match_lit_prefix _ _ _ _ Hm) as [rest E].
  assert (Hne : negb (nonempty (PyStr.strip raw))
                || PyStr.startswith (PyStr.strip raw) "#" = false)
    by (rewrite E; reflexivity).
  assert (Hc : re_match COMPONENT_RE (PyStr.strip raw) = None)
    by (rewrite E; reflexivity).
  unfold parse_line. rewrite Hne, Hc, Hm. unfold py_float. rewrite Hv, Hf.
  reflexivity.
Qed.

(** C2, where the code departs from the claim: the tests for a [COMPONENT]
    header and for a [GLOBAL grid_unit] statement stand before the test for
    skip mode, so inside a skip block a header still declares a component
    and a grid unit statement still sets the grid unit (first part, the
    failing input, and fifth and sixth parts, every state).  The rest of
    the claim holds: a line [GLOBAL state_layer|shape|typography {] puts
    the loop in skip mode from every state; every line of the block that is
    neither of the two statements nor the bare brace is dropped; the first
    bare brace ends skip mode and keeps the document and the enclosing
    component, which then still takes its property lines; and a skip block
    before the component [x] with [corner_radius 12] leaves that radius
    12. *)
Theorem skip_block_headers_get_through :
  parse_dsl
    (text ["GLOBAL shape {"; "COMPONENT y {"; "GLOBAL grid_unit 8"; "}"])
  = Ok (mkSpec [("y", new_Component "y")] 8%float)
  /\ parse_dsl (text ["GLOBAL shape {"; "}"]) = Ok (mkSpec [] 4%float)
  /\ (forall st opener,
        skip_opener (PyStr.strip opener) ->
        parse_line st opener
        = Ok (mkState (st_spec st) (current_component st) (Some "skip")))
  /\ (forall st opener body closing,
        skip_opener (PyStr.strip opener) ->
        Forall skippable body ->
        PyStr.strip closing = "}" ->
        parse_lines st (opener :: body ++ [closing])
        = Ok (mkState (st_spec st) (current_component st) None))
  /\ (forall st raw n,
        in_skip st = true -> declares n raw ->
        parse_line st raw
        = Ok (mkState
                (mkSpec (dict_set (components (st_spec st)) n
                           (new_Component n))
                   (grid_unit (st_spec st)))
                (Some n) (Some "skip")))
  /\ (forall st raw m,
        in_skip st = true ->
        re_match GRID_UNIT_RE (PyStr.strip raw) = Some m ->
        exists g,
          py_float (group m 1) = Ok g
          /\ parse_line st raw
             = Ok (mkState (mkSpec (components (st_spec st)) g)
                     (current_component st) (Some "skip")))
  /\ parse_dsl
       (text ["COMPONENT x {"; "GLOBAL shape {"; "    corner_radius 999";
              "}"; "    height MIN 4"; "}"; "height MIN 5"])
     = Ok (mkSpec
             [("x", setattr_float (new_Component "x") "height_min" 4%float)]
             4%float)
  /\ parse_dsl
       (text ["GLOBAL shape {"; "    corner_radius 999"; "}";
              "COMPONENT x {"; "    corner_radius 12"; "}"])
     = Ok (mkSpec
             [("x", setattr_float (new_Component "x") "corner_radius"
                      12%float)]
             4%float).
Proof.
  split; [vm_compute; reflexivity|].
  split; [vm_compute; reflexivity|].
  split; [exact parse_line_skip_opener|].
  split.
  { intros st opener body closing Ho Hb Hc. cbn [parse_lines].
    rewrite (parse_line_skip_opener st opener Ho). cbn [bind].
    apply (parse_lines_app_ok body [closing] _
             (mkState (st_spec st) (current_component st) (Some "skip"))).
    - now apply parse_lines_skipped.
    - cbn [parse_lines]. rewrite (parse_line_closing_brace _ _ Hc).
      reflexivity. }
  split.
  { intros st raw n Hs Hd. apply declares_declared_name in Hd.
    rewrite (parse_line_header st raw n Hd).
    now rewrite (in_skip_block st Hs). }
  split.
  { intros st raw m Hs Hm.
    destruct (parse_line_grid_unit st raw m Hm) as [g [Hg H]].
    exists g. split; [exact Hg|]. rewrite H.
    now rewrite (in_skip_block st Hs). }
  split; vm_compute; reflexivity.
Qed.

(** The general parts at the lines of the failing input, read after the
    header of a component [x]. *)
Lemma skip_block_headers_get_through_witness :
  parse_lines (mkState (mkSpec [("x", new_Component "x")] 4%float)
                 (Some "x") None)
    ("GLOBAL shape {" :: ["    corner_radius 999"; "hover 0.08"] ++ ["  }"])
  = Ok (mkState (mkSpec [("x", new_Component "x")] 4%float) (Some "x") None)
  /\ parse_line (mkState (mkSpec [("x", new_Component "x")] 4%float)
                   (Some "x") (Some "skip"))
       "COMPONENT y {"
     = Ok (mkState
             (mkSpec [("x", new_Component "x"); ("y", new_Component "y")]
                4%float)
             (Some "y") (Some "skip"))
  /\ exists g,
       py_float (group [(1%nat, "8")] 1) = Ok g
       /\ parse_line (mkState (mkSpec [("x", new_Component "x")] 4%float)
                        (Some "x") (Some "skip"))
            "GLOBAL grid_unit 8"
          = Ok (mkState (mkSpec [("x", new_Component "x")] g)
                  (Some "x") (Some "skip")).
Proof.
  pose proof skip_block_headers_get_through as [_ [_ [_ [H4 [H5 [H6 _]]]]]].
  split; [|split].
  - refine (H4 (mkState (mkSpec [("x", new_Component "x")] 4%float)
                  (Some "x") None)
              "GLOBAL shape {" ["    corner_radius 999"; "hover 0.08"]
              "  }" _ _ _).
    + exists " ", "shape", " ", "". vm_compute. repeat split; auto.
    + repeat constructor; vm_compute; congruence.
    + reflexivity.
  - refine (H5 (mkState (mkSpec [("x", new_Component "x")] 4%float)
                  (Some "x") (Some "skip"))
              "COMPONENT y {" "y" _ _).
    + reflexivity.
    + exists [(1%nat, "y")]. vm_compute. split; reflexivity.
  - refine (H6 (mkState (mkSpec [("x", new_Component "x")] 4%float)
                  (Some "x") (Some "skip"))
              "GLOBAL grid_unit 8" [(1%nat, "8")] _ _).
    + reflexivity.
    + vm_compute. reflexivity.
Defined.

(** * The lines a component takes *)

(** ** Which groups a match closes *)

Lemma run_group_seqs (r : regex) :
  forall caps s caps' s',
    In (caps', s') (run r caps s) ->
    exists new,
      caps' = (new ++ caps)%list /\ In (map fst new) (group_seqs r).
Proof.
  induction r as [l|k|k|r1 IH1 r2 IH2|r1 IH1 r2 IH2|r1 IH1|i r1 IH1];
    intros caps s caps' s' Hin; cbn [run] in Hin; cbn [group_seqs].
  - destruct (PyStr.strip_prefix l s); [|contradiction].
    destruct Hin as [H|[]]. inversion H. exists []. simpl. auto.
  - apply in_map_iff in Hin. destruct Hin as [m [H _]]. inversion H.
    exists []. simpl. auto.
  - apply in_map_iff in Hin. destruct Hin as [m [H _]]. inversion H.
    exists []. simpl. auto.
  - apply in_flat_map in Hin. destruct Hin as [[c1 s1] [H1 H2]]. simpl in H2.
    destruct (IH1 _ _ _ _ H1) as [n1 [E1 G1]].
    destruct (IH2 _ _ _ _ H2) as [n2 [E2 G2]].
    exists (n2 ++ n1)%list. subst. split; [now rewrite app_assoc|].
    apply in_flat_map. exists (map fst n1). split; [exact G1|].
    apply in_map_iff. exists (map fst n2). split; [|exact G2].
    now rewrite map_app.
  - apply in_app_or in Hin. destruct Hin as [H|H].
    + destruct (IH1 _ _ _ _ H) as [n [E G]]. exists n. split; [exact E|].
      apply in_or_app. now left.
    + destruct (IH2 _ _ _ _ H) as [n [E G]]. exists n. split; [exact E|].
      apply in_or_app. now right.
  - apply in_app_or in Hin. destruct Hin as [H|[H|[]]].
    + destruct (IH1 _ _ _ _ H) as [n [E G]]. exists n. split; [exact E|].
      apply in_or_app. now left.
    + inversion H. exists []. split; [reflexivity|].
      apply in_or_app. right. now left.
  - apply in_map_iff in Hin. destruct Hin as [[c1 s1] [H H1]].
    simpl in H. inversion H. subst.
    destruct (IH1 _ _ _ _ H1) as [n1 [E1 G1]].
    exists ((i, PyStr.take (String.length s - String.length s') s) :: n1).
    subst. split; [reflexivity|]. simpl. apply in_map_iff.
    exists (map fst n1). auto.
Qed.

Lemma re_match_group_seqs (r : regex) (line : string) (m : captures) :
  re_match r line = Some m -> In (map fst m) (group_seqs r).
Proof.
  unfold re_match. destruct (run r [] line) as [|[c1 s1] l] eqn:E;
    [discriminate|].
  intros H. injection H as <-.
  destruct (run_group_seqs r [] line c1 s1) as [new [E1 G]].
  - rewrite E. now left.
  - simpl. rewrite app_nil_r in E1. now subst.
Qed.

(** The match object of an [EXACT] pattern holds group 1 alone, or group 2
    on top of group 1. *)
Lemma exact_captures (w line : string) (m : captures) :
  re_match (exact_with_tolerance w) line = Some m ->
  (exists v, m = [(1%nat, v)])
  \/ (exists t v, m = [(2%nat, t); (1%nat, v)]).
Proof.
  intros Hm. apply re_match_group_seqs in Hm. simpl in Hm.
  destruct Hm as [H|[H|[H|[H|[]]]]];
    first [ right; destruct m as [|[i t] [|[j v] [|]]]; try discriminate;
            simpl in H; injection H as <- <-; eauto
          | left; destruct m as [|[i v] [|]]; try discriminate;
            simpl in H; injection H as <-; eauto ].
Qed.

(** With the tolerance group the line sets both fields. *)
Lemma exact_with_group_2 (w line : string) (m : captures) (t : string) :
  re_match (exact_with_tolerance w) line = Some m ->
  group m 2 = Some t ->
  lastindex m = Some 2%nat /\ is_digits t = true
  /\ exists v f, group m 1 = Some v /\ float_of_str v = Ok f.
Proof.
  intros Hm Ht.
  pose proof (re_match_caps_ok _ _ _ _ (groups_ok_exact w) Hm) as Hok.
  destruct (number_group_1 _ _ _ (groups_ok_exact w) eq_refl Hm)
    as [v [f [Hv Hf]]].
  destruct (exact_captures _ _ _ Hm) as [[v0 ->]|[t0 [v0 ->]]];
    [discriminate|].
  simpl in Ht. injection Ht as ->.
  split; [reflexivity|]. split; [|eauto].
  destruct (Hok 2%nat t (or_introl eq_refl)) as [[[E _]|[_ D]] _];
    [discriminate | exact D].
Qed.

(** ** The current component is stored *)

Lemma parse_lines_snoc (lines : list string) (l : string) (st st' : pstate) :
  parse_lines st (lines ++ [l]) = Ok st' ->
  exists st1, parse_lines st lines = Ok st1 /\ parse_line st1 l = Ok st'.
Proof.
  intros H. apply parse_lines_app in H. destruct H as [st1 [H1 H2]].
  exists st1. split; [exact H1|]. cbn [parse_lines] in H2.
  apply bind_ok in H2. destruct H2 as [st2 [H2 E]]. injection E as <-.
  exact H2.
Qed.

Lemma current_component_stored (lines : list string) :
  forall st st',
    (forall k, current_component st = Some k ->
               dict_get (components (st_spec st)) k <> None) ->
    parse_lines st lines = Ok st' ->
    forall k, current_component st' = Some k ->
              dict_get (components (st_spec st')) k <> None.
Proof.
  induction lines as [|l ls IH]; simpl; intros st st' Hinv H.
  - injection H as <-. exact Hinv.
  - apply bind_ok in H. destruct H as [st1 [H1 H]].
    apply (IH st1 st'); [|exact H].
    intros k Hk.
    destruct (parse_line_cases _ _ _ H1)
      as [[E Ec]|[[n [_ E]]|[key [c0 [c' [Hcur [_ [_ [_ E]]]]]]]]].
    + rewrite E. apply Hinv. destruct Ec as [Ec|Ec]; congruence.
    + subst st1. simpl in *. injection Hk as <-.
      rewrite dict_get_set_same. discriminate.
    + subst st1. simpl in *. assert (k = key) by congruence. subst k.
      rewrite dict_get_set_same. discriminate.
Qed.

(** What the loop does with a property line of the open component. *)
Lemma parse_line_property (st : pstate) (raw k : string) (c : Component) :
  property_line (PyStr.strip raw) ->
  current_component st = Some k -> in_skip st = false ->
  dict_get (components (st_spec st)) k = Some c ->
  parse_line st raw
  = (c' <- apply_props COMPONENT_PROPS c (PyStr.strip raw) ;;
     Ok (with_components st (dict_set (components (st_spec st)) k c'))).
Proof.
  intros [Hne [Hc [Hg [Hs Hb]]]] Hcur Hskip Hget. unfold parse_line.
  now rewrite Hne, Hc, Hg, Hs, Hb, Hskip, Hcur, Hget.
Qed.

(** ** A field and the lines that set it *)

Section FieldHistory.

(** A field of the components, seen as populated or not, and the stripped
    lines that populate it. *)
Variable populated : Component -> bool.
Variable sets : string -> bool.

Hypothesis populated_new : forall n, populated (new_Component n) = false.

Hypothesis populated_keep :
  forall c line c',
    sets line = false ->
    apply_props COMPONENT_PROPS c line = Ok c' -> populated c' = populated c.

Lemma applied_to_snoc (k : string) (lines : list string) (l l0 : string) :
  ~ declares k l -> applied_to k lines l0 -> applied_to k (lines ++ [l]) l0.
Proof.
  intros Hnd [pre [post [s [-> [Hs [Hc [Hk Hf]]]]]]].
  exists pre, (post ++ [l])%list, s. rewrite <- app_assoc. simpl.
  repeat split; auto. apply Forall_app. split; auto.
Qed.

(** A populated field was populated by a line read for the component. *)
Lemma populated_by_line (lines : list string) :
  forall st k c,
    parse_lines initial_state lines = Ok st ->
    dict_get (components (st_spec st)) k = Some c ->
    populated c = true ->
    exists l, applied_to k lines l /\ sets (PyStr.strip l) = true.
Proof.
  induction lines as [|l lines IH] using rev_ind; intros st k c H Hget Hp.
  - injection H as <-. discriminate Hget.
  - apply parse_lines_snoc in H. destruct H as [st1 [H1 H2]].
    assert (Hold : forall c0,
               ~ declares k l ->
               dict_get (components (st_spec st1)) k = Some c0 ->
               populated c0 = true ->
               exists l0, applied_to k (lines ++ [l]) l0
                          /\ sets (PyStr.strip l0) = true).
    { intros c0 Hnd Hg0 Hp0. destruct (IH _ _ _ H1 Hg0 Hp0) as [l0 [Ha Hs]].
      exists l0. split; [now apply applied_to_snoc | exact Hs]. }
    destruct (declared_name l) as [n|] eqn:Hd.
    + rewrite (parse_line_header st1 l n Hd) in H2. injection H2 as <-.
      simpl in Hget. destruct (string_dec k n) as [->|Hne].
      * rewrite dict_get_set_same in Hget. injection Hget as <-.
        rewrite populated_new in Hp. discriminate.
      * rewrite dict_get_set_other in Hget by exact Hne.
        apply (Hold c); auto.
        rewrite declares_declared_name, Hd. congruence.
    + assert (Hnd : ~ declares k l)
        by (rewrite declares_declared_name, Hd; discriminate).
      destruct (parse_line_cases _ _ _ H2)
        as [[Ec _]|[[n [Hdn _]]|[key [c0 [c' [Hk [Hsk [Hg0 [Hap E]]]]]]]]].
      * rewrite Ec in Hget. now apply (Hold c).
      * apply declares_declared_name in Hdn. congruence.
      * subst st. simpl in Hget. destruct (string_dec k key) as [->|Hne].
        -- rewrite dict_get_set_same in Hget. injection Hget as <-.
           destruct (sets (PyStr.strip l)) eqn:Hs.
           ++ exists l. split; [|exact Hs].
              exists lines, [], st1. repeat split; auto.
           ++ rewrite (populated_keep _ _ _ Hs Hap) in Hp.
              now apply (Hold c0).
        -- rewrite dict_get_set_other in Hget by exact Hne.
           now apply (Hold c).
Qed.

Hypothesis populated_set :
  forall c line c',
    sets line = true ->
    apply_props COMPONENT_PROPS c line = Ok c' -> populated c' = true.

Hypothesis sets_property_line :
  forall line, sets line = true -> property_line line.

Lemma populated_stays (k : string) (post : list string) :
  forall st st' c,
    Forall (fun l => ~ declares k l) post ->
    parse_lines st post = Ok st' ->
    dict_get (components (st_spec st)) k = Some c -> populated c = true ->
    exists c', dict_get (components (st_spec st')) k = Some c'
               /\ populated c' = true.
Proof.
  induction post as [|l ls IH]; simpl; intros st st' c Hno H Hget Hp.
  - injection H as <-. eauto.
  - inversion Hno as [|? ? Hl Hls]. subst.
    apply bind_ok in H. destruct H as [st1 [H1 H]].
    assert (H1' : exists c1, dict_get (components (st_spec st1)) k = Some c1
                             /\ populated c1 = true).
    { destruct (parse_line_cases _ _ _ H1)
        as [[E _]|[[n [Hd E]]|[key [c0 [c' [Hk [_ [Hg0 [Hap E]]]]]]]]].
      - rewrite E. eauto.
      - assert (Hn : k <> n) by (intros Heq; subst n; exact (Hl Hd)).
        subst st1. simpl. rewrite dict_get_set_other by exact Hn. eauto.
      - subst st1. simpl. destruct (string_dec k key) as [->|Hne].
        + rewrite dict_get_set_same. exists c'. split; [reflexivity|].
          assert (c0 = c) by congruence. subst c0.
          destruct (sets (PyStr.strip l)) eqn:Hs.
          * exact (populated_set _ _ _ Hs Hap).
          * now rewrite (populated_keep _ _ _ Hs Hap).
        + rewrite dict_get_set_other by exact Hne. eauto. }
    destruct H1' as [c1 [Hg1 Hp1]]. exact (IH _ _ _ Hls H Hg1 Hp1).
Qed.

(** A line that populates the field, read for the component, leaves it
    populated in the parsed document. *)
Lemma line_populates (lines : list string) (st : pstate) (k l : string) :
  parse_lines initial_state lines = Ok st ->
  applied_to k lines l -> sets (PyStr.strip l) = true ->
  exists c, dict_get (components (st_spec st)) k = Some c
            /\ populated c = true.
Proof.
  intros H [pre [post [s [-> [Hs [Hc [Hk Hf]]]]]]] Hset.
  apply parse_lines_app in H. destruct H as [s' [Hs' H]].
  assert (s' = s) by congruence. subst s'. cbn [parse_lines] in H.
  apply bind_ok in H. destruct H as [s2 [H2 H]].
  destruct (dict_get (components (st_spec s)) k) as [c|] eqn:Hget.
  2:{ exfalso.
      refine (current_component_stored pre initial_state s _ Hs k Hc Hget).
      intros k0 Hk0. discriminate Hk0. }
  rewrite (parse_line_property s l k c (sets_property_line _ Hset) Hc Hk Hget)
    in H2.
  apply bind_ok in H2. destruct H2 as [c' [Hap E]]. injection E as <-.
  refine (populated_stays k post _ st c' Hf H _ _).
  - simpl. apply dict_get_set_same.
  - exact (populated_set _ _ _ Hset Hap).
Qed.

(** The field of a component of the parsed document is populated exactly
    when a line that populates it was read for the component. *)
Lemma populated_iff_line (content : string) (spec : Spec) (k : string)
  (c : Component) :
  parse_dsl content = Ok spec -> In (k, c) (components spec) ->
  (populated c = true
   <-> exists l, applied_to k (PyStr.split_lines content) l
                 /\ sets (PyStr.strip l) = true).
Proof.
  unfold parse_dsl. intros H Hin. apply bind_ok in H.
  destruct H as [st [Hst H]]. injection H as <-.
  assert (Hnd : NoDup (dict_keys (components (st_spec st)))).
  { apply (parse_lines_nodup (PyStr.split_lines content) initial_state st); [constructor | exact Hst]. }
  pose proof (dict_in_get _ _ _ Hnd Hin) as Hget.
  split.
  - intros Hp. exact (populated_by_line _ _ _ _ Hst Hget Hp).
  - intros [l [Ha Hs]].
    destruct (line_populates _ _ _ _ Hst Ha Hs) as [c' [Hg' Hp']].
    congruence.
Qed.

End FieldHistory.

(** ** Where a line read for a component stands *)

(** The current component is the one the last header declared. *)
Lemma current_component_last_header (pre : list string) :
  forall st k,
    parse_lines initial_state pre = Ok st ->
    current_component st = Some k ->
    exists p1 h p2,
      pre = (p1 ++ h :: p2)%list /\ declares k h
      /\ Forall (fun l => declared_name l = None) p2.
Proof.
  induction pre as [|l pre IH] using rev_ind; intros st k H Hc.
  - injection H as <-. discriminate Hc.
  - apply parse_lines_snoc in H. destruct H as [st1 [H1 H2]].
    destruct (declared_name l) as [n|] eqn:Hd.
    + rewrite (parse_line_header st1 l n Hd) in H2. injection H2 as <-.
      simpl in Hc. injection Hc as ->.
      exists pre, l, []. repeat split; auto.
      now apply declares_declared_name.
    + assert (Hc1 : current_component st1 = Some k).
      { destruct (parse_line_cases _ _ _ H2)
          as [[_ [E|E]]|[[n [Hdn _]]|[key [c0 [c' [Hk [_ [_ [_ E]]]]]]]]].
        - congruence.
        - congruence.
        - apply declares_declared_name in Hdn. congruence.
        - subst st. exact Hc. }
      destruct (IH _ _ H1 Hc1) as [p1 [h [p2 [-> [Hh Hp2]]]]].
      exists p1, h, (p2 ++ [l])%list. rewrite <- app_assoc. simpl.
      repeat split; auto. apply Forall_app. split; auto.
Qed.

Lemma applied_to_in_last_block (k : string) (lines : list string)
  (l : string) :
  applied_to k lines l ->
  exists p1 h p2 post,
    lines = (p1 ++ h :: p2 ++ l :: post)%list /\ declares k h
    /\ Forall (fun l' => declared_name l' = None) p2
    /\ Forall (fun l' => ~ declares k l') post.
Proof.
  intros [pre [post [st [-> [Hs [Hc [_ Hf]]]]]]].
  destruct (current_component_last_header pre st k Hs Hc)
    as [p1 [h [p2 [-> [Hh Hp2]]]]].
  exists p1, h, p2, post. rewrite <- app_assoc. simpl. auto.
Qed.

(** ** The two corner radius fields *)

Lemma digit_not_space (c : ascii) :
  PyStr.is_digit c = true -> PyStr.is_space c = false /\ c <> "@"%char.
Proof.
  destruct c as [[] [] [] [] [] [] [] []]; vm_compute; intros H;
    first [discriminate H | split; [reflexivity | discriminate]].
Qed.

(** A numeric corner radius line is no token line. *)
Lemma numeric_not_token (line : string) :
  re_match CORNER_RADIUS_RE line <> None ->
  re_match CORNER_TOKEN_RE line = None.
Proof.
  intros Hm.
  destruct (re_match CORNER_TOKEN_RE line) as [m'|] eqn:Hm'; [|reflexivity].
  exfalso. apply re_match_iff_lang in Hm.
  destruct Hm as [pre [rest [El L]]].
  apply re_match_lang in Hm'. destruct Hm' as [pre' [rest' [El' L']]].
  simpl in L, L'.
  destruct L as [h [q [-> [-> [sp [q2 [-> [[_ Hsp] [d [q3 [-> [[Hne Hd] _]]]]]]]]]]]].
  destruct L' as [h' [q' [-> [-> [sp' [q2' [-> [[_ Hsp'] [a [q3' [-> [-> _]]]]]]]]]]]].
  subst line. simpl in El'. injection El' as El'.
  rewrite !app_assoc_s in El'.
  destruct d as [|c d]; [discriminate|]. simpl in Hd, El'.
  apply andb_true_iff in Hd. destruct Hd as [Hc _].
  destruct (digit_not_space c Hc) as [Hns Hat].
  revert El'. apply spaces_then_distinct; auto.
Qed.

Lemma corner_radius_property_line (rest : string) :
  property_line ("corner_radius" ++ rest).
Proof. unfold property_line. repeat split; reflexivity. Qed.

(** What the loop over the table does with a numeric and with a token
    corner radius line. *)
Lemma apply_props_numeric_corner (c : Component) (line : string)
  (c' : Component) :
  re_match CORNER_RADIUS_RE line <> None ->
  apply_props COMPONENT_PROPS c line = Ok c' ->
  exists v f,
    float_of_str v = Ok f /\ c' = setattr_float c "corner_radius" f.
Proof.
  intros Hm H. pose proof (numeric_not_token line Hm) as Hno.
  destruct (re_match CORNER_RADIUS_RE line) as [m|] eqn:Em; [|congruence].
  destruct (re_match_lit_prefix _ _ _ _ Em) as [rest E].
  destruct (number_group_1 CORNER_RADIUS_RE line m
              (groups_ok_keyword_number "corner_radius") eq_refl Em)
    as [v [f [Hv Hf]]].
  exists v, f. split; [exact Hf|].
  unfold COMPONENT_PROPS in H. cbn [apply_props] in H.
  assert (H1 : re_match HEIGHT_MIN_RE line = None)
    by (rewrite E; reflexivity).
  assert (H2 : re_match (exact_with_tolerance "height") line = None)
    by (rewrite E; reflexivity).
  assert (H3 : re_match (exact_with_tolerance "size") line = None)
    by (rewrite E; reflexivity).
  assert (H4 : re_match (keyword_number "touch_target") line = None)
    by (rewrite E; reflexivity).
  rewrite H1, H2, H3, H4, Hno, Em in H.
  unfold apply_match, py_float in H. rewrite Hv, Hf in H.
  simpl in H. now injection H as <-.
Qed.

Lemma apply_props_token_corner (c : Component) (line : string)
  (m : captures) (c' : Component) :
  re_match CORNER_TOKEN_RE line = Some m ->
  apply_props COMPONENT_PROPS c line = Ok c' ->
  c' = setattr_str c "corner_radius_token" (py_str (group m 1)).
Proof.
  intros Em H.
  destruct (re_match_lit_prefix _ _ _ _ Em) as [rest E].
  unfold COMPONENT_PROPS in H. cbn [apply_props] in H.
  assert (H1 : re_match HEIGHT_MIN_RE line = None)
    by (rewrite E; reflexivity).
  assert (H2 : re_match (exact_with_tolerance "height") line = None)
    by (rewrite E; reflexivity).
  assert (H3 : re_match (exact_with_tolerance "size") line = None)
    by (rewrite E; reflexivity).
  assert (H4 : re_match (keyword_number "touch_target") line = None)
    by (rewrite E; reflexivity).
  rewrite H1, H2, H3, H4, Em in H.
  unfold apply_match in H. simpl in H. now injection H as <-.
Qed.

Lemma matches_true (r : regex) (line : string) :
  matches r line = true <-> re_match r line <> None.
Proof.
  unfold matches. destruct (re_match r line); split; intros H;
    congruence.
Qed.

Lemma matches_false (r : regex) (line : string) :
  matches r line = false <-> re_match r line = None.
Proof.
  unfold matches. destruct (re_match r line); split; intros H;
    congruence.
Qed.

Lemma is_some_true {A : Type} (o : option A) :
  (match o with Some _ => true | None => false end) = true <-> o <> None.
Proof. destruct o; split; intros H; congruence. Qed.

(** The numeric field is populated exactly by the numeric lines read for
    the component. *)
Lemma corner_radius_by_lines (content : string) (spec : Spec) (k : string)
  (c : Component) :
  parse_dsl content = Ok spec -> In (k, c) (components spec) ->
  (corner_radius c <> None
   <-> exists l, applied_to k (PyStr.split_lines content) l
                 /\ re_match CORNER_RADIUS_RE (PyStr.strip l) <> None).
Proof.
  intros H Hin.
  pose proof (populated_iff_line
                (fun c => match corner_radius c with
                          | Some _ => true | None => false end)
                (matches CORNER_RADIUS_RE)) as P.
  cbv beta in P. rewrite <- is_some_true.
  rewrite (P (fun n => eq_refl)); [| | | |exact H|exact Hin].
  - split; intros [l [Ha Hs]]; exists l; (split; [exact Ha|]);
      now apply matches_true.
  - intros c0 line c' Hs Hap. apply matches_false in Hs.
    now rewrite (apply_props_corner_radius _ _ _ Hs Hap).
  - intros c0 line c' Hs Hap. apply matches_true in Hs.
    destruct (apply_props_numeric_corner _ _ _ Hs Hap) as [v [f [_ ->]]].
    reflexivity.
  - intros line Hs. apply matches_true in Hs.
    destruct (re_match CORNER_RADIUS_RE line) as [m|] eqn:Em; [|congruence].
    destruct (re_match_lit_prefix _ _ _ _ Em) as [rest ->].
    apply corner_radius_property_line.
Qed.

Lemma corner_radius_token_by_lines (content : string) (spec : Spec)
  (k : string) (c : Component) :
  parse_dsl content = Ok spec -> In (k, c) (components spec) ->
  (corner_radius_token c <> None
   <-> exists l, applied_to k (PyStr.split_lines content) l
                 /\ re_match CORNER_TOKEN_RE (PyStr.strip l) <> None).
Proof.
  intros H Hin.
  pose proof (populated_iff_line
                (fun c => match corner_radius_token c with
                          | Some _ => true | None => false end)
                (matches CORNER_TOKEN_RE)) as P.
  cbv beta in P. rewrite <- is_some_true.
  rewrite (P (fun n => eq_refl)); [| | | |exact H|exact Hin].
  - split; intros [l [Ha Hs]]; exists l; (split; [exact Ha|]);
      now apply matches_true.
  - intros c0 line c' Hs Hap. apply matches_false in Hs.
    now rewrite (apply_props_corner_radius_token _ _ _ Hs Hap).
  - intros c0 line c' Hs Hap. apply matches_true in Hs.
    destruct (re_match CORNER_TOKEN_RE line) as [m|] eqn:Em; [|congruence].
    now rewrite (apply_props_token_corner _ _ _ _ Em Hap).
  - intros line Hs. apply matches_true in Hs.
    destruct (re_match CORNER_TOKEN_RE line) as [m|] eqn:Em; [|congruence].
    destruct (re_match_lit_prefix _ _ _ _ Em) as [rest ->].
    apply corner_radius_property_line.
Qed.

(** C6, as the code has it: a component of the parsed document has its
    numeric corner radius exactly when a numeric [corner_radius] line was
    read for it (the component was the open one, outside a skip block, and
    is not declared again later), and its corner radius token exactly when
    a [corner_radius @shape.] line was; so at most one of the two fields is
    populated unless lines of both kinds were read for the component.  Such
    a line stands after the last header of the component with no header in
    between; a line is of one kind only and changes one field only; of two
    components with one kind each, each has one field. *)
Theorem corner_radius_fields_by_lines :
  (forall content spec k c,
      parse_dsl content = Ok spec -> In (k, c) (components spec) ->
      (corner_radius c <> None
       <-> exists l, applied_to k (PyStr.split_lines content) l
                     /\ re_match CORNER_RADIUS_RE (PyStr.strip l) <> None)
      /\ (corner_radius_token c <> None
          <-> exists l, applied_to k (PyStr.split_lines content) l
                        /\ re_match CORNER_TOKEN_RE (PyStr.strip l) <> None)
      /\ (corner_radius c = None \/ corner_radius_token c = None
          <-> ~ ((exists l, applied_to k (PyStr.split_lines content) l
                            /\ re_match CORNER_RADIUS_RE (PyStr.strip l)
                               <> None)
                 /\ (exists l, applied_to k (PyStr.split_lines content) l
                               /\ re_match CORNER_TOKEN_RE (PyStr.strip l)
                                  <> None))))
  /\ (forall k lines l,
        applied_to k lines l ->
        exists p1 h p2 post,
          lines = (p1 ++ h :: p2 ++ l :: post)%list /\ declares k h
          /\ Forall (fun l' => declared_name l' = None) p2
          /\ Forall (fun l' => ~ declares k l') post)
  /\ (forall line,
        re_match CORNER_RADIUS_RE line <> None ->
        re_match CORNER_TOKEN_RE line = None)
  /\ (forall c line c',
        apply_props COMPONENT_PROPS c line = Ok c' ->
        corner_radius c' = corner_radius c
        \/ corner_radius_token c' = corner_radius_token c)
  /\ parse_dsl
       (text ["COMPONENT a {"; "corner_radius 12"; "}";
              "COMPONENT b {"; "corner_radius @shape.full"; "}"])
     = Ok (mkSpec
             [("a", setattr_float (new_Component "a") "corner_radius"
                      12%float);
              ("b", setattr_str (new_Component "b") "corner_radius_token"
                      "full")]
             4%float).
Proof.
  split.
  { intros content spec k c H Hin.
    pose proof (corner_radius_by_lines content spec k c H Hin) as N.
    pose proof (corner_radius_token_by_lines content spec k c H Hin) as T.
    split; [exact N|]. split; [exact T|]. split.
    - intros [E|E] [Hn Ht].
      + apply N in Hn. contradiction.
      + apply T in Ht. contradiction.
    - intros Hno.
      destruct (corner_radius c) as [r|] eqn:Er; [|now left].
      destruct (corner_radius_token c) as [t|] eqn:Et; [|now right].
      exfalso. apply Hno. split; [apply N | apply T]; discriminate. }
  split; [exact applied_to_in_last_block|].
  split; [exact numeric_not_token|].
  split; [exact apply_props_one_corner_field|].
  vm_compute. reflexivity.
Qed.

(** The first part at the component [a] of the document with a numeric
    radius for [a] and a token for [b]: [a] has its numeric field alone. *)
Lemma corner_radius_fields_by_lines_witness :
  corner_radius (setattr_float (new_Component "a") "corner_radius" 12%float)
  = None
  \/ corner_radius_token
       (setattr_float (new_Component "a") "corner_radius" 12%float)
     = None
  <-> ~ ((exists l,
            applied_to "a"
              (PyStr.split_lines
                 (text ["COMPONENT a {"; "corner_radius 12"; "}";
                        "COMPONENT b {"; "corner_radius @shape.full"; "}"]))
              l
            /\ re_match CORNER_RADIUS_RE (PyStr.strip l) <> None)
         /\ (exists l,
               applied_to "a"
                 (PyStr.split_lines
                    (text ["COMPONENT a {"; "corner_radius 12"; "}";
                           "COMPONENT b {"; "corner_radius @shape.full";
                           "}"]))
                 l
               /\ re_match CORNER_TOKEN_RE (PyStr.strip l) <> None)).
Proof.
  refine (proj2 (proj2 (proj1 corner_radius_fields_by_lines
            (text ["COMPONENT a {"; "corner_radius 12"; "}";
                   "COMPONENT b {"; "corner_radius @shape.full"; "}"])
            (mkSpec
               [("a", setattr_float (new_Component "a") "corner_radius"
                        12%float);
                ("b", setattr_str (new_Component "b") "corner_radius_token"
                        "full")]
               4%float)
            "a"
            (setattr_float (new_Component "a") "corner_radius" 12%float)
            _ _))).
  - vm_compute. reflexivity.
  - left. reflexivity.
Defined.

(** ** Tolerances *)

Lemma apply_match_height_tolerance (c : Component) (attr : string)
  (cv : conv) (m : captures) (c' : Component) :
  String.eqb attr "height_exact" = false ->
  apply_match c attr cv m = Ok c' ->
  height_tolerance c' = height_tolerance c.
Proof.
  intros Hne H. apply apply_match_inv in H.
  destruct H as [c1 [H1 [H2|[t [Hx [_ H2]]]]]].
  - destruct H1 as [H1|[v [_ H1]]]; subst; reflexivity.
  - unfold is_exact in Hx. rewrite Hne in Hx. simpl in Hx.
    apply String.eqb_eq in Hx. subst attr.
    destruct H1 as [H1|[v [_ H1]]]; subst; reflexivity.
Qed.

Lemma apply_match_size_tolerance (c : Component) (attr : string)
  (cv : conv) (m : captures) (c' : Component) :
  String.eqb attr "size_exact" = false ->
  apply_match c attr cv m = Ok c' ->
  size_tolerance c' = size_tolerance c.
Proof.
  intros Hne H. apply apply_match_inv in H.
  destruct H as [c1 [H1 [H2|[t [Hx [_ H2]]]]]].
  - destruct H1 as [H1|[v [_ H1]]]; subst; reflexivity.
  - unfold is_exact in Hx. rewrite Hne, orb_false_r in Hx.
    apply String.eqb_eq in Hx. subst attr.
    destruct H1 as [H1|[v [_ H1]]]; subst; reflexivity.
Qed.

(** A line without the tolerance group of the [height EXACT] pattern
    leaves [height_tolerance] as it is. *)
Lemma height_tolerance_keep (c : Component) (line : string) (c' : Component) :
  has_tolerance "height" line = false ->
  apply_props COMPONENT_PROPS c line = Ok c' ->
  height_tolerance c' = height_tolerance c.
Proof.
  unfold has_tolerance. intros Hs H.
  destruct (re_match (exact_with_tolerance "height") line) as [m|] eqn:Em.
  - destruct (group m 2) eqn:E2; [discriminate|].
    destruct (apply_props_height_exact c line m Em E2) as [v [f [_ [_ Hp]]]].
    rewrite Hp in H. now injection H as <-.
  - apply apply_props_inv in H.
    destruct H as [E|[p [attr [cv [m [Hin [Hm H]]]]]]]; [now subst|].
    table_cases Hin;
      try (eapply apply_match_height_tolerance; [|exact H]; reflexivity).
    congruence.
Qed.

Lemma size_tolerance_keep (c : Component) (line : string) (c' : Component) :
  has_tolerance "size" line = false ->
  apply_props COMPONENT_PROPS c line = Ok c' ->
  size_tolerance c' = size_tolerance c.
Proof.
  unfold has_tolerance. intros Hs H.
  destruct (re_match (exact_with_tolerance "size") line) as [m|] eqn:Em.
  - destruct (group m 2) eqn:E2; [discriminate|].
    destruct (apply_props_size_exact c line m Em E2) as [v [f [_ [_ Hp]]]].
    rewrite Hp in H. now injection H as <-.
  - apply apply_props_inv in H.
    destruct H as [E|[p [attr [cv [m [Hin [Hm H]]]]]]]; [now subst|].
    table_cases Hin;
      try (eapply apply_match_size_tolerance; [|exact H]; reflexivity).
    congruence.
Qed.

(** With the tolerance group the line sets the field and its tolerance. *)
Lemma apply_props_height_tolerance (c : Component) (line : string)
  (m : captures) (t : string) :
  re_match (exact_with_tolerance "height") line = Some m ->
  group m 2 = Some t ->
  exists f,
    py_float (group m 1) = Ok f /\ is_digits t = true
    /\ apply_props COMPONENT_PROPS c line
       = (z <- int_of_str t ;;
          Ok (setattr_int (setattr_float c "height_exact" f)
                "height_tolerance" z)).
Proof.
  intros Hm Ht.
  destruct (exact_with_group_2 _ _ _ _ Hm Ht) as [Hli [Hd [v [f [Hv Hf]]]]].
  exists f. unfold py_float at 1. rewrite Hv. repeat split; auto.
  unfold COMPONENT_PROPS. cbn [apply_props].
  rewrite (height_exact_not_min _ _ Hm), Hm.
  unfold apply_match, py_float. rewrite Hv, Hf, Hli, Ht.
  destruct t as [|a t]; [discriminate Hd|]. reflexivity.
Qed.

Lemma apply_props_size_tolerance (c : Component) (line : string)
  (m : captures) (t : string) :
  re_match (exact_with_tolerance "size") line = Some m ->
  group m 2 = Some t ->
  exists f,
    py_float (group m 1) = Ok f /\ is_digits t = true
    /\ apply_props COMPONENT_PROPS c line
       = (z <- int_of_str t ;;
          Ok (setattr_int (setattr_float c "size_exact" f)
                "size_tolerance" z)).
Proof.
  intros Hm Ht.
  destruct (exact_with_group_2 _ _ _ _ Hm Ht) as [Hli [Hd [v [f [Hv Hf]]]]].
  exists f. unfold py_float at 1. rewrite Hv. repeat split; auto.
  unfold COMPONENT_PROPS. cbn [apply_props].
  unfold HEIGHT_MIN_RE at 1. rewrite (size_exact_not_height _ _ _ Hm).
  unfold exact_with_tolerance at 1. rewrite (size_exact_not_height _ _ _ Hm).
  rewrite Hm.
  unfold apply_match, py_float. rewrite Hv, Hf, Hli, Ht.
  destruct t as [|a t]; [discriminate Hd|]. reflexivity.
Qed.

Lemma has_tolerance_true (w line : string) :
  has_tolerance w line = true
  <-> exists m t, re_match (exact_with_tolerance w) line = Some m
                  /\ group m 2 = Some t.
Proof.
  unfold has_tolerance. split.
  - destruct (re_match (exact_with_tolerance w) line) as [m|];
      [|discriminate].
    destruct (group m 2) as [t|] eqn:E; [|discriminate]. eauto.
  - intros [m [t [-> ->]]]. reflexivity.
Qed.

(** A tolerance other than 0 comes from a line with a tolerance group read
    for the component. *)
Lemma height_tolerance_by_line (content : string) (spec : Spec) (k : string)
  (c : Component) :
  parse_dsl content = Ok spec -> In (k, c) (components spec) ->
  height_tolerance c <> 0 ->
  exists l m t,
    applied_to k (PyStr.split_lines content) l
    /\ re_match (exact_with_tolerance "height") (PyStr.strip l) = Some m
    /\ group m 2 = Some t.
Proof.
  unfold parse_dsl. intros H Hin Hne. apply bind_ok in H.
  destruct H as [st [Hst H]]. injection H as <-.
  assert (Hnd : NoDup (dict_keys (components (st_spec st)))).
  { apply (parse_lines_nodup (PyStr.split_lines content) initial_state st);
      [constructor | exact Hst]. }
  pose proof (dict_in_get _ _ _ Hnd Hin) as Hget.
  destruct (populated_by_line
              (fun c => negb (height_tolerance c =? 0))
              (has_tolerance "height") (fun n => eq_refl))
    with (lines := PyStr.split_lines content) (st := st) (k := k) (c := c)
    as [l [Ha Hs]]; auto.
  - intros c0 line c' Hs Hap.
    now rewrite (height_tolerance_keep _ _ _ Hs Hap).
  - apply negb_true_iff. now apply Z.eqb_neq.
  - apply has_tolerance_true in Hs. destruct Hs as [m [t [Hm Ht]]].
    exists l, m, t. auto.
Qed.

Lemma size_tolerance_by_line (content : string) (spec : Spec) (k : string)
  (c : Component) :
  parse_dsl content = Ok spec -> In (k, c) (components spec) ->
  size_tolerance c <> 0 ->
  exists l m t,
    applied_to k (PyStr.split_lines content) l
    /\ re_match (exact_with_tolerance "size") (PyStr.strip l) = Some m
    /\ group m 2 = Some t.
Proof.
  unfold parse_dsl. intros H Hin Hne. apply bind_ok in H.
  destruct H as [st [Hst H]]. injection H as <-.
  assert (Hnd : NoDup (dict_keys (components (st_spec st)))).
  { apply (parse_lines_nodup (PyStr.split_lines content) initial_state st);
      [constructor | exact Hst]. }
  pose proof (dict_in_get _ _ _ Hnd Hin) as Hget.
  destruct (populated_by_line
              (fun c => negb (size_tolerance c =? 0))
              (has_tolerance "size") (fun n => eq_refl))
    with (lines := PyStr.split_lines content) (st := st) (k := k) (c := c)
    as [l [Ha Hs]]; auto.
  - intros c0 line c' Hs Hap.
    now rewrite (size_tolerance_keep _ _ _ Hs Hap).
  - apply negb_true_iff. now apply Z.eqb_neq.
  - apply has_tolerance_true in Hs. destruct Hs as [m [t [Hm Ht]]].
    exists l, m, t. auto.
Qed.

(** C8, counterexample: the line [height EXACT 56] matches its pattern
    without a tolerance group, and after the line [height EXACT 56 ±2] of
    the same block it leaves the tolerance at 2, not 0. *)
Lemma tolerance_left_by_earlier_line :
  re_match (exact_with_tolerance "height") "height EXACT 56"
  = Some [(1%nat, "56")]
  /\ group [(1%nat, "56")] 2 = None
  /\ exists c,
       parse_dsl
         (text ["COMPONENT x {"; "height EXACT 56 " ++ PLUS_MINUS ++ "2";
                "height EXACT 56"; "}"])
       = Ok (mkSpec [("x", c)] 4%float)
       /\ height_exact c = Some 56%float /\ height_tolerance c = 2.
Proof.
  split; [vm_compute; reflexivity|]. split; [reflexivity|].
  eexists. vm_compute. repeat split.
Qed.

(** C8, as the code has it: [height EXACT 56 ±2] alone in a block gives
    [height_exact = 56.0] with tolerance 2 and [height EXACT 56] alone
    gives [56.0] with tolerance 0.  A line matched with its tolerance group
    sets the [_exact] field to the number read and the paired tolerance to
    the integer after the sign; a line matched without the group sets the
    [_exact] field and leaves the paired tolerance as it is.  So the
    tolerance of a component of the parsed document is 0, the value of a
    fresh component, whenever every line read for the component matched
    the pattern without its tolerance group. *)
Theorem tolerance_pairing :
  (exists c,
      parse_dsl (block "x" ("height EXACT 56 " ++ PLUS_MINUS ++ "2"))
      = Ok (mkSpec [("x", c)] 4%float)
      /\ height_exact c = Some 56%float /\ height_tolerance c = 2)
  /\ (exists c,
        parse_dsl (block "x" "height EXACT 56")
        = Ok (mkSpec [("x", c)] 4%float)
        /\ height_exact c = Some 56%float /\ height_tolerance c = 0)
  /\ (forall c line m t,
        re_match (exact_with_tolerance "height") line = Some m ->
        group m 2 = Some t ->
        exists f,
          py_float (group m 1) = Ok f /\ is_digits t = true
          /\ forall z,
               int_of_str t = Ok z ->
               exists c',
                 apply_props COMPONENT_PROPS c line = Ok c'
                 /\ height_exact c' = Some f /\ height_tolerance c' = z)
  /\ (forall c line m t,
        re_match (exact_with_tolerance "size") line = Some m ->
        group m 2 = Some t ->
        exists f,
          py_float (group m 1) = Ok f /\ is_digits t = true
          /\ forall z,
               int_of_str t = Ok z ->
               exists c',
                 apply_props COMPONENT_PROPS c line = Ok c'
                 /\ size_exact c' = Some f /\ size_tolerance c' = z)
  /\ (forall c line m,
        re_match (exact_with_tolerance "height") line = Some m ->
        group m 2 = None ->
        exists c' f,
          apply_props COMPONENT_PROPS c line = Ok c'
          /\ py_float (group m 1) = Ok f
          /\ height_exact c' = Some f
          /\ height_tolerance c' = height_tolerance c)
  /\ (forall c line m,
        re_match (exact_with_tolerance "size") line = Some m ->
        group m 2 = None ->
        exists c' f,
          apply_props COMPONENT_PROPS c line = Ok c'
          /\ py_float (group m 1) = Ok f
          /\ size_exact c' = Some f
          /\ size_tolerance c' = size_tolerance c)
  /\ (forall n,
        height_tolerance (new_Component n) = 0
        /\ size_tolerance (new_Component n) = 0)
  /\ (forall content spec k c,
        parse_dsl content = Ok spec -> In (k, c) (components spec) ->
        ((forall l m,
             applied_to k (PyStr.split_lines content) l ->
             re_match (exact_with_tolerance "height") (PyStr.strip l)
             = Some m ->
             group m 2 = None) ->
         height_tolerance c = 0)
        /\ ((forall l m,
                applied_to k (PyStr.split_lines content) l ->
                re_match (exact_with_tolerance "size") (PyStr.strip l)
                = Some m ->
                group m 2 = None) ->
            size_tolerance c = 0)).
Proof.
  split; [eexists; vm_compute; repeat split|].
  split; [eexists; vm_compute; repeat split|].
  split.
  { intros c line m t Hm Ht.
    destruct (apply_props_height_tolerance c line m t Hm Ht)
      as [f [Hf [Hd Hp]]].
    exists f. repeat split; auto. intros z Hz. rewrite Hp, Hz.
    eexists. split; [reflexivity|]. split; reflexivity. }
  split.
  { intros c line m t Hm Ht.
    destruct (apply_props_size_tolerance c line m t Hm Ht)
      as [f [Hf [Hd Hp]]].
    exists f. repeat split; auto. intros z Hz. rewrite Hp, Hz.
    eexists. split; [reflexivity|]. split; reflexivity. }
  split.
  { intros c line m Hm H2.
    destruct (apply_props_height_exact c line m Hm H2)
      as [v [f [Hv [Hf Hp]]]].
    exists (setattr_float c "height_exact" f), f.
    unfold py_float. rewrite Hv. repeat split; auto. }
  split.
  { intros c line m Hm H2.
    destruct (apply_props_size_exact c line m Hm H2)
      as [v [f [Hv [Hf Hp]]]].
    exists (setattr_float c "size_exact" f), f.
    unfold py_float. rewrite Hv. repeat split; auto. }
  split; [intros n; split; reflexivity|].
  intros content spec k c H Hin. split; intros Hall.
  - destruct (Z.eq_dec (height_tolerance c) 0) as [E|Hne]; [exact E|].
    destruct (height_tolerance_by_line content spec k c H Hin Hne)
      as [l [m [t [Ha [Hm Ht]]]]].
    rewrite (Hall l m Ha Hm) in Ht. discriminate.
  - destruct (Z.eq_dec (size_tolerance c) 0) as [E|Hne]; [exact E|].
    destruct (size_tolerance_by_line content spec k c H Hin Hne)
      as [l [m [t [Ha [Hm Ht]]]]].
    rewrite (Hall l m Ha Hm) in Ht. discriminate.
Qed.

(** The last part at the block with the line [height EXACT 56] alone, and
    the third part at the line [height EXACT 56 ±2]. *)
Lemma tolerance_pairing_witness :
  height_tolerance
    (setattr_float (new_Component "x") "height_exact" 56%float) = 0
  /\ exists f,
       py_float (group [(2%nat, "2"); (1%nat, "56")] 1) = Ok f
       /\ is_digits "2" = true
       /\ forall z,
            int_of_str "2" = Ok z ->
            exists c',
              apply_props COMPONENT_PROPS (new_Component "x")
                ("height EXACT 56 " ++ PLUS_MINUS ++ "2")
              = Ok c'
              /\ height_exact c' = Some f /\ height_tolerance c' = z.
Proof.
  pose proof tolerance_pairing as [_ [_ [H3 [_ [_ [_ [_ H8]]]]]]].
  split.
  - refine (proj1 (H8 (block "x" "height EXACT 56")
                     (mkSpec
                        [("x", setattr_float (new_Component "x")
                                 "height_exact" 56%float)] 4%float)
                     "x"
                     (setattr_float (new_Component "x") "height_exact"
                        56%float) _ _) _).
    + vm_compute. reflexivity.
    + left. reflexivity.
    + intros l m [pre [post [st [E _]]]] Hm.
      assert (Hin : In l (PyStr.split_lines (block "x" "height EXACT 56")))
        by (rewrite E; apply in_elt).
      change (PyStr.split_lines (block "x" "height EXACT 56"))
        with ["COMPONENT x {"; "    height EXACT 56"; "}"] in Hin.
      destruct Hin as [<-|[<-|[<-|[]]]]; vm_compute in Hm;
        first [discriminate Hm | injection Hm as <-; reflexivity].
  - refine (H3 (new_Component "x") ("height EXACT 56 " ++ PLUS_MINUS ++ "2")
              [(2%nat, "2"); (1%nat, "56")] "2" _ _).
    + vm_compute. reflexivity.
    + reflexivity.
Defined.

(** * The threshold of the compliance checks *)

Lemma table_value_is_float (cname attr const : string) (expected : Z)
  (comp : Component) (val : pyval) :
  In (attr, (const, expected)) (mapping_of SPEC_CONST_MAP cname) ->
  getattr comp attr = Some val ->
  exists f e, val = PyFloat f /\ float_of_int expected = Ok e.
Proof.
  intros Hin Hget. unfold mapping_of in Hin.
  destruct (dict_get SPEC_CONST_MAP cname) as [mapping|] eqn:Hm;
    [|contradiction].
  apply dict_get_in in Hm.
  pose proof (proj1 (forallb_forall _ _) SPEC_CONST_MAP_entries _ Hm) as Hall.
  simpl in Hall.
  pose proof (proj1 (forallb_forall _ _) Hall _ Hin) as He.
  unfold entry_ok in He. simpl in He.
  apply andb_true_iff in He. destruct He as [Hnf Hz].
  apply negb_true_iff in Hnf. apply Z.ltb_lt in Hz.
  destruct (getattr_float _ _ _ Hnf Hget) as [f Hf].
  destruct (float_of_int_ok expected Hz) as [e He].
  exists f, e. auto.
Qed.

(** The pair passes exactly when the attribute holds a [float] within the
    threshold of the expected value. *)
Lemma passes_threshold (cname attr const : string) (expected : Z)
  (comp : Component) :
  In (attr, (const, expected)) (mapping_of SPEC_CONST_MAP cname) ->
  (passes comp (attr, (const, expected)) = true
   <-> exists f e,
         getattr comp attr = Some (PyFloat f)
         /\ float_of_int expected = Ok e
         /\ PrimFloat.ltb (PrimFloat.abs (PrimFloat.sub f e))
              0x1.999999999999ap-4%float = true).
Proof.
  intros Hin. unfold passes. cbn [fst snd]. split.
  - destruct (getattr comp attr) as [val|] eqn:Hget; [|discriminate].
    destruct (table_value_is_float _ _ _ _ _ _ Hin Hget)
      as [f [e [-> He]]].
    unfold near. rewrite He. cbn [bind]. intros H. exists f, e. auto.
  - intros [f [e [-> [He H]]]]. unfold near. rewrite He. cbn [bind].
    exact H.
Qed.

(** C4: the generator never raises; the text it returns has one line per
    emitted check, in the format of the script; for a component of the
    document and a property of its sub-table the check of the pair is
    emitted exactly when the property is declared and
    [abs(val - expected) < 0.1] holds in binary64, where [0.1] is the
    binary64 number nearest to one tenth; nothing else is emitted.  A DSL
    value of 40.05 against 40 gives the check, as does 39.95; 41.0 gives
    none and 30 gives none. *)
Theorem md3_checks_threshold :
  (forall spec,
      exists items,
        generate_md3_checks spec
        = Ok (PyStr.join (String "010" "")
                (map (fun k =>
                        "    check(" ++ String "034" "" ++ chk_component k
                          ++ "_" ++ chk_attr k ++ String "034" ""
                          ++ ", (int)" ++ chk_const k ++ " == "
                          ++ DecimalString.NilZero.string_of_int
                               (Z.to_int (chk_expected k))
                          ++ " ? 0 : 1);")
                   items))
        /\ (forall cname comp attr const expected,
              NoDup (dict_keys (components spec)) ->
              In (cname, comp) (components spec) ->
              In (attr, (const, expected))
                 (mapping_of SPEC_CONST_MAP cname) ->
              (In (mkCheck cname attr const expected) items
               <-> exists f e,
                     getattr comp attr = Some (PyFloat f)
                     /\ float_of_int expected = Ok e
                     /\ PrimFloat.ltb (PrimFloat.abs (PrimFloat.sub f e))
                          0x1.999999999999ap-4%float = true))
        /\ (forall k,
              In k items ->
              exists comp,
                In (chk_component k, comp) (components spec)
                /\ In (chk_attr k, (chk_const k, chk_expected k))
                      (mapping_of SPEC_CONST_MAP (chk_component k))))
  /\ (Prim2SF 0x1.999999999999ap-4%float
      = S754_finite false 7205759403792794 (-56)
      /\ Z.abs (10 * 7205759403792794 - 2 ^ 56) <= 5)
  /\ (exists spec,
        parse_dsl (block "button" "height MIN 40.05") = Ok spec
        /\ generate_md3_checks spec
           = Ok ("    check(" ++ String "034" "button_height_min"
                   ++ String "034"
                        ", (int)IUI_BUTTON_HEIGHT == 40 ? 0 : 1);"))
  /\ (exists spec,
        parse_dsl (block "button" "height MIN 39.95") = Ok spec
        /\ generate_md3_checks spec
           = Ok ("    check(" ++ String "034" "button_height_min"
                   ++ String "034"
                        ", (int)IUI_BUTTON_HEIGHT == 40 ? 0 : 1);"))
  /\ (exists spec,
        parse_dsl (block "button" "height MIN 41.0") = Ok spec
        /\ generate_md3_checks spec = Ok "")
  /\ (exists spec,
        parse_dsl (block "button" "height MIN 30") = Ok spec
        /\ generate_md3_checks spec = Ok "")
  /\ (exists spec,
        parse_dsl
          (text ["COMPONENT textfield {"; "height MIN 56"; "}";
                 "COMPONENT button {"; "height MIN 40"; "touch_target 48";
                 "}"; "COMPONENT chip {"; "height MIN 31.8"; "}"])
        = Ok spec
        /\ generate_md3_checks spec
           = Ok ("    check(" ++ String "034" "textfield_height_min"
                   ++ String "034"
                        (", (int)IUI_TEXTFIELD_HEIGHT == 56 ? 0 : 1);"
                           ++ String "010"
                                ("    check("
                                   ++ String "034" "button_height_min"
                                   ++ String "034"
                                        ", (int)IUI_BUTTON_HEIGHT == 40 ? 0 : 1);")))).
Proof.
  split.
  { intros spec. eexists. split.
    { unfold generate_md3_checks. rewrite md3_check_items_spec.
      reflexivity. }
    split.
    - intros cname comp attr const expected Hnd Hc He.
      rewrite <- (passes_threshold cname attr const expected comp He).
      rewrite in_flat_map. split.
      + intros [[cn comp'] [Hin Hk]]. simpl in Hk.
        apply in_map_iff in Hk. destruct Hk as [[a [k x]] [Ek Hf]].
        unfold item_of in Ek. simpl in Ek. injection Ek as -> -> -> ->.
        apply filter_In in Hf. destruct Hf as [_ Hp].
        now rewrite (dict_values_unique _ _ _ _ Hnd Hin Hc) in Hp.
      + intros Hp. exists (cname, comp). split; [exact Hc|]. simpl.
        apply in_map_iff. exists (attr, (const, expected)).
        split; [reflexivity|]. apply filter_In. split; [exact He|exact Hp].
    - intros k Hk. apply in_flat_map in Hk.
      destruct Hk as [[cn comp] [Hin Hk]]. simpl in Hk.
      apply in_map_iff in Hk. destruct Hk as [[a [c x]] [Ek Hf]].
      subst k. simpl. apply filter_In in Hf. destruct Hf as [He _].
      exists comp. auto. }
  split; [split; [vm_compute; reflexivity | vm_compute; discriminate]|].
  repeat split; eexists; (split; [vm_compute; reflexivity|]);
    vm_compute; reflexivity.
Qed.

(** The first part at a document with the component [button] at 40.05. *)
Lemma md3_checks_threshold_witness :
  exists items,
    generate_md3_checks
      (mkSpec [("button",
                setattr_float (new_Component "button") "height_min"
                  0x1.4066666666666p+5%float)] 4%float)
    = Ok (PyStr.join (String "010" "")
            (map (fun k =>
                    "    check(" ++ String "034" "" ++ chk_component k
                      ++ "_" ++ chk_attr k ++ String "034" ""
                      ++ ", (int)" ++ chk_const k ++ " == "
                      ++ DecimalString.NilZero.string_of_int
                           (Z.to_int (chk_expected k))
                      ++ " ? 0 : 1);")
               items))
    /\ (In (mkCheck "button" "height_min" "IUI_BUTTON_HEIGHT" 40) items
        <-> exists f e,
              getattr
                (setattr_float (new_Component "button") "height_min"
                   0x1.4066666666666p+5%float)
                "height_min"
              = Some (PyFloat f)
              /\ float_of_int 40 = Ok e
              /\ PrimFloat.ltb (PrimFloat.abs (PrimFloat.sub f e))
                   0x1.999999999999ap-4%float = true).
Proof.
  destruct (proj1 md3_checks_threshold
              (mkSpec [("button",
                        setattr_float (new_Component "button") "height_min"
                          0x1.4066666666666p+5%float)] 4%float))
    as [items [H1 [H2 _]]].
  exists items. split; [exact H1|].
  apply (H2 "button"
           (setattr_float (new_Component "button") "height_min"
              0x1.4066666666666p+5%float)
           "height_min" "IUI_BUTTON_HEIGHT" 40).
  - repeat constructor. simpl. tauto.
  - left. reflexivity.
  - left. reflexivity.
Defined.

(** * The pixels of a raster *)

Lemma index_nth (bs : bytes) :
  forall i v,
    0 <= i -> index bs i = Ok v ->
    exists b, nth_error bs (Z.to_nat i) = Some b /\ v = byte_val b.
Proof.
  induction bs as [|b0 bs IH]; intros i v Hi H; simpl in H; [discriminate|].
  destruct (Z.eqb_spec i 0) as [->|Hne].
  - injection H as <-. exists b0. auto.
  - destruct (IH (i - 1) v ltac:(lia) H) as [b [Hb Hv]].
    exists b. split; [|exact Hv].
    replace (Z.to_nat i) with (S (Z.to_nat (i - 1))) by lia. exact Hb.
Qed.

(** A pixel is the four bytes at its index, in the order they stand. *)
Lemma pixel_at_bytes (raw : bytes) (idx : Z) (p : pixel) :
  0 <= idx -> pixel_at raw idx = Ok p ->
  exists r g b a,
    nth_error raw (Z.to_nat idx) = Some r
    /\ nth_error raw (Z.to_nat (idx + 1)) = Some g
    /\ nth_error raw (Z.to_nat (idx + 2)) = Some b
    /\ nth_error raw (Z.to_nat (idx + 3)) = Some a
    /\ p = [byte_val r; byte_val g; byte_val b; byte_val a].
Proof.
  intros H0 H. unfold pixel_at in H.
  apply bind_ok in H. destruct H as [vr [Hr H]].
  apply bind_ok in H. destruct H as [vg [Hg H]].
  apply bind_ok in H. destruct H as [vb [Hb H]].
  apply bind_ok in H. destruct H as [va [Ha H]].
  injection H as <-.
  destruct (index_nth raw idx vr H0 Hr) as [r [Nr ->]].
  destruct (index_nth raw (idx + 1) vg ltac:(lia) Hg) as [g [Ng ->]].
  destruct (index_nth raw (idx + 2) vb ltac:(lia) Hb) as [b [Nb ->]].
  destruct (index_nth raw (idx + 3) va ltac:(lia) Ha) as [a [Na ->]].
  exists r, g, b, a. auto.
Qed.

(** The steps of a successful [read_png]. *)
Lemma read_png_steps (dec : bytes -> option bytes) (data : bytes) (w h : Z)
  (px : list pixel) :
  read_png dec data = Some (Ok (w, h, px)) ->
  exists compressed raw,
    scan_chunks (S (List.length data)) (snd (read 8 data)) 0 0 []
    = Some (Ok (w, h, compressed))
    /\ dec compressed = Some raw
    /\ decode_pixels raw w h = Ok px
    /\ 0 <= w < 2 ^ 32 /\ 0 <= h < 2 ^ 32.
Proof.
  intros H. unfold read_png in H.
  destruct (read 8 data) as [sig f]. cbn [snd].
  destruct (negb (bytes_eqb sig PNG_SIGNATURE)); [discriminate|].
  destruct (scan_chunks (S (List.length data)) f 0 0 [])
    as [[[[w' h'] c]|e]|] eqn:Hs; try discriminate.
  destruct (dec c) as [raw|] eqn:Hdec; [|discriminate].
  injection H as H. apply bind_ok in H. destruct H as [px' [Hd H]].
  injection H as -> -> ->.
  assert (Hz : 0 <= 0 < 2 ^ 32) by (split; [lia | reflexivity]).
  destruct (scan_chunks_dims _ _ _ _ _ _ _ _ Hz Hz Hs) as [Hw Hh].
  exists c, raw. auto.
Qed.

(** Where the pixels of a decoded raster come from. *)
Lemma decode_pixels_bytes (raw : bytes) (w h : Z) (px : list pixel) :
  0 <= w -> 0 <= h -> decode_pixels raw w h = Ok px ->
  Z.of_nat (List.length px) = w * h
  /\ forall y x,
       0 <= y < h -> 0 <= x < w ->
       exists r g b a,
         nth_error raw (Z.to_nat (y * (1 + w * 4) + 1 + x * 4)) = Some r
         /\ nth_error raw (Z.to_nat (y * (1 + w * 4) + 1 + x * 4 + 1))
            = Some g
         /\ nth_error raw (Z.to_nat (y * (1 + w * 4) + 1 + x * 4 + 2))
            = Some b
         /\ nth_error raw (Z.to_nat (y * (1 + w * 4) + 1 + x * 4 + 3))
            = Some a
         /\ nth_error px (Z.to_nat (y * w + x))
            = Some [byte_val r; byte_val g; byte_val b; byte_val a].
Proof.
  intros Hw Hh Hd.
  destruct (decode_pixels_rows raw w h px Hw Hh Hd) as [Hlen [_ Hnth]].
  split; [lia|]. intros y x Hy Hx.
  destruct (Hnth y x Hy Hx) as [p [Hp Hn]].
  assert (H0 : 0 <= y * (1 + w * 4) + 1 + x * 4) by nia.
  destruct (pixel_at_bytes raw _ p H0 Hp)
    as [r [g [b [a [Nr [Ng [Nb [Na ->]]]]]]]].
  exists r, g, b, a. auto.
Qed.

(** Up to the [IEND] chunk the loop gathers the data of the [IDAT]
    chunks. *)
Lemma scan_list_idat_data (cs : list chunk) :
  forall (d crc : bytes) (more : list chunk) w h c w' h' c',
    Forall (fun ch => fst (fst ch) <> IEND) cs ->
    scan_list (map fst (cs ++ (IEND, d, crc) :: more)) w h c
    = Stopped (Ok (w', h', c')) ->
    c' = (c ++ idat_data cs)%list.
Proof.
  induction cs as [|[[ty dat] crc0] cs IH];
    intros d crc more w h c w' h' c' Hno H.
  - simpl in H. injection H as _ _ <-. unfold idat_data. simpl.
    now rewrite app_nil_r.
  - inversion Hno as [|? ? Hty Hno']. subst. simpl in Hty.
    cbn [app map fst scan_list] in H.
    unfold idat_data. cbn [filter fst snd].
    destruct (bytes_eqb ty IHDR) eqn:E1.
    + apply bytes_eqb_eq in E1. subst ty.
      change (bytes_eqb IHDR IDAT) with false.
      destruct (parse_ihdr dat) as [[w1 h1]|e]; [|discriminate].
      exact (IH _ _ _ _ _ _ _ _ _ Hno' H).
    + destruct (bytes_eqb ty IDAT) eqn:E2.
      * rewrite (IH _ _ _ _ _ _ _ _ _ Hno' H). unfold idat_data.
        simpl. now rewrite <- app_assoc.
      * destruct (bytes_eqb ty IEND) eqn:E3.
        -- apply bytes_eqb_eq in E3. contradiction.
        -- exact (IH _ _ _ _ _ _ _ _ _ Hno' H).
Qed.

(** C7: a raster that [read_png] returns has one pixel per position of the
    [width] x [height] grid; the bytes that the decompressor returns for
    the data gathered by the chunk loop hold, for the row [y] and the
    column [x], the four bytes R, G, B, A of the pixel at the index
    [y * (1 + 4 * width) + 1 + 4 * x], in this order, and the pixel at the
    position [y * width + x] of the list is the tuple of their values, each
    between 0 and 255: the list is in row-major order, rows from the top,
    columns from the left.  In a file made of chunks the data gathered is
    that of the [IDAT] chunks before [IEND], in file order. *)
Theorem read_png_raster :
  (forall (zlib_decompress : bytes -> option bytes) (data : bytes)
          (w h : Z) (px : list pixel),
      read_png zlib_decompress data = Some (Ok (w, h, px)) ->
      Z.of_nat (List.length px) = w * h
      /\ 0 <= w < 2 ^ 32 /\ 0 <= h < 2 ^ 32
      /\ exists compressed raw,
           scan_chunks (S (List.length data)) (snd (read 8 data)) 0 0 []
           = Some (Ok (w, h, compressed))
           /\ zlib_decompress compressed = Some raw
           /\ forall y x,
                0 <= y < h -> 0 <= x < w ->
                exists r g b a,
                  nth_error raw (Z.to_nat (y * (1 + w * 4) + 1 + x * 4))
                  = Some r
                  /\ nth_error raw
                       (Z.to_nat (y * (1 + w * 4) + 1 + x * 4 + 1))
                     = Some g
                  /\ nth_error raw
                       (Z.to_nat (y * (1 + w * 4) + 1 + x * 4 + 2))
                     = Some b
                  /\ nth_error raw
                       (Z.to_nat (y * (1 + w * 4) + 1 + x * 4 + 3))
                     = Some a
                  /\ nth_error px (Z.to_nat (y * w + x))
                     = Some [byte_val r; byte_val g; byte_val b;
                             byte_val a])
  /\ (forall (zlib_decompress : bytes -> option bytes) (cs : list chunk)
             (d crc : bytes) (more : list chunk) (w h : Z)
             (px : list pixel),
        Forall well_formed (cs ++ (IEND, d, crc) :: more) ->
        Forall (fun ch => fst (fst ch) <> IEND) cs ->
        read_png zlib_decompress (png_file (cs ++ (IEND, d, crc) :: more))
        = Some (Ok (w, h, px)) ->
        exists raw,
          zlib_decompress (idat_data cs) = Some raw
          /\ Z.of_nat (List.length px) = w * h
          /\ forall y x,
               0 <= y < h -> 0 <= x < w ->
               exists r g b a,
                 nth_error raw (Z.to_nat (y * (1 + w * 4) + 1 + x * 4))
                 = Some r
                 /\ nth_error raw
                      (Z.to_nat (y * (1 + w * 4) + 1 + x * 4 + 1))
                    = Some g
                 /\ nth_error raw
                      (Z.to_nat (y * (1 + w * 4) + 1 + x * 4 + 2))
                    = Some b
                 /\ nth_error raw
                      (Z.to_nat (y * (1 + w * 4) + 1 + x * 4 + 3))
                    = Some a
                 /\ nth_error px (Z.to_nat (y * w + x))
                    = Some [byte_val r; byte_val g; byte_val b;
                            byte_val a])
  /\ (forall b : byte, 0 <= byte_val b < 256)
  /\ read_png zlib_stored png_2x2
     = Some (Ok (2, 2, [[10; 20; 30; 255]; [40; 50; 60; 255];
                        [70; 80; 90; 128]; [100; 110; 120; 0]])).
Proof.
  split.
  { intros dec data w h px H.
    destruct (read_png_steps dec data w h px H)
      as [c [raw [Hs [Hdec [Hd [Hw Hh]]]]]].
    destruct (decode_pixels_bytes raw w h px (proj1 Hw) (proj1 Hh) Hd)
      as [Hlen Hpix].
    split; [exact Hlen|]. split; [exact Hw|]. split; [exact Hh|].
    exists c, raw. auto. }
  split.
  { intros dec cs d crc more w h px Hwf Hno H.
    rewrite (read_png_encoded dec _ Hwf) in H. injection H as H.
    destruct (scan_list (map fst (cs ++ (IEND, d, crc) :: more)) 0 0 [])
      as [[[[w' h'] c]|e]|w' h' c] eqn:Hs; try discriminate.
    pose proof (scan_list_idat_data cs d crc more _ _ _ _ _ _ Hno Hs) as Ec.
    simpl in Ec. subst c. cbn [after_scan] in H.
    destruct (dec (idat_data cs)) as [raw|] eqn:Hdec; [|discriminate].
    apply bind_ok in H. destruct H as [px' [Hd H]].
    injection H as -> -> ->.
    pose proof (read_png_encoded dec _ Hwf) as Hr. rewrite Hs in Hr.
    cbn [after_scan] in Hr. rewrite Hdec, Hd in Hr. cbn [bind] in Hr.
    destruct (read_png_steps dec _ w h px Hr)
      as [_ [_ [_ [_ [_ [Hw Hh]]]]]].
    destruct (decode_pixels_bytes raw w h px (proj1 Hw) (proj1 Hh) Hd)
      as [Hlen Hpix].
    exists raw. auto. }
  split; [exact byte_val_range|].
  vm_compute. reflexivity.
Qed.

(** The first part at the 2x2 image, and the second at the same image as a
    list of chunks. *)
Lemma read_png_raster_witness :
  (Z.of_nat
     (List.length [[10; 20; 30; 255]; [40; 50; 60; 255];
                   [70; 80; 90; 128]; [100; 110; 120; 0]])
   = 2 * 2)
  /\ exists raw,
       zlib_stored
         (idat_data
            [(IHDR, ihdr_data 2 2, map byte_of [114; 182; 13; 36]%N);
             (IDAT, map byte_of [120; 1; 1; 18; 0; 237; 255]%N,
              map byte_of [92; 47; 66; 69]%N);
             (IDAT,
              map byte_of [0; 10; 20; 30; 255; 40; 50; 60; 255;
                           0; 70; 80; 90; 128; 100; 110; 120; 0;
                           47; 96; 5; 139]%N,
              map byte_of [251; 65; 121; 133]%N)])
       = Some raw
       /\ nth_error raw (Z.to_nat (1 * (1 + 2 * 4) + 1 + 0 * 4))
          = Some (byte_of 70).
Proof.
  pose proof read_png_raster as [H1 [H2 _]].
  split.
  - refine (proj1 (H1 zlib_stored png_2x2 2 2
                     [[10; 20; 30; 255]; [40; 50; 60; 255];
                      [70; 80; 90; 128]; [100; 110; 120; 0]] _)).
    vm_compute. reflexivity.
  - destruct (H2 zlib_stored
                [(IHDR, ihdr_data 2 2, map byte_of [114; 182; 13; 36]%N);
                 (IDAT, map byte_of [120; 1; 1; 18; 0; 237; 255]%N,
                  map byte_of [92; 47; 66; 69]%N);
                 (IDAT,
                  map byte_of [0; 10; 20; 30; 255; 40; 50; 60; 255;
                               0; 70; 80; 90; 128; 100; 110; 120; 0;
                               47; 96; 5; 139]%N,
                  map byte_of [251; 65; 121; 133]%N)]
                [] (map byte_of [174; 66; 96; 130]%N) [] 2 2
                [[10; 20; 30; 255]; [40; 50; 60; 255];
                 [70; 80; 90; 128]; [100; 110; 120; 0]])
      as [raw [Hraw _]].
    + repeat (apply Forall_cons; [simpl; repeat split; lia|]).
      apply Forall_nil.
    + repeat (apply Forall_cons; [simpl; discriminate|]). apply Forall_nil.
    + vm_compute. reflexivity.
    + exists raw. split; [exact Hraw|].
      vm_compute in Hraw. injection Hraw as <-. reflexivity.
Defined.
